(** * The test orchestration engine of [test.py]

    A shallow embedding of the dispatcher, the worker threads, the result
    collector, the rerun filter and the fullness gate of [test.py], and the
    properties of them that the design document states.

    Conventions.
    - Python [str] is [string]; Python [int] return codes are [Z].
    - The module-level [args] namespace is the record [Args]; values that
      [run_tests] computes once before dispatching are the record [Env].
    - Worker threads, the dispatcher and the interrupt handler run
      concurrently: they are modelled by labelled events over an explicit
      system state, one event per atomic action of the source, and a schedule
      is a list of events.
    - Console output ([print]) is not modelled; the writes to the XML results
      file are. *)

From Stdlib Require Import ZArith Lia Ascii String.
From stdpp Require Import base tactics option list strings gmap sorting.

Local Open Scope string_scope.
Local Open Scope Z_scope.
Local Open Scope list_scope.

(** ** Strings and paths *)

Definition NL : string := String "010"%char "".

(** [len(s)] used as a truth value. *)
Definition nonempty (s : string) : bool :=
  match s with EmptyString => false | _ => true end.

Definition starts_with (p s : string) : bool := String.prefix p s.

Definition ends_with (p s : string) : bool :=
  bool_decide (String.substring (String.length s - String.length p)
                 (String.length p) s = p)
  && bool_decide (String.length p <= String.length s)%nat.

(** [os.path.join(a, b)] on POSIX, for two components. *)
Definition os_path_join (a b : string) : string :=
  if starts_with "/" b then b
  else if negb (nonempty a) || ends_with "/" a then a +:+ b
  else a +:+ "/" +:+ b.

(** [str.upper()] on the ASCII letters. *)
Definition upper_ascii (c : ascii) : ascii :=
  let n := nat_of_ascii c in
  if ((97 <=? n) && (n <=? 122))%nat then ascii_of_nat (n - 32) else c.

Fixpoint upper (s : string) : string :=
  match s with
  | EmptyString => EmptyString
  | String c s' => String (upper_ascii c) (upper s')
  end.

(** [str.find(sub)]: the lowest index, or -1. *)
Definition str_find (sub s : string) : Z :=
  match String.index 0 sub s with
  | Some i => Z.of_nat i
  | None => -1
  end.

(** Python slice bounds: a negative index counts from the end, and the
    result is clamped to [0, len]. *)
Definition slice_index (s : string) (i : Z) : nat :=
  let n := Z.of_nat (String.length s) in
  Z.to_nat (Z.min n (Z.max 0 (if i <? 0 then i + n else i))).

(** [s[:i]] *)
Definition slice_to (s : string) (i : Z) : string :=
  String.substring 0 (slice_index s i) s.

(** [s[i:]] *)
Definition slice_from (s : string) (i : Z) : string :=
  String.substring (slice_index s i) (String.length s - slice_index s i) s.

(** ** Configuration *)

(** The fields of the parsed command line that the engine reads. *)
Record Args := {
  args_valgrind : bool;
  args_rerun_failed : bool;
  args_fullness : string;
  args_multiple : bool;
  args_update_data : bool;
  args_suite : string;
  args_example : string;
  args_pyexample : string;
  args_constrain : string;
  args_buildpath : string
}.

(** Globals and locals of [run_tests] that are fixed before dispatch. *)
Record Env := {
  NS3_BASEDIR : string;
  NS3_BUILDDIR : string;
  PYTHON0 : string;                      (* PYTHON[0] *)
  VALGRIND_SUPPRESSIONS_FILE : option string;
  test_runner_name : string;
  getcwd : string;                       (* os.getcwd() *)
  testpy_output_dir : string;
  ENABLE_EXAMPLES : bool;
  ENABLE_PYTHON_BINDINGS : bool
}.

Definition core_valgrind_skip_tests : list string :=
  [ "routing-click";
    "lte-rr-ff-mac-scheduler";
    "lte-tdmt-ff-mac-scheduler";
    "lte-fdmt-ff-mac-scheduler";
    "lte-pf-ff-mac-scheduler";
    "lte-tta-ff-mac-scheduler";
    "lte-fdbet-ff-mac-scheduler";
    "lte-ttbet-ff-mac-scheduler";
    "lte-fdtbfq-ff-mac-scheduler";
    "lte-tdtbfq-ff-mac-scheduler";
    "lte-pss-ff-mac-scheduler" ].

(** ** Jobs *)

(** [class Job].  [elapsed_time] is a float in the source; the model keeps
    its ["%.3f"] rendering.  The captured [standard_out] and [standard_err]
    are only printed and are left out. *)
Record Job := mkJob {
  is_break : bool;
  is_skip : bool;
  skip_reason : string;
  is_example : bool;
  is_pyexample : bool;
  shell_command : string;
  display_name : string;
  basedir : string;
  tempdir : string;
  cwd : string;
  tmp_file_name : string;
  returncode : Z;
  elapsed_time : string;
  build_path : string
}.

(** [Job.__init__] *)
Definition Job_init : Job := {|
  is_break := false; is_skip := false; skip_reason := "";
  is_example := false; is_pyexample := false;
  shell_command := ""; display_name := ""; basedir := ""; tempdir := "";
  cwd := ""; tmp_file_name := ""; returncode := 0; elapsed_time := "0.000";
  build_path := ""
|}.

Definition set_is_break (v : bool) (j : Job) : Job :=
  mkJob v (is_skip j) (skip_reason j) (is_example j) (is_pyexample j)
    (shell_command j) (display_name j) (basedir j) (tempdir j) (cwd j)
    (tmp_file_name j) (returncode j) (elapsed_time j) (build_path j).
Definition set_is_skip (v : bool) (j : Job) : Job :=
  mkJob (is_break j) v (skip_reason j) (is_example j) (is_pyexample j)
    (shell_command j) (display_name j) (basedir j) (tempdir j) (cwd j)
    (tmp_file_name j) (returncode j) (elapsed_time j) (build_path j).
Definition set_skip_reason (v : string) (j : Job) : Job :=
  mkJob (is_break j) (is_skip j) v (is_example j) (is_pyexample j)
    (shell_command j) (display_name j) (basedir j) (tempdir j) (cwd j)
    (tmp_file_name j) (returncode j) (elapsed_time j) (build_path j).
Definition set_is_example (v : bool) (j : Job) : Job :=
  mkJob (is_break j) (is_skip j) (skip_reason j) v (is_pyexample j)
    (shell_command j) (display_name j) (basedir j) (tempdir j) (cwd j)
    (tmp_file_name j) (returncode j) (elapsed_time j) (build_path j).
Definition set_is_pyexample (v : bool) (j : Job) : Job :=
  mkJob (is_break j) (is_skip j) (skip_reason j) (is_example j) v
    (shell_command j) (display_name j) (basedir j) (tempdir j) (cwd j)
    (tmp_file_name j) (returncode j) (elapsed_time j) (build_path j).
Definition set_shell_command (v : string) (j : Job) : Job :=
  mkJob (is_break j) (is_skip j) (skip_reason j) (is_example j) (is_pyexample j)
    v (display_name j) (basedir j) (tempdir j) (cwd j)
    (tmp_file_name j) (returncode j) (elapsed_time j) (build_path j).
Definition set_display_name (v : string) (j : Job) : Job :=
  mkJob (is_break j) (is_skip j) (skip_reason j) (is_example j) (is_pyexample j)
    (shell_command j) v (basedir j) (tempdir j) (cwd j)
    (tmp_file_name j) (returncode j) (elapsed_time j) (build_path j).
Definition set_basedir (v : string) (j : Job) : Job :=
  mkJob (is_break j) (is_skip j) (skip_reason j) (is_example j) (is_pyexample j)
    (shell_command j) (display_name j) v (tempdir j) (cwd j)
    (tmp_file_name j) (returncode j) (elapsed_time j) (build_path j).
Definition set_tempdir (v : string) (j : Job) : Job :=
  mkJob (is_break j) (is_skip j) (skip_reason j) (is_example j) (is_pyexample j)
    (shell_command j) (display_name j) (basedir j) v (cwd j)
    (tmp_file_name j) (returncode j) (elapsed_time j) (build_path j).
Definition set_cwd (v : string) (j : Job) : Job :=
  mkJob (is_break j) (is_skip j) (skip_reason j) (is_example j) (is_pyexample j)
    (shell_command j) (display_name j) (basedir j) (tempdir j) v
    (tmp_file_name j) (returncode j) (elapsed_time j) (build_path j).
Definition set_tmp_file_name (v : string) (j : Job) : Job :=
  mkJob (is_break j) (is_skip j) (skip_reason j) (is_example j) (is_pyexample j)
    (shell_command j) (display_name j) (basedir j) (tempdir j) (cwd j)
    v (returncode j) (elapsed_time j) (build_path j).
Definition set_returncode (v : Z) (j : Job) : Job :=
  mkJob (is_break j) (is_skip j) (skip_reason j) (is_example j) (is_pyexample j)
    (shell_command j) (display_name j) (basedir j) (tempdir j) (cwd j)
    (tmp_file_name j) v (elapsed_time j) (build_path j).
Definition set_elapsed_time (v : string) (j : Job) : Job :=
  mkJob (is_break j) (is_skip j) (skip_reason j) (is_example j) (is_pyexample j)
    (shell_command j) (display_name j) (basedir j) (tempdir j) (cwd j)
    (tmp_file_name j) (returncode j) v (build_path j).
Definition set_build_path (v : string) (j : Job) : Job :=
  mkJob (is_break j) (is_skip j) (skip_reason j) (is_example j) (is_pyexample j)
    (shell_command j) (display_name j) (basedir j) (tempdir j) (cwd j)
    (tmp_file_name j) (returncode j) (elapsed_time j) v.

#[global] Instance Job_eq_dec : EqDecision Job.
Proof. solve_decision. Defined.

(** ** Launching a job *)

(** The command line that [run_job_synchronously] hands to [Popen]
    (lines 864-887). *)
Definition run_job_command (env : Env) (shell_command : string)
    (valgrind is_python : bool) (build_path : string) : string :=
  let suppressions_path :=
    match VALGRIND_SUPPRESSIONS_FILE env with
    | Some f => os_path_join (NS3_BASEDIR env) f
    | None => ""
    end in
  let path_cmd :=
    if is_python then
      PYTHON0 env +:+ " " +:+ os_path_join (NS3_BASEDIR env) shell_command
    else if nonempty build_path then os_path_join build_path shell_command
    else os_path_join (NS3_BUILDDIR env) shell_command in
  if valgrind then
    match VALGRIND_SUPPRESSIONS_FILE env with
    | Some f =>
        if nonempty f then
          "valgrind --suppressions=" +:+ suppressions_path +:+
          " --leak-check=full --show-reachable=yes --error-exitcode=2 --errors-for-leak-kinds=all "
          +:+ path_cmd
        else
          "valgrind --leak-check=full --show-reachable=yes --error-exitcode=2 --errors-for-leak-kinds=all "
          +:+ path_cmd
    | None =>
        "valgrind --leak-check=full --show-reachable=yes --error-exitcode=2 --errors-for-leak-kinds=all "
        +:+ path_cmd
    end
  else path_cmd.

(** The command a worker launches for a job that is neither a sentinel nor
    skipped: the two branches of [worker_thread.run]. *)
Definition launch_command (args : Args) (env : Env) (job : Job) : string :=
  if is_example job || is_pyexample job then
    run_job_command env (shell_command job) (args_valgrind args)
      (is_pyexample job) (build_path job)
  else
    let update_data := if args_update_data args then "--update-data" else "" in
    run_job_command env
      (shell_command job +:+ " --xml --tempdir=" +:+ tempdir job +:+
       " --out=" +:+ tmp_file_name job +:+ " " +:+ update_data)
      (args_valgrind args) false "".

(** ** The queues, the workers and the interrupt handler *)

(** A queue entry: a Python reference to a [Job] object, kept as the index
    of the object in dispatch order together with the object's state.  A
    worker changes a job only between taking it from the input queue and
    putting it on the output queue, so the state travels with the
    reference. *)
Abbreviation item := (nat * Job)%type.

(** Where a worker thread stands in [worker_thread.run]. *)
Inductive worker :=
  | Idle                                  (* blocked in input_queue.get() *)
  | Holding (it : item)                   (* got a job, about to test it *)
  | Launching (it : item)                 (* past the tests, before Popen *)
  | Running (it : item) (cmd : string)    (* waiting for the subprocess *)
  | Exited.                               (* returned from run() *)

Record sys := mkSys {
  pending : list item;        (* jobs the dispatcher has still to put *)
  input_queue : list item;
  output_queue : list item;   (* everything put so far, oldest first *)
  thread_exit : bool;
  threads : list worker;
  launched : list (nat * string)   (* Popen calls: job reference, command *)
}.

(** One atomic action of the running system.  The handler runs in the main
    thread at any point of a worker's code, so the tests a worker makes on
    its job and the start of the subprocess are two events: the flag may be
    set between them. *)
Inductive event :=
  | Sigint                                  (* sigint_hook runs *)
  | Put                                     (* dispatcher: input_queue.put *)
  | Get (w : nat)                           (* worker w: input_queue.get *)
  | Examine (w : nat)                       (* worker w: the tests on the job *)
  | Launch (w : nat)                        (* worker w: Popen *)
  | Finish (w : nat) (rc : Z) (et : string). (* worker w: subprocess ended *)

Definition set_worker (w : nat) (x : worker) (s : sys) : sys :=
  mkSys (pending s) (input_queue s) (output_queue s) (thread_exit s)
    (<[w := x]> (threads s)) (launched s).

Definition put_output (it : item) (s : sys) : sys :=
  mkSys (pending s) (input_queue s) (output_queue s ++ [it]) (thread_exit s)
    (threads s) (launched s).

(** The tests that [worker_thread.run] makes on the job in hand (lines
    1094-1114): a sentinel ends the worker; with [thread_exit] set the job
    goes back marked [is_break]; a job to be skipped goes back as it is;
    any other job is to be run. *)
Definition examine (w : nat) (it : item) (s : sys) : sys :=
  let '(ref, job) := it in
  if is_break job then set_worker w Exited s
  else if thread_exit s then
    set_worker w Idle (put_output (ref, set_is_break true job) s)
  else if is_skip job then
    set_worker w Idle (put_output (ref, job) s)
  else set_worker w (Launching it) s.

(** The subprocess is started (lines 1119-1159, [Popen] at line 893);
    [thread_exit] is not looked at again. *)
Definition launch (args : Args) (env : Env) (w : nat) (it : item) (s : sys) : sys :=
  let '(ref, job) := it in
  let cmd := launch_command args env job in
  mkSys (pending s) (input_queue s) (output_queue s) (thread_exit s)
    (<[w := Running it cmd]> (threads s)) (launched s ++ [(ref, cmd)]).

(** The rest of the loop body (lines 1161-1171): the subprocess returned
    [rc] after [et]. *)
Definition finish (w : nat) (it : item) (rc : Z) (et : string) (s : sys) : sys :=
  let '(ref, job) := it in
  set_worker w Idle
    (put_output (ref, set_elapsed_time et (set_returncode rc job)) s).

(** An event that cannot happen in a state gives [None].  The handler run
    again leaves the flag as it is, and is not counted as an event. *)
Definition do_event (args : Args) (env : Env) (e : event) (s : sys) : option sys :=
  match e with
  | Sigint =>
      if thread_exit s then None
      else Some (mkSys (pending s) (input_queue s) (output_queue s) true
                   (threads s) (launched s))
  | Put =>
      match pending s with
      | [] => None
      | it :: rest =>
          Some (mkSys rest (input_queue s ++ [it]) (output_queue s)
                  (thread_exit s) (threads s) (launched s))
      end
  | Get w =>
      match threads s !! w, input_queue s with
      | Some Idle, it :: q =>
          Some (mkSys (pending s) q (output_queue s) (thread_exit s)
                  (<[w := Holding it]> (threads s)) (launched s))
      | _, _ => None
      end
  | Examine w =>
      match threads s !! w with
      | Some (Holding it) => Some (examine w it s)
      | _ => None
      end
  | Launch w =>
      match threads s !! w with
      | Some (Launching it) => Some (launch args env w it s)
      | _ => None
      end
  | Finish w rc et =>
      match threads s !! w with
      | Some (Running it _) => Some (finish w it rc et s)
      | _ => None
      end
  end.

Fixpoint run (args : Args) (env : Env) (es : list event) (s : sys) : option sys :=
  match es with
  | [] => Some s
  | e :: es' =>
      match do_event args env e s with
      | Some s' => run args env es' s'
      | None => None
      end
  end.

(** The sentinel that tells a worker to stop (lines 1936-1939). *)
Definition sentinel : Job := set_is_break true Job_init.

(** The state when the workers have been started and the dispatcher is about
    to put the first job: [jobs] are the jobs built from the catalog, in
    order, followed by one sentinel per worker. *)
Definition start (jobs : list Job) (processors : nat) : sys :=
  mkSys (zip (seq 0 (length jobs + processors))
             (jobs ++ replicate processors sentinel))
    [] [] false (replicate processors Idle) [].

(** All queues drained and every worker thread joined. *)
Definition finished (s : sys) : Prop :=
  pending s = [] ∧ input_queue s = [] ∧ Forall (λ w, w = Exited) (threads s).

(** ** Parsed XML *)

(** An [xml.etree.ElementTree] element: tag, text and child elements. *)
#[warnings="-register-all"]
Inductive Element :=
  | mkElement (tag : string) (text : option string) (children : list Element).

Definition tag (e : Element) : string := let 'mkElement t _ _ := e in t.
Definition text (e : Element) : option string := let 'mkElement _ x _ := e in x.
Definition children (e : Element) : list Element := let 'mkElement _ _ c := e in c.

(** [e.findall(t)] and [e.find(t)] for a plain tag name: the children with
    that tag, in document order, and the first of them. *)
Definition findall (e : Element) (t : string) : list Element :=
  filter (λ c, tag c = t) (children e).

Definition find (e : Element) (t : string) : option Element :=
  head (findall e t).

(** The truth value of an element is whether it has children. *)
Definition truthy (e : option Element) : bool :=
  match e with
  | Some (mkElement _ _ (_ :: _)) => true
  | _ => false
  end.

(** A file on disk: what [open(..., encoding="utf-8").read()] returns,
    [None] when the bytes are not UTF-8 and [read] raises
    [UnicodeDecodeError]; and what [ET.parse] makes of the file, [None] when
    the parser raises [ParseError]. *)
Record file := mkFile {
  contents : option string;
  etree : option Element
}.

Inductive exception :=
  | FileNotFoundError (path : string)
  | UnicodeDecodeError (path : string)
  | AttributeError.

(** ** The result collector *)

Inductive status := PASS | FAIL | VALGR | CRASH | SKIP.

#[global] Instance status_eq_dec : EqDecision status.
Proof. solve_decision. Defined.

(** The locals of [run_tests] that the collecting loop updates, and the
    text appended to the XML results file, one entry per [write]. *)
Record tally := mkTally {
  passed_tests : nat;
  failed_tests : nat;
  crashed_tests : nat;
  valgrind_errors : nat;
  skipped_tests : nat;
  skipped_testnames : list string;
  failed_testnames : list string;
  crashed_testnames : list string;
  valgrind_testnames : list string;
  failed_jobs : list Job;
  xml_results : list string
}.

(** The counters as they stand before the loop; [skipped_tests] is set to 0
    before dispatching and nothing touches it until the loop. *)
Definition tally_init : tally := mkTally 0 0 0 0 0 [] [] [] [] [] [].

Definition failed_jobs_append (job : Job) (t : tally) : tally :=
  mkTally (passed_tests t) (failed_tests t) (crashed_tests t) (valgrind_errors t)
    (skipped_tests t) (skipped_testnames t) (failed_testnames t)
    (crashed_testnames t) (valgrind_testnames t) (failed_jobs t ++ [job])
    (xml_results t).

Definition failed_jobs_pop (t : tally) : tally :=
  mkTally (passed_tests t) (failed_tests t) (crashed_tests t) (valgrind_errors t)
    (skipped_tests t) (skipped_testnames t) (failed_testnames t)
    (crashed_testnames t) (valgrind_testnames t) (removelast (failed_jobs t))
    (xml_results t).

Definition write (lines : list string) (t : tally) : tally :=
  mkTally (passed_tests t) (failed_tests t) (crashed_tests t) (valgrind_errors t)
    (skipped_tests t) (skipped_testnames t) (failed_testnames t)
    (crashed_testnames t) (valgrind_testnames t) (failed_jobs t)
    (xml_results t ++ lines).

(** Lines 1969-1995: the status of a job and the counters after it. *)
Definition classify (job : Job) (t : tally) : status * tally :=
  if is_skip job then
    (SKIP,
     mkTally (passed_tests t) (failed_tests t) (crashed_tests t) (valgrind_errors t)
       (S (skipped_tests t))
       (skipped_testnames t ++ [display_name job +:+ " (" +:+ skip_reason job +:+ ")"])
       (failed_testnames t) (crashed_testnames t) (valgrind_testnames t)
       (failed_jobs t) (xml_results t))
  else
    let t := failed_jobs_append job t in
    if returncode job =? 0 then
      (PASS,
       failed_jobs_pop
         (mkTally (S (passed_tests t)) (failed_tests t) (crashed_tests t)
            (valgrind_errors t) (skipped_tests t) (skipped_testnames t)
            (failed_testnames t) (crashed_testnames t) (valgrind_testnames t)
            (failed_jobs t) (xml_results t)))
    else if returncode job =? 1 then
      (FAIL,
       mkTally (passed_tests t) (S (failed_tests t)) (crashed_tests t)
         (valgrind_errors t) (skipped_tests t) (skipped_testnames t)
         (failed_testnames t ++ [display_name job]) (crashed_testnames t)
         (valgrind_testnames t) (failed_jobs t) (xml_results t))
    else if returncode job =? 2 then
      (VALGR,
       mkTally (passed_tests t) (failed_tests t) (crashed_tests t)
         (S (valgrind_errors t)) (skipped_tests t) (skipped_testnames t)
         (failed_testnames t) (crashed_testnames t)
         (valgrind_testnames t ++ [display_name job]) (failed_jobs t)
         (xml_results t))
    else
      (CRASH,
       mkTally (passed_tests t) (failed_tests t) (S (crashed_tests t))
         (valgrind_errors t) (skipped_tests t) (skipped_testnames t)
         (failed_testnames t) (crashed_testnames t ++ [display_name job])
         (valgrind_testnames t) (failed_jobs t) (xml_results t)).

Definition DQ : string := String "034"%char "".

(** Lines 2019-2037: the record written for an example. *)
Definition example_record (st : status) (job : Job) : list string :=
  [ "<Example>" +:+ NL;
    "  <Name>" +:+ display_name job +:+ "</Name>" +:+ NL ] ++
  match st with
  | PASS => [ "  <Result>PASS</Result>" +:+ NL ]
  | FAIL => [ "  <Result>FAIL</Result>" +:+ NL ]
  | VALGR => [ "  <Result>VALGR</Result>" +:+ NL ]
  | SKIP => [ "  <Result>SKIP</Result>" +:+ NL;
              "  <Reason>" +:+ skip_reason job +:+ "</Reason>" +:+ NL ]
  | CRASH => [ "  <Result>CRASH</Result>" +:+ NL ]
  end ++
  [ "  <Time real=" +:+ DQ +:+ elapsed_time job +:+ DQ +:+ "/>" +:+ NL;
    "</Example>" +:+ NL ].

(** Lines 2085-2090. *)
Definition suite_skip_record (job : Job) : list string :=
  [ "<Test>" +:+ NL;
    "  <Name>" +:+ display_name job +:+ "</Name>" +:+ NL;
    "  <Result>SKIP</Result>" +:+ NL;
    "  <Reason>" +:+ skip_reason job +:+ "</Reason>" +:+ NL;
    "</Test>" +:+ NL ].

(** Lines 2113-2117. *)
Definition suite_crash_record (job : Job) : list string :=
  [ "<Test>" +:+ NL;
    "  <Name>" +:+ display_name job +:+ "</Name>" +:+ NL;
    "  <Result>CRASH</Result>" +:+ NL;
    "</Test>" +:+ NL ].

(** Lines 2098-2101: the result tag of the suite's own document replaced. *)
Definition splice_valgr (contents : string) : string :=
  let pre := str_find "<Result>" contents + Z.of_nat (String.length "<Result>") in
  let post := str_find "</Result>" contents in
  slice_to contents pre +:+ "VALGR" +:+ slice_from contents post.

(** Lines 2106-2111: does the suite's document say PASS or SKIP?  Any
    exception inside the [try] is swallowed. *)
Definition document_passed (f : file) : bool :=
  match etree f with
  | Some root =>
      match find root "Result" with
      | Some r => bool_decide (text r ∈ [Some "PASS"; Some "SKIP"])
      | None => false
      end
  | None => false
  end.

(** One iteration of the collecting loop (lines 1960-2117) on the job taken
    from the output queue.  [fs] maps a path to the file there. *)
Definition collect_job (fs : gmap string file) (job : Job) (t : tally)
    : exception + tally :=
  if is_break job then inr t
  else
    let '(st, t) := classify job t in
    if is_example job || is_pyexample job then
      inr (write (example_record st job) t)
    else if is_skip job then
      inr (write (suite_skip_record job) t)
    else
      let t := failed_jobs_append job t in
      if (returncode job =? 0) || (returncode job =? 1) || (returncode job =? 2) then
        match fs !! tmp_file_name job with
        | None => inl (FileNotFoundError (tmp_file_name job))
        | Some f =>
            match contents f with
            | None => inl (UnicodeDecodeError (tmp_file_name job))
            | Some text =>
                let text := if decide (st = VALGR) then splice_valgr text else text in
                let t := write [text] t in
                inr (if document_passed f then failed_jobs_pop t else t)
            end
        end
      else
        inr (write (suite_crash_record job) t).

(** The loop [for i in range(jobs)] over what the output queue delivers. *)
Fixpoint collect (fs : gmap string file) (out : list Job) (t : tally)
    : exception + tally :=
  match out with
  | [] => inr t
  | job :: rest =>
      match collect_job fs job t with
      | inl e => inl e
      | inr t' => collect fs rest t'
      end
  end.

(** Lines 2234-2237: the value [run_tests] returns, which [main] hands to
    [sys.exit]. *)
Definition exit_code (total_tests : nat) (t : tally) : Z :=
  if (passed_tests t + skipped_tests t =? total_tests)%nat then 0 else 1.

(** The counter that goes with a status. *)
Definition counter (st : status) (t : tally) : nat :=
  match st with
  | PASS => passed_tests t
  | FAIL => failed_tests t
  | VALGR => valgrind_errors t
  | CRASH => crashed_tests t
  | SKIP => skipped_tests t
  end.

(** The number of outcomes the loop has counted. *)
Definition counted (t : tally) : nat :=
  (passed_tests t + skipped_tests t + failed_tests t + crashed_tests t
   + valgrind_errors t)%nat.

(** ** The rerun filter: reading the previous report *)

(** [TMP_OUTPUT_DIR] as a directory listing: file name to file. *)
Definition TMP_OUTPUT_DIR : string := "testpy-output".

(** [glob.glob(f"{TMP_OUTPUT_DIR}/*-results.xml")]: the names that end in
    [-results.xml]; a [*] at the start of a pattern does not match a
    leading dot. *)
Definition glob_results (dir : gmap string file) : list string :=
  filter (λ n, ends_with "-results.xml" n = true ∧ starts_with "." n = false)
    (map fst (map_to_list dir)).

(** [sorted(names, reverse=True)] by insertion; the sort is stable, and
    with [reverse=True] equal keys keep their order. *)
Fixpoint insert_desc (x : string) (l : list string) : list string :=
  match l with
  | [] => [x]
  | y :: l' => if String.ltb x y then y :: insert_desc x l' else x :: l
  end.

Definition sorted_desc (l : list string) : list string :=
  foldr insert_desc [] l.

(** [previously_run_tests_to_skip]: the dictionary with the two keys
    ["test"] and ["example"].  A name is the [text] of a [Name] element,
    which is [None] for an empty element. *)
Record skip_lists := mkSkipLists {
  skip_test : list (option string);
  skip_example : list (option string)
}.

(** What a call that may end the process or raise comes to. *)
Inductive outcome (A : Type) :=
  | Return (a : A)
  | Exit (code : Z)
  | Raise (e : exception).
Arguments Return {A} a.
Arguments Exit {A} code.
Arguments Raise {A} e.

(** [(x.find("Name").text, x.find("Result").text)]; [.text] of a missing
    element raises [AttributeError]. *)
Definition name_and_result (x : Element) : option (option string * option string) :=
  match find x "Name", find x "Result" with
  | Some n, Some r => Some (text n, text r)
  | _, _ => None
  end.

(** Lines 1196-1205 for one [test_type]: [None] stands for the
    [AttributeError]; an element that is not truthy leaves the entry of the
    dictionary at its initial empty list. *)
Definition previously_successful (root : Element) (test_type : string)
    : option (list (option string)) :=
  if truthy (find root test_type) then
    temp ← mapM name_and_result (findall root test_type);
    let temp := filter (λ x, x.2 ∈ [Some "PASS"; Some "SKIP"]) temp in
    Some (map fst temp)
  else Some [].

(** Lines 1182-1206, given the paths that [glob] returned.  [glob] lists a
    directory in no particular order. *)
Definition load_from (dir : gmap string file) (previous_results : list string)
    : outcome skip_lists :=
  match sorted_desc previous_results with
  | [] => Exit (-1)
  | latest_result_file :: _ =>
      match dir !! latest_result_file with
      | None => Raise (FileNotFoundError latest_result_file)
      | Some f =>
          match etree f with
          | None => Exit (-1)
          | Some previous_run_results =>
              match previously_successful previous_run_results "Test" with
              | None => Raise AttributeError
              | Some tests =>
                  match previously_successful previous_run_results "Example" with
                  | None => Raise AttributeError
                  | Some examples => Return (mkSkipLists tests examples)
                  end
              end
          end
      end
  end.

(** [load_previously_successful_tests()] over the listing of the output
    directory, with the order in which the map enumerates it. *)
Definition load_previously_successful_tests (dir : gmap string file)
    : outcome skip_lists :=
  load_from dir (glob_results dir).

(** The rerun filter run as a step of the process: it reads the directory
    and leaves it as it is. *)
Definition rerun_filter (dir : gmap string file) (previous_results : list string)
    : outcome skip_lists * gmap string file :=
  (load_from dir previous_results, dir).

(** The parsed report that the filter reads: the newest results file. *)
Definition latest_report (dir : gmap string file) : option Element :=
  latest_result_file ← head (sorted_desc (glob_results dir));
  f ← dir !! latest_result_file;
  etree f.

(** A record of the report with both a name and a result. *)
Definition record_ok (x : Element) : Prop :=
  is_Some (find x "Name") ∧ is_Some (find x "Result").

Definition well_formed_report (root : Element) : Prop :=
  Forall record_ok (findall root "Test") ∧ Forall record_ok (findall root "Example").

(** The report has a record of the given kind with this name and result. *)
Definition recorded (root : Element) (test_type : string)
    (name result : option string) : Prop :=
  ∃ x, x ∈ findall root test_type ∧ name_and_result x = Some (name, result).

(** [x >= y] in the order of [sorted]. *)
Definition str_ge (x y : string) : Prop := String.ltb x y = false.

(** ** Building the jobs *)

(** An entry of [example_tests]: [(name, test, do_run, do_valgrind_run,
    fullness)].  The two conditions are Python expressions that the source
    evaluates with [eval]; the entry holds their values.  [ex_runnable] is
    whether the program name is in [ns3_runnable_programs_dictionary]. *)
Record example_test := {
  ex_name : string;
  ex_test : string;
  ex_runnable : bool;
  ex_do_run : bool;
  ex_do_valgrind_run : bool;
  ex_fullness : string
}.

(** An entry of [python_tests]: [(test, do_run, fullness)]. *)
Record python_test := {
  py_test : string;
  py_runnable : bool;
  py_do_run : bool;
  py_fullness : string
}.

Definition skip (reason : string) (job : Job) : Job :=
  set_skip_reason reason (set_is_skip true job).

(** Lines 1793-1807 and again 1877-1889. *)
Definition fullness_gate (args : Args) (fullness : string) (job : Job) : Job :=
  if bool_decide (args_fullness args = "QUICK") && negb (bool_decide (fullness = "QUICK")) then
    skip ("skip " +:+ fullness +:+ " examples when QUICK run selected") job
  else if bool_decide (args_fullness args = "EXTENSIVE")
          && negb (bool_decide (fullness = "EXTENSIVE"))
          && negb (bool_decide (fullness = "QUICK")) then
    skip ("skip " +:+ fullness +:+ " examples when EXTENSIVE run selected") job
  else job.

(** Lines 1648-1678: the job of a test suite. *)
Definition suite_job (args : Args) (env : Env) (prev : skip_lists) (test : string) : Job :=
  let job := Job_init in
  let job := set_is_example false job in
  let job := set_is_pyexample false job in
  let job := set_display_name test job in
  let job := set_tmp_file_name (os_path_join (testpy_output_dir env) (test +:+ ".xml")) job in
  let job := set_cwd (getcwd env) job in
  let job := set_basedir (getcwd env) job in
  let job := set_tempdir (testpy_output_dir env) job in
  let multiple := if args_multiple args then "" else " --stop-on-failure" in
  let fullness :=
    if nonempty (args_fullness args) then " --fullness=" +:+ upper (args_fullness args)
    else " --fullness=QUICK" in
  let path_cmd :=
    os_path_join "utils"
      (test_runner_name env +:+ " --test-name=" +:+ test +:+ multiple +:+ fullness) in
  let job := set_shell_command path_cmd job in
  let job :=
    if args_valgrind args && bool_decide (test ∈ core_valgrind_skip_tests)
    then skip "crashes valgrind" job else job in
  let job :=
    if args_rerun_failed args && bool_decide (Some test ∈ skip_test prev)
    then skip "didn't fail in the previous run" job else job in
  job.

(** Lines 1768-1807: the job of a C++ example. *)
Definition example_job (args : Args) (env : Env) (prev : skip_lists) (x : example_test) : Job :=
  let job := Job_init in
  let job := set_is_example true job in
  let job := set_is_pyexample false job in
  let job := set_display_name (ex_name x) job in
  let job := set_tmp_file_name "" job in
  let job := set_cwd (testpy_output_dir env) job in
  let job := set_basedir (getcwd env) job in
  let job := set_tempdir (testpy_output_dir env) job in
  let job := set_shell_command (ex_test x) job in
  let job := set_build_path (args_buildpath args) job in
  let job :=
    if args_valgrind args && negb (ex_do_valgrind_run x)
    then skip "skip in valgrind runs" job else job in
  let job :=
    if args_rerun_failed args && bool_decide (Some (ex_name x) ∈ skip_example prev)
    then skip "didn't fail in the previous run" job else job in
  fullness_gate args (ex_fullness x) job.

(** Lines 1843-1889: the job of a Python example. *)
Definition pyexample_job (args : Args) (env : Env) (x : python_test) : Job :=
  let job := Job_init in
  let job := set_is_example false job in
  let job := set_is_pyexample true job in
  let job := set_display_name (py_test x) job in
  let job := set_tmp_file_name "" job in
  let job := set_cwd (testpy_output_dir env) job in
  let job := set_basedir (getcwd env) job in
  let job := set_tempdir (testpy_output_dir env) job in
  let job := set_shell_command (py_test x) job in
  let job := set_build_path "" job in
  let job := if args_valgrind args then skip "skip in valgrind runs" job else job in
  let job :=
    if negb (ENABLE_PYTHON_BINDINGS env) then skip "requires Python bindings" job
    else job in
  fullness_gate args (py_fullness x) job.

(** Lines 1915-1923: the job of the one Python example named on the command
    line. *)
Definition single_pyexample_job (args : Args) (env : Env) : Job :=
  let job := Job_init in
  let job := set_is_pyexample true job in
  let job := set_display_name (args_pyexample args) job in
  let job := set_tmp_file_name "" job in
  let job := set_cwd (testpy_output_dir env) job in
  let job := set_basedir (getcwd env) job in
  let job := set_tempdir (testpy_output_dir env) job in
  let job := set_shell_command (args_pyexample args) job in
  set_build_path "" job.

(** The catalog as it stands when dispatching begins: [suite_list] with its
    names stripped and the empty ones dropped, [example_tests] after the
    [--example] selection, [python_tests], and whether the script named by
    [--pyexample] is runnable and exists. *)
Record catalog := {
  suite_list : list string;
  example_tests : list example_test;
  python_tests : list python_test;
  pyexample_found : bool
}.

(** Lines 1645-1930: the jobs put on the input queue, in order. *)
Definition dispatch (args : Args) (env : Env) (prev : skip_lists) (c : catalog) : list Job :=
  map (suite_job args env prev) (suite_list c)
  ++ (if negb (nonempty (args_suite args)) && negb (nonempty (args_pyexample args))
         && (negb (nonempty (args_constrain args))
             || bool_decide (args_constrain args = "example"))
         && ENABLE_EXAMPLES env
      then map (example_job args env prev)
             (filter (λ x, ex_runnable x = true ∧ ex_do_run x = true) (example_tests c))
      else [])
  ++ (if negb (nonempty (args_suite args)) && negb (nonempty (args_example args))
         && negb (nonempty (args_pyexample args))
      then
        if negb (nonempty (args_constrain args))
           || bool_decide (args_constrain args = "pyexample")
        then map (pyexample_job args env)
               (filter (λ x, py_runnable x = true ∧ py_do_run x = true) (python_tests c))
        else []
      else if nonempty (args_pyexample args) then
        if pyexample_found c then [single_pyexample_job args env] else []
      else []).

(** Lines 1469-1471. *)
Definition previous_lists (args : Args) (dir : gmap string file) : outcome skip_lists :=
  if args_rerun_failed args then load_previously_successful_tests dir
  else Return (mkSkipLists [] []).

(** ** Fullness tiers *)

(** The three values [--fullness] accepts and an example may carry
    (the [choices] of the option, and the check of line 183). *)
Inductive tier := Quick | Extensive | TakesForever.

Definition tier_name (t : tier) : string :=
  match t with
  | Quick => "QUICK"
  | Extensive => "EXTENSIVE"
  | TakesForever => "TAKES_FOREVER"
  end.

(** Quick < Extensive < TakesForever. *)
Definition tier_rank (t : tier) : nat :=
  match t with Quick => 0 | Extensive => 1 | TakesForever => 2 end.

(** ** Notions used to state the properties of a run *)

(** The job a worker has in hand. *)
Definition held (w : worker) : list item :=
  match w with
  | Holding it => [it]
  | Launching it => [it]
  | Running it _ => [it]
  | _ => []
  end.






(** Everything the dispatcher puts, in order. *)
Definition all_jobs (jobs : list Job) (processors : nat) : list Job :=
  jobs ++ replicate processors sentinel.

(** How a job comes back on the output queue: marked [is_break] because the
    worker saw [thread_exit]; untouched because it was to be skipped; or
    with the return code and time of its subprocess. *)
Inductive returned (job : Job) : Job → Prop :=
  | returned_interrupted : returned job (set_is_break true job)
  | returned_skipped : is_skip job = true → returned job job
  | returned_executed rc et :
      is_skip job = false →
      returned job (set_elapsed_time et (set_returncode rc job)).

(** The queue entries in the order in which the dispatcher puts them. *)
Definition all_items (jobs : list Job) (processors : nat) : list item :=
  zip (seq 0 (length jobs + processors)) (all_jobs jobs processors).

(** The references that are somewhere in the system.  Those below the
    number of jobs dispatched are the jobs proper, the others are the
    sentinels. *)
Definition refs (s : sys) : list nat :=
  (pending s).*1 ++ (input_queue s).*1 ++ (threads s ≫= held).*1 ++ (output_queue s).*1.

(** What a worker may have in hand: a job as it was dispatched, and one
    that was neither a sentinel nor to be skipped when its subprocess
    runs. *)
Definition worker_ok (all : list Job) (w : worker) : Prop :=
  match w with
  | Holding it => all !! it.1 = Some it.2
  | Launching it =>
      all !! it.1 = Some it.2 ∧ is_break it.2 = false ∧ is_skip it.2 = false
  | Running it _ =>
      all !! it.1 = Some it.2 ∧ is_break it.2 = false ∧ is_skip it.2 = false
  | _ => True
  end.



(** A worker that has taken, or is done with, its sentinel. *)
Definition stopping (n : nat) (w : worker) : nat :=
  match w with
  | Exited => 1
  | Holding it => if decide (n ≤ it.1)%nat then 1 else 0
  | _ => 0
  end.



(** What holds of every state of a run of [jobs] on [processors]
    workers. *)
Record invariant (args : Args) (env : Env) (jobs : list Job) (processors : nat)
    (s : sys) : Prop := {
  inv_refs :
    filter (λ r, (r < length jobs)%nat) (refs s) ≡ₚ seq 0 (length jobs);
  inv_items :
    Forall (λ it : item, all_jobs jobs processors !! it.1 = Some it.2)
      (pending s ++ input_queue s);
  inv_workers : Forall (worker_ok (all_jobs jobs processors)) (threads s);
  inv_output :
    Forall (λ it : item, ∃ job, jobs !! it.1 = Some job ∧ returned job it.2)
      (output_queue s);
  inv_launched :
    Forall (λ rc : nat * string,
              ∃ job, jobs !! rc.1 = Some job ∧ is_skip job = false
                     ∧ rc.2 = launch_command args env job)
      (launched s);
  inv_quiet :
    thread_exit s = false →
    Forall (λ it : item, is_break it.2 = false) (output_queue s);
  inv_fifo :
    ∃ consumed,
      consumed ++ input_queue s ++ pending s = all_items jobs processors ∧
      sum_list_with (stopping (length jobs)) (threads s)
      = length (filter (λ it : item, (length jobs ≤ it.1)%nat) consumed);
  inv_threads : length (threads s) = processors
}.

(** The jobs that came back marked as interrupted. *)
Definition interrupted (out : list Job) : list Job :=
  filter (λ job, is_break job = true) out.

(** The jobs that came back with something to record. *)
Definition reported (out : list Job) : list Job :=
  filter (λ job, is_break job = false) out.

(** ** Sample inputs *)

(** The defaults of the command-line options. *)
Definition args_default : Args := {|
  args_valgrind := false; args_rerun_failed := false; args_fullness := "QUICK";
  args_multiple := false; args_update_data := false; args_suite := "";
  args_example := ""; args_pyexample := ""; args_constrain := "";
  args_buildpath := ""
|}.

Definition args_rerun : Args := {|
  args_valgrind := false; args_rerun_failed := true; args_fullness := "QUICK";
  args_multiple := false; args_update_data := false; args_suite := "";
  args_example := ""; args_pyexample := ""; args_constrain := "";
  args_buildpath := ""
|}.

Definition env_sample : Env := {|
  NS3_BASEDIR := "/ns-3-dev"; NS3_BUILDDIR := "/ns-3-dev/build";
  PYTHON0 := "python3"; VALGRIND_SUPPRESSIONS_FILE := Some ".ns3.supp";
  test_runner_name := "ns3-dev-test-runner-debug"; getcwd := "/ns-3-dev";
  testpy_output_dir := "testpy-output/2010-01-12-22-47-50-CUT";
  ENABLE_EXAMPLES := true; ENABLE_PYTHON_BINDINGS := true
|}.

Definition no_previous : skip_lists := mkSkipLists [] [].

Definition extensive_example : example_test := {|
  ex_name := "examples/wireless/wifi-bianchi"; ex_test := "/ns-3-dev/build/examples/wireless/wifi-bianchi";
  ex_runnable := true; ex_do_run := true; ex_do_valgrind_run := true;
  ex_fullness := "EXTENSIVE"
|}.

Definition extensive_python : python_test := {|
  py_test := "examples/wireless/mixed-wired-wireless.py";
  py_runnable := true; py_do_run := true; py_fullness := "EXTENSIVE"
|}.

(** A suite job as it comes back from a worker whose subprocess ended with
    code 0, and an output directory in which the document the suite was to
    write is there but empty. *)
Definition suite_returned_0 : Job :=
  set_elapsed_time "0.010"
    (set_returncode 0 (suite_job args_default env_sample no_previous "wifi-phy")).

Definition empty_document : gmap string file :=
  {[ tmp_file_name suite_returned_0 := mkFile (Some "") None ]}.

(** A report of an earlier run: suite A passed, suite B failed, suite C
    was skipped, and the Python example passed (a Python example is
    reported under the path of its script). *)
Definition report_record (kind name result : string) : Element :=
  mkElement kind None
    [ mkElement "Name" (Some name) []; mkElement "Result" (Some result) [] ].

Definition report_ABC : Element :=
  mkElement "Results" None
    [ report_record "Test" "A" "PASS";
      report_record "Test" "B" "FAIL";
      report_record "Test" "C" "SKIP";
      report_record "Example" "/ns-3-dev/examples/tutorial/first.py" "PASS" ].

Definition dir_ABC : gmap string file :=
  {[ "2010-01-12-22-47-50-CUT-results.xml" := mkFile (Some "<Results>...</Results>") (Some report_ABC) ]}.

Definition lists_ABC : skip_lists :=
  mkSkipLists [Some "A"; Some "C"] [Some "/ns-3-dev/examples/tutorial/first.py"].

Definition python_first : python_test := {|
  py_test := "/ns-3-dev/examples/tutorial/first.py";
  py_runnable := true; py_do_run := true; py_fullness := "QUICK"
|}.

Definition example_A : example_test := {|
  ex_name := "A"; ex_test := "/ns-3-dev/build/A";
  ex_runnable := true; ex_do_run := true; ex_do_valgrind_run := true;
  ex_fullness := "QUICK"
|}.

(** An output directory with the reports of two runs, the later of which
    does not parse. *)
Definition dir_two : gmap string file :=
  {[ "2010-01-12-22-47-50-CUT-results.xml" := mkFile (Some "<Results>...</Results>") (Some report_ABC);
     "2010-01-13-08-00-00-CUT-results.xml" := mkFile (Some "<Results>") None ]}.

(** Two C++ examples on one worker, interrupted while the first one runs. *)
Definition example_first : example_test := {|
  ex_name := "examples/tutorial/first";
  ex_test := "/ns-3-dev/build/examples/tutorial/ns3-dev-first-debug";
  ex_runnable := true; ex_do_run := true; ex_do_valgrind_run := true;
  ex_fullness := "QUICK"
|}.

Definition example_second : example_test := {|
  ex_name := "examples/tutorial/second";
  ex_test := "/ns-3-dev/build/examples/tutorial/ns3-dev-second-debug";
  ex_runnable := true; ex_do_run := true; ex_do_valgrind_run := true;
  ex_fullness := "QUICK"
|}.

Definition two_examples : list Job :=
  map (example_job args_default env_sample no_previous) [example_first; example_second].

Definition interrupt_after_first : list event :=
  [ Put; Put; Put; Get 0; Examine 0; Launch 0; Sigint; Finish 0 0 "0.100";
    Get 0; Examine 0; Get 0; Examine 0 ].

(** One suite on one worker, interrupted before the worker takes it. *)
Definition one_suite : list Job :=
  [ suite_job args_default env_sample no_previous "wifi-phy" ].

Definition interrupt_before_start : list event :=
  [ Put; Sigint; Put; Get 0; Examine 0; Get 0; Examine 0 ].




(** ** Further notions for the runs *)

(** The job whose subprocess a worker waits for. *)
Definition running (w : worker) : list item :=
  match w with
  | Running it _ => [it]
  | _ => []
  end.

(** A job that came back from a subprocess: neither marked as interrupted
    nor to be skipped. *)
Definition executed (job : Job) : Prop :=
  is_break job = false ∧ is_skip job = false.

(** Lines 1612-1617: the number of workers once [--process-limit] is taken
    into account; [range] of a negative number is empty. *)
Definition limit_processors (processors process_limit : Z) : Z :=
  if process_limit =? 0 then processors
  else if processors <? process_limit then processors
  else process_limit.

Definition worker_threads (processors process_limit : Z) : nat :=
  Z.to_nat (limit_processors processors process_limit).

(** The subprocesses launched so far are those still running and those
    whose job has come back. *)
Definition launched_accounted (s : sys) : Prop :=
  (launched s).*1 ≡ₚ
    (threads s ≫= running).*1
    ++ (filter (λ it : item, executed it.2) (output_queue s)).*1.

(** ** Further notions for the collector *)

(** The jobs of a given status among those that came back. *)
Definition with_status (st : status) (out : list Job) : list Job :=
  filter (λ job, is_break job = false ∧ (classify job tally_init).1 = st) out.

(** A job of a test suite that was run: the case in which the collector
    opens the document the suite wrote when the return code is 0, 1 or 2. *)
Definition reads_document (job : Job) : bool :=
  negb (is_break job) && negb (is_example job || is_pyexample job)
  && negb (is_skip job)
  && ((returncode job =? 0) || (returncode job =? 1) || (returncode job =? 2)).

(** A C++ example that came back with return code 1, and a suite that came
    back with return code 1 together with the document it wrote. *)
Definition example_returned_1 : Job :=
  set_elapsed_time "0.200"
    (set_returncode 1 (example_job args_default env_sample no_previous example_first)).

Definition suite_returned_1 : Job :=
  set_elapsed_time "0.300"
    (set_returncode 1 (suite_job args_default env_sample no_previous "wifi-phy")).

Definition failed_document : gmap string file :=
  {[ tmp_file_name suite_returned_1 :=
       mkFile (Some "<Test><Name>wifi-phy</Name><Result>FAIL</Result></Test>")
         (Some (report_record "Test" "wifi-phy" "FAIL")) ]}.

(** A catalog with two suites, one C++ example and one Python example. *)
Definition catalog_sample : catalog := {|
  suite_list := ["wifi-phy"; "routing-click"];
  example_tests := [example_first];
  python_tests := [python_first];
  pyexample_found := false
|}.

Definition args_one_suite : Args := {|
  args_valgrind := false; args_rerun_failed := false; args_fullness := "QUICK";
  args_multiple := false; args_update_data := false; args_suite := "wifi-phy";
  args_example := ""; args_pyexample := ""; args_constrain := "";
  args_buildpath := ""
|}.

(** ** More strings *)

(** [s.split(sep)] for a separator of one character: one part more than
    there are separators. *)
Fixpoint split_on (sep : ascii) (s : string) : list string :=
  match s with
  | EmptyString => [EmptyString]
  | String c s' =>
      if Ascii.eqb c sep then EmptyString :: split_on sep s'
      else match split_on sep s' with
           | part :: parts => String c part :: parts
           | [] => [String c EmptyString]
           end
  end.

(** [s.split(sep, 1)]: the part before the first separator and, when there
    is a separator, the part after it. *)
Fixpoint split1 (sep : ascii) (s : string) : string * option string :=
  match s with
  | EmptyString => (EmptyString, None)
  | String c s' =>
      if Ascii.eqb c sep then (EmptyString, Some s')
      else let '(part, rest) := split1 sep s' in (String c part, rest)
  end.

(** [sep.join(parts)] *)
Fixpoint str_join (sep : string) (parts : list string) : string :=
  match parts with
  | [] => EmptyString
  | [part] => part
  | part :: parts' => part +:+ sep +:+ str_join sep parts'
  end.

(** [sub in s] *)
Definition str_in (sub s : string) : bool :=
  match String.index 0 sub s with Some _ => true | None => false end.

(** Does the character occur in the string? *)
Fixpoint has_char (c : ascii) (s : string) : bool :=
  match s with
  | EmptyString => false
  | String c' s' => Ascii.eqb c' c || has_char c s'
  end.

(** [s.replace(old, new)] for a non-empty [old]: the occurrences are
    replaced from left to right and do not overlap.  [skip] counts the
    characters of an occurrence that are still to be dropped. *)
Fixpoint replace_from (old new : string) (skip : nat) (s : string) : string :=
  match s with
  | EmptyString => EmptyString
  | String c s' =>
      match skip with
      | S skip' => replace_from old new skip' s'
      | O =>
          if String.prefix old s
          then new +:+ replace_from old new (String.length old - 1) s'
          else String c (replace_from old new 0 s')
      end
  end.

Definition str_replace (old new s : string) : string := replace_from old new 0 s.

(** [os.path.basename(p)] on POSIX, [p[p.rfind("/") + 1:]]: what follows
    the last slash.  It is also [p.split("/")[-1]]. *)
Definition basename (p : string) : string :=
  default EmptyString (last (split_on "/" p)).

(** [l.remove(x)]: the first occurrence goes.  The source calls it only
    when [x in l]. *)
Fixpoint list_remove (x : string) (l : list string) : list string :=
  match l with
  | [] => []
  | y :: l' => if decide (x = y) then l' else y :: list_remove x l'
  end.

(** ** The environment of the child processes *)

(** [sys.platform], as far as [make_paths] tells the platforms apart.
    Paths are joined as on POSIX, which leaves ["win32"] out. *)
Inductive platform := darwin | cygwin | other_platform.

(** [os.environ[key] += value]; [None] is the [KeyError] of a variable
    that is not set. *)
Definition environ_append (key value : string) (environ : gmap string string)
    : option (gmap string string) :=
  old ← environ !! key; Some (<[key := old +:+ value]> environ).

(** The three platform branches of [make_paths] are the same code on
    different variables: lines 742-745, 756-759 and 763-766. *)
Definition extend_library_path (key : string) (have_key : bool)
    (NS3_MODULE_PATH : list string) (environ : gmap string string)
    : option (gmap string string) :=
  let environ := if negb have_key then <[key := EmptyString]> environ else environ in
  foldl (λ environ path, environ ← environ; environ_append key (":" +:+ path) environ)
    (Some environ) NS3_MODULE_PATH.

(** [make_paths] (lines 714-768) on [os.environ]. *)
Definition make_paths (env : Env) (NS3_MODULE_PATH : list string) (p : platform)
    (environ : gmap string string) : option (gmap string string) :=
  let have_DYLD_LIBRARY_PATH := bool_decide (is_Some (environ !! "DYLD_LIBRARY_PATH")) in
  let have_LD_LIBRARY_PATH := bool_decide (is_Some (environ !! "LD_LIBRARY_PATH")) in
  let have_PATH := bool_decide (is_Some (environ !! "PATH")) in
  let have_PYTHONPATH := bool_decide (is_Some (environ !! "PYTHONPATH")) in
  let pypath := os_path_join (os_path_join (NS3_BUILDDIR env) "bindings") "python" in
  let environ := <["PYTHONPATH" := pypath]> environ in
  environ ←
    (if negb have_PYTHONPATH then Some (<["PYTHONPATH" := pypath]> environ)
     else environ_append "PYTHONPATH" (":" +:+ pypath) environ);
  match p with
  | darwin =>
      extend_library_path "DYLD_LIBRARY_PATH" have_DYLD_LIBRARY_PATH NS3_MODULE_PATH environ
  | cygwin =>
      extend_library_path "PATH" have_PATH NS3_MODULE_PATH environ
  | other_platform =>
      extend_library_path "LD_LIBRARY_PATH" have_LD_LIBRARY_PATH NS3_MODULE_PATH environ
  end.

(** The variable that holds the library search path. *)
Definition library_variable (p : platform) : string :=
  match p with
  | darwin => "DYLD_LIBRARY_PATH"
  | cygwin => "PATH"
  | other_platform => "LD_LIBRARY_PATH"
  end.

(** ** The catalog of programs, suites and examples *)

(** Lines 1289-1293. *)
Definition ns3_runnable_programs_dictionary (ns3_runnable_programs : list string)
    : gmap string string :=
  foldl (λ dictionary program, <[basename program := program]> dictionary)
    ∅ ns3_runnable_programs.

Definition CR : string := String "013"%char "".

(** Lines 1577-1579: every performance test that is in the list is removed
    from it once. *)
Definition remove_performance_tests (suite_list performance_test_list : list string)
    : list string :=
  foldl (λ suite_list performance_test,
           if bool_decide (performance_test ∈ suite_list)
           then list_remove performance_test suite_list
           else suite_list)
    suite_list performance_test_list.

(** The standard output of the test runner asked for its list of names:
    [run_job_synchronously(os.path.join("utils", test_runner_name +
    " --print-test-name-list" + options), os.getcwd(), False, False)].
    [stdout_of] gives the standard output of a command. *)
Definition print_test_name_list (env : Env) (stdout_of : string → string)
    (options : string) : string :=
  stdout_of
    (run_job_command env
       (os_path_join "utils"
          (test_runner_name env +:+ " --print-test-name-list" +:+ options))
       false false "").

(** Lines 1516-1517: the names of the runner's list that match [--suite].
    [fnmatch name pattern] is the match that [fnmatch.filter] applies. *)
Definition suites_found (args : Args) (env : Env) (fnmatch : string → string → bool)
    (stdout_of : string → string) : list string :=
  let suites := print_test_name_list env stdout_of "" in
  let suites := str_replace (CR +:+ NL) NL suites in
  filter (λ name, fnmatch name (args_suite args) = true) (split_on "010" suites).

(** Lines 1506-1579: the names of the test suites to run, before they are
    stripped. *)
Definition list_suites (args : Args) (env : Env) (ENABLE_TESTS : bool)
    (fnmatch : string → string → bool) (stdout_of : string → string)
    : outcome (list string) :=
  let found : outcome (bool * string) :=
    if nonempty (args_suite args) then
      let suites_found := suites_found args env fnmatch stdout_of in
      match suites_found with
      | [] => Exit 2
      | [_] => Return (true, str_join NL suites_found)
      | _ => Return (false, str_join NL suites_found)
      end
    else if ENABLE_TESTS && negb (nonempty (args_example args))
            && negb (nonempty (args_pyexample args)) then
      if nonempty (args_constrain args) then
        Return (false,
                print_test_name_list env stdout_of
                  (" --test-type=" +:+ args_constrain args))
      else Return (false, print_test_name_list env stdout_of "")
    else Return (false, "") in
  match found with
  | Return (single_suite, suites) =>
      let suite_list := split_on "010" suites in
      if negb single_suite && negb (bool_decide (args_constrain args = "performance")) then
        let performance_tests :=
          print_test_name_list env stdout_of " --test-type=performance" in
        let performance_test_list := split_on "010" performance_tests in
        Return (remove_performance_tests suite_list performance_test_list)
      else Return suite_list
  | Exit code => Exit code
  | Raise e => Raise e
  end.

(** ** The examples-to-run files *)

(** What the parser reads from the build and from the file system.
    [get_list_from_file] is imported from [utils]; the tuples it returns
    are taken to hold strings.  [script_parent] is
    [os.path.dirname(os.path.dirname(__file__))].  [str_upper] is Python's
    [str.upper], which also maps letters outside ASCII; [relpath] is
    [os.path.relpath] on a path that is not empty. *)
Record Build := {
  APPNAME : string;
  VERSION : string;
  BUILD_PROFILE_SUFFIX : string;
  path_exists : string → bool;                               (* os.path.exists *)
  get_list_from_file : string → string → list (list string);
  str_upper : string → string;                               (* str.upper *)
  relpath : string → string → string;                        (* os.path.relpath *)
  script_parent : string;
  EXAMPLE_DIRECTORIES : list string;
  NS3_ENABLED_MODULES : list string;
  NS3_ENABLED_CONTRIBUTED_MODULES : list string
}.

Inductive parse_exception :=
  | ValueError_fullness (example_name fullness : string)         (* line 184 *)
  | RuntimeError_fields (example_name : option string) (fields : nat)
                                                    (* lines 192, 197, 258, 263 *)
  | ValueError_relpath              (* os.path.relpath of an empty path, line 221 *)
  | ValueError_unpack.              (* a tuple unpacked into too few names *)

(** An entry of [example_tests] as the parser appends it:
    [(example_name, example_path, do_run, do_valgrind_run, fullness)]. *)
Record example_entry := mkExample {
  ee_name : string;
  ee_path : string;
  ee_do_run : string;
  ee_do_valgrind_run : string;
  ee_fullness : string
}.

(** An entry of [python_tests]: [(example_path, do_run, fullness)]. *)
Record python_entry := mkPython {
  pe_path : string;
  pe_do_run : string;
  pe_fullness : string
}.

(** The three lists that [parse_examples_to_run_file] appends to. *)
Record example_lists := mkLists {
  l_example_tests : list example_entry;
  l_example_names_original : list string;
  l_python_tests : list python_entry
}.

(** A [for] loop whose body may raise. *)
Fixpoint for_each {S X : Type} (body : S → X → parse_exception + S) (s : S)
    (xs : list X) : parse_exception + S :=
  match xs with
  | [] => inr s
  | x :: xs' =>
      match body s x with
      | inl e => inl e
      | inr s' => for_each body s' xs'
      end
  end.

(** Lines 176-200: the fields of a C++ tuple. *)
Definition cpp_example_fields (b : Build) (cpp_example : list string)
    : parse_exception + (string * string * string * string) :=
  match cpp_example with
  | [example_name; do_run; do_valgrind_run] =>
      inr (example_name, do_run, do_valgrind_run, "QUICK")
  | [example_name; do_run; do_valgrind_run; fullness] =>
      let fullness := str_upper b fullness in
      if negb (bool_decide (fullness = "QUICK"))
         && negb (bool_decide (fullness = "EXTENSIVE"))
         && negb (bool_decide (fullness = "TAKES_FOREVER"))
      then inl (ValueError_fullness example_name fullness)
      else inr (example_name, do_run, do_valgrind_run, fullness)
  | first :: _ => inl (RuntimeError_fields (Some first) (length cpp_example))
  | [] => inl (RuntimeError_fields None (length cpp_example))
  end.

(** Lines 172-230: one iteration of the loop over [cpp_examples], on a
    platform other than win32 (where [.exe] is appended to the path).
    [os.path.relpath] raises [ValueError] when the path it is given is
    empty. *)
Definition parse_cpp_example (b : Build) (env : Env) (cpp_executable_dir : string)
    (ls : example_lists) (cpp_example : list string) : parse_exception + example_lists :=
  match cpp_example_fields b cpp_example with
  | inl e => inl e
  | inr (example_name, do_run, do_valgrind_run, fullness) =>
      let example_name_original := example_name in
      let example_name_parts := split1 " " example_name in
      let example_name := example_name_parts.1 in
      let example_arguments := default "" example_name_parts.2 in
      let example_path :=
        APPNAME b +:+ VERSION b +:+ "-" +:+ example_name +:+ BUILD_PROFILE_SUFFIX b in
      let example_path := os_path_join cpp_executable_dir example_path in
      if bool_decide (cpp_executable_dir = "") then inl ValueError_relpath else
      let example_name :=
        os_path_join (relpath b cpp_executable_dir (NS3_BUILDDIR env)) example_name in
      if path_exists b example_path then
        let example_path :=
          if bool_decide (is_Some example_name_parts.2)
          then example_path +:+ " " +:+ example_arguments else example_path in
        let example_name :=
          if bool_decide (is_Some example_name_parts.2)
          then example_name +:+ " " +:+ example_arguments else example_name in
        inr {| l_example_tests :=
                 l_example_tests ls
                 ++ [mkExample example_name example_path do_run do_valgrind_run fullness];
               l_example_names_original :=
                 l_example_names_original ls ++ [example_name_original];
               l_python_tests := l_python_tests ls |}
      else inr ls
  end.

(** Lines 249-266: the fields of a Python tuple. *)
Definition python_example_fields (python_example : list string)
    : parse_exception + (string * string * string) :=
  match python_example with
  | [example_name; do_run] => inr (example_name, do_run, "QUICK")
  | [example_name; do_run; fullness] => inr (example_name, do_run, fullness)
  | first :: _ => inl (RuntimeError_fields (Some first) (length python_example))
  | [] => inl (RuntimeError_fields None (length python_example))
  end.

(** Lines 248-288: one iteration of the loop over [python_examples]. *)
Definition parse_python_example (b : Build) (python_script_dir : string)
    (ls : example_lists) (python_example : list string) : parse_exception + example_lists :=
  match python_example_fields python_example with
  | inl e => inl e
  | inr (example_name, do_run, fullness) =>
      let example_name_parts := split1 " " example_name in
      let example_name := example_name_parts.1 in
      let example_arguments := default "" example_name_parts.2 in
      let example_path := os_path_join python_script_dir example_name in
      if path_exists b example_path then
        let example_path :=
          if bool_decide (is_Some example_name_parts.2)
          then example_path +:+ " " +:+ example_arguments else example_path in
        inr {| l_example_tests := l_example_tests ls;
               l_example_names_original := l_example_names_original ls;
               l_python_tests :=
                 l_python_tests ls ++ [mkPython example_path do_run fullness] |}
      else inr ls
  end.

(** Lines 145-153: the examples-to-run file that is read, if any. *)
Definition find_examples_to_run (b : Build) (examples_to_run_path : string)
    : option string :=
  if negb (path_exists b examples_to_run_path) then
    let possible_external_contrib_path :=
      str_replace "contrib" (script_parent b +:+ "/ns-3-external-contrib")
        examples_to_run_path in
    if path_exists b possible_external_contrib_path
    then Some possible_external_contrib_path
    else None
  else Some examples_to_run_path.

(** [parse_examples_to_run_file] (lines 136-288); an exception leaves
    [run_tests], so the lists as they are then are not kept. *)
Definition parse_examples_to_run_file (b : Build) (env : Env)
    (examples_to_run_path cpp_executable_dir python_script_dir : string)
    (ls : example_lists) : parse_exception + example_lists :=
  match find_examples_to_run b examples_to_run_path with
  | None => inr ls
  | Some examples_to_run_path =>
      let cpp_examples := get_list_from_file b examples_to_run_path "cpp_examples" in
      match for_each (parse_cpp_example b env cpp_executable_dir) ls cpp_examples with
      | inl e => inl e
      | inr ls =>
          let python_examples :=
            get_list_from_file b examples_to_run_path "python_examples" in
          for_each (parse_python_example b python_script_dir) ls python_examples
      end
  end.

(** Lines 1303-1316: the examples of a directory under [examples]. *)
Definition parse_example_directory (b : Build) (env : Env) (ls : example_lists)
    (directory : string) : parse_exception + example_lists :=
  let example_directory := os_path_join "examples" directory in
  let examples_to_run_path := os_path_join example_directory "examples-to-run.py" in
  let cpp_executable_dir := os_path_join (NS3_BUILDDIR env) example_directory in
  let python_script_dir := example_directory in
  parse_examples_to_run_file b env examples_to_run_path cpp_executable_dir
    python_script_dir ls.

(** Lines 1318-1337 with [top] = ["src"], lines 1339-1358 with [top] =
    ["contrib"]: the examples of a module. *)
Definition parse_module (top : string) (b : Build) (env : Env) (ls : example_lists)
    (module : string) : parse_exception + example_lists :=
  let module := slice_from module (Z.of_nat (String.length "ns3-")) in
  let module_directory := os_path_join top module in
  let example_directory := os_path_join module_directory "examples" in
  let examples_to_run_path :=
    os_path_join (os_path_join module_directory "test") "examples-to-run.py" in
  let cpp_executable_dir := os_path_join (NS3_BUILDDIR env) example_directory in
  let python_script_dir := example_directory in
  parse_examples_to_run_file b env examples_to_run_path cpp_executable_dir
    python_script_dir ls.

(** Lines 1298-1358: the three lists that [run_tests] builds. *)
Definition collect_examples (b : Build) (env : Env) : parse_exception + example_lists :=
  match for_each (parse_example_directory b env) (mkLists [] [] [])
          (EXAMPLE_DIRECTORIES b) with
  | inl e => inl e
  | inr ls =>
      match for_each (parse_module "src" b env) ls (NS3_ENABLED_MODULES b) with
      | inl e => inl e
      | inr ls =>
          for_each (parse_module "contrib" b env) ls (NS3_ENABLED_CONTRIBUTED_MODULES b)
      end
  end.

(** Lines 1761-1762 and 1837-1838: the program of a command line, without
    arguments and directories (on platforms other than win32). *)
Definition test_name (test : string) : string :=
  basename (split1 " " test).1.

(** Lines 1724-1757: the examples left when [--example] names one, on a
    platform other than win32.  [example_args] is emptied as soon as the
    list is filtered. *)
Definition select_examples (b : Build) (example : string) (example_args : list string)
    (ns3_runnable_programs_dictionary : gmap string string)
    (example_tests : list example_entry) : list example_entry :=
  if nonempty example then
    let example_tests :=
      if ends_with "*" example then
        filter (λ x, str_in (slice_to example (-1)) (ee_name x) = true) example_tests
      else
        filter (λ x, str_join " " (example :: example_args)
                     = default "" (last (split_on "/" (ee_name x))))
          example_tests in
    let example_args : list string := [] in
    if bool_decide (length example_tests = 0%nat)
       || negb (bool_decide (length example_args = 0%nat)) then
      let example_name := str_join " " (example :: example_args) in
      let example_path :=
        APPNAME b +:+ VERSION b +:+ "-" +:+ example +:+ BUILD_PROFILE_SUFFIX b in
      match ns3_runnable_programs_dictionary !! example_path with
      | Some example_path =>
          let example_path := str_join " " (example_path :: example_args) in
          [mkExample example_name example_path "True" "True" "QUICK"]
      | None => []
      end
    else example_tests
  else example_tests.

(** The tuple of an entry of [python_tests], and the unpacking of a tuple
    into two names. *)
Definition python_tuple (x : python_entry) : list string :=
  [pe_path x; pe_do_run x; pe_fullness x].

Definition unpack2 (t : list string) : parse_exception + (string * string) :=
  match t with
  | [x; y] => inr (x, y)
  | _ => inl ValueError_unpack
  end.

(** Lines 1380-1426: the examples that [--list] prints.  When the tests
    are enabled the runner is first asked for the suites, and [rc] is its
    return code: if it is not 0, [run_tests] returns at once and no example
    is listed ([None]).  The loop over [python_tests] unpacks every entry
    into [x, y]. *)
Definition listed_examples (env : Env) (ENABLE_TESTS : bool) (rc : Z)
    (ls : example_lists) : parse_exception + option (list string) :=
  if ENABLE_TESTS && negb (rc =? 0) then inr None
  else
    let examples_sorted :=
      if ENABLE_EXAMPLES env
      then merge_sort String.le (l_example_names_original ls) else [] in
    if ENABLE_PYTHON_BINDINGS env then
      match for_each (λ python_examples_sorted t,
                        match unpack2 (python_tuple t) with
                        | inl e => inl e
                        | inr (x, y) =>
                            inr (if bool_decide (y = "True")
                                 then python_examples_sorted ++ [x]
                                 else python_examples_sorted)
                        end)
              [] (l_python_tests ls) with
      | inl e => inl e
      | inr python_examples_sorted =>
          inr (Some (examples_sorted ++ merge_sort String.le python_examples_sorted))
      end
    else inr (Some examples_sorted).

(** What holds of the three lists at every point of the parsing. *)
Definition catalogued (b : Build) (ls : example_lists) : Prop :=
  Forall2 (λ x original,
             (∃ directory, ee_name x = os_path_join directory original)
             ∧ (∃ t : tier, ee_fullness x = tier_name t)
             ∧ ∃ program, path_exists b program = true
                          ∧ String.prefix program (ee_path x) = true)
    (l_example_tests ls) (l_example_names_original ls)
  ∧ Forall (λ x, ∃ program, path_exists b program = true
                            ∧ String.prefix program (pe_path x) = true)
      (l_python_tests ls).

(** The tuples that the parser accepts: three fields, or four with a
    fullness that is a tier name once in upper case; for a Python example
    two or three fields. *)
Definition cpp_tuple_ok (b : Build) (cpp_example : list string) : Prop :=
  length cpp_example = 3%nat
  ∨ (length cpp_example = 4%nat
     ∧ ∃ t : tier, str_upper b <$> cpp_example !! 3%nat = Some (tier_name t)).

Definition python_tuple_ok (python_example : list string) : Prop :=
  length python_example = 2%nat ∨ length python_example = 3%nat.

(** ** Sample inputs for the catalog *)

(** A runner that lists three suites, one of them a performance test. *)
Definition stdout_sample (cmd : string) : string :=
  if str_in "--test-type=performance" cmd then "perf-suite" +:+ NL
  else "wifi-phy" +:+ NL +:+ "routing-click" +:+ NL +:+ "perf-suite" +:+ NL.

(** A pattern without wildcards matches the name that is equal to it. *)
Definition fnmatch_exact (name pattern : string) : bool := String.eqb name pattern.

(** A build with one examples directory whose file names one C++ example
    with arguments and one Python example. *)
Definition build_sample : Build := {|
  APPNAME := "ns";
  VERSION := "3-dev";
  BUILD_PROFILE_SUFFIX := "-debug";
  path_exists := λ path,
    bool_decide (path ∈ [ "examples/tutorial/examples-to-run.py";
                          "/ns-3-dev/build/examples/tutorial/ns3-dev-first-debug";
                          "examples/tutorial/first.py" ]);
  get_list_from_file := λ path name,
    if String.eqb name "cpp_examples"
    then [ ["first --verbose"; "True"; "True"; "extensive"] ]
    else [ ["first.py"; "True"] ];
  str_upper := upper;
  relpath := λ path start, "examples/tutorial";
  script_parent := "/home";
  EXAMPLE_DIRECTORIES := ["tutorial"];
  NS3_ENABLED_MODULES := [];
  NS3_ENABLED_CONTRIBUTED_MODULES := []
|}.

Definition lists_sample : example_lists := {|
  l_example_tests :=
    [ mkExample "examples/tutorial/first --verbose"
        "/ns-3-dev/build/examples/tutorial/ns3-dev-first-debug --verbose"
        "True" "True" "EXTENSIVE" ];
  l_example_names_original := ["first --verbose"];
  l_python_tests := [ mkPython "examples/tutorial/first.py" "True" "QUICK" ]
|}.

(** A build whose examples-to-run file has a C++ tuple of two fields, for a
    program that was not built. *)
Definition build_malformed : Build := {|
  APPNAME := "ns";
  VERSION := "3-dev";
  BUILD_PROFILE_SUFFIX := "-debug";
  path_exists := λ path, bool_decide (path = "examples/tutorial/examples-to-run.py");
  get_list_from_file := λ path name,
    if String.eqb name "cpp_examples" then [ ["second"; "True"] ] else [];
  str_upper := upper;
  relpath := λ path start, "examples/tutorial";
  script_parent := "/home";
  EXAMPLE_DIRECTORIES := ["tutorial"];
  NS3_ENABLED_MODULES := [];
  NS3_ENABLED_CONTRIBUTED_MODULES := []
|}.

(** The programs of a build with two examples, and a request for one that
    the examples-to-run files do not list, with an argument. *)
Definition programs_sample : list string :=
  [ "/ns-3-dev/build/examples/tutorial/ns3-dev-first-debug";
    "/ns-3-dev/build/examples/tutorial/ns3-dev-second-debug" ].

Definition requested_second : example_entry :=
  mkExample "second" "/ns-3-dev/build/examples/tutorial/ns3-dev-second-debug"
    "True" "True" "QUICK".

(** A schedule that runs the one Python example named on the command line,
    under valgrind. *)
Definition args_valgrind_pyexample : Args := {|
  args_valgrind := true; args_rerun_failed := false; args_fullness := "QUICK";
  args_multiple := false; args_update_data := false; args_suite := "";
  args_example := ""; args_pyexample := "examples/tutorial/first.py";
  args_constrain := ""; args_buildpath := ""
|}.

Definition launch_one : list event := [ Put; Get 0; Examine 0; Launch 0 ]%nat.

(** An environment in which [PYTHONPATH] is set and the library search path
    is not. *)
Definition environ_sample : gmap string string :=
  {[ "PYTHONPATH" := "/usr/lib/python3"; "HOME" := "/home/user" ]}.

(** The job a worker is about to start: it has made the tests on the job
    and has not yet started the subprocess. *)
Definition launching (w : worker) : list item :=
  match w with
  | Launching it => [it]
  | _ => []
  end.

(** The return code and the time that the first [Finish] of worker [w] in a
    schedule brings. *)
Fixpoint first_finish (w : nat) (es : list event) : option (Z * string) :=
  match es with
  | [] => None
  | Finish w' rc et :: es' =>
      if decide (w' = w) then Some (rc, et) else first_finish w es'
  | _ :: es' => first_finish w es'
  end.

(** Lines 2154-2165: the lists of names as the summary prints them; each is
    sorted in place before it is printed. *)
Definition summary (t : tally) : tally :=
  mkTally (passed_tests t) (failed_tests t) (crashed_tests t) (valgrind_errors t)
    (skipped_tests t)
    (merge_sort String.le (skipped_testnames t))
    (merge_sort String.le (failed_testnames t))
    (merge_sort String.le (crashed_testnames t))
    (merge_sort String.le (valgrind_testnames t))
    (failed_jobs t) (xml_results t).

(** An output directory in which the document of the suite is there but is
    not UTF-8 text. *)
Definition undecodable_document : gmap string file :=
  {[ tmp_file_name suite_returned_1 := mkFile None None ]}.

(** Whether the fullness gate takes an example whose tier is written
    [fullness] to be above the tier asked for: with [QUICK] asked for,
    everything not written [QUICK]; with [EXTENSIVE], everything written
    neither [EXTENSIVE] nor [QUICK]; with [TAKES_FOREVER], nothing. *)
Definition above (requested : tier) (fullness : string) : bool :=
  match requested with
  | Quick => negb (bool_decide (fullness = "QUICK"))
  | Extensive =>
      negb (bool_decide (fullness = "EXTENSIVE")) && negb (bool_decide (fullness = "QUICK"))
  | TakesForever => false
  end.

(** [--fullness EXTENSIVE]. *)
Definition args_extensive : Args := {|
  args_valgrind := false; args_rerun_failed := false; args_fullness := "EXTENSIVE";
  args_multiple := false; args_update_data := false; args_suite := "";
  args_example := ""; args_pyexample := ""; args_constrain := "";
  args_buildpath := ""
|}.

(** A build whose examples-to-run file gives the tier of a C++ example and
    of a Python example in lower case. *)
Definition build_lower_case : Build := {|
  APPNAME := "ns";
  VERSION := "3-dev";
  BUILD_PROFILE_SUFFIX := "-debug";
  path_exists := λ path,
    bool_decide (path ∈ [ "examples/tutorial/examples-to-run.py";
                          "/ns-3-dev/build/examples/tutorial/ns3-dev-first-debug";
                          "examples/tutorial/first.py" ]);
  get_list_from_file := λ path name,
    if String.eqb name "cpp_examples"
    then [ ["first"; "True"; "True"; "extensive"] ]
    else [ ["first.py"; "True"; "extensive"] ];
  str_upper := upper;
  relpath := λ path start, "examples/tutorial";
  script_parent := "/home";
  EXAMPLE_DIRECTORIES := ["tutorial"];
  NS3_ENABLED_MODULES := [];
  NS3_ENABLED_CONTRIBUTED_MODULES := []
|}.

(** The entries that the parser makes of them, and the tests that the
    example loops of [run_tests] see: both programs are runnable and their
    conditions evaluate to [True]. *)
Definition lower_case_cpp_entry : example_entry :=
  mkExample "examples/tutorial/first"
    "/ns-3-dev/build/examples/tutorial/ns3-dev-first-debug" "True" "True" "EXTENSIVE".

Definition lower_case_python_entry : python_entry :=
  mkPython "examples/tutorial/first.py" "True" "extensive".

Definition lower_case_cpp_test : example_test := {|
  ex_name := ee_name lower_case_cpp_entry; ex_test := ee_path lower_case_cpp_entry;
  ex_runnable := true; ex_do_run := true; ex_do_valgrind_run := true;
  ex_fullness := ee_fullness lower_case_cpp_entry
|}.

Definition lower_case_python_test : python_test := {|
  py_test := pe_path lower_case_python_entry;
  py_runnable := true; py_do_run := true;
  py_fullness := pe_fullness lower_case_python_entry
|}.

(** * Properties *)

(** ** Classification and exit code *)

Lemma classify_status (job : Job) (t : tally) :
  (classify job t).1 =
    if is_skip job then SKIP
    else if returncode job =? 0 then PASS
    else if returncode job =? 1 then FAIL
    else if returncode job =? 2 then VALGR
    else CRASH.
Proof.
  unfold classify. destruct (is_skip job); [done|].
  repeat case_match; done.
Qed.

Lemma classify_counter (job : Job) (t : tally) :
  counter (classify job t).1 (classify job t).2 = S (counter (classify job t).1 t).
Proof.
  unfold classify. destruct (is_skip job); [done|].
  repeat case_match; done.
Qed.

Lemma classify_counted (job : Job) (t : tally) :
  counted (classify job t).2 = S (counted t).
Proof.
  unfold classify, counted. destruct (is_skip job); [simpl; lia|].
  repeat case_match; simpl; lia.
Qed.

(** C3: a job that was executed is classified by its return code alone:
    0 is PASS, 1 is FAIL, 2 is VALGR (the leak-check error), anything else,
    such as 139, is CRASH; and the counter of that status goes up by one. *)
Theorem exit_code_classification (job : Job) (t : tally) :
  is_skip job = false →
  (returncode job = 0 → (classify job t).1 = PASS) ∧
  (returncode job = 1 → (classify job t).1 = FAIL) ∧
  (returncode job = 2 → (classify job t).1 = VALGR) ∧
  (returncode job ≠ 0 → returncode job ≠ 1 → returncode job ≠ 2 →
   (classify job t).1 = CRASH) ∧
  counter (classify job t).1 (classify job t).2 = S (counter (classify job t).1 t).
Proof.
  intros Hskip. pose proof (classify_status job t) as E. rewrite Hskip in E.
  repeat split.
  - intros H. rewrite E, H. done.
  - intros H. rewrite E, H. done.
  - intros H. rewrite E, H. done.
  - intros H0 H1 H2. rewrite E.
    destruct (Z.eqb_spec (returncode job) 0); [done|].
    destruct (Z.eqb_spec (returncode job) 1); [done|].
    destruct (Z.eqb_spec (returncode job) 2); done.
  - apply classify_counter.
Qed.

Lemma exit_code_classification_witness :
  (classify (set_returncode 139 Job_init) tally_init).1 = CRASH.
Proof.
  destruct (exit_code_classification (set_returncode 139 Job_init) tally_init)
    as (_ & _ & _ & H & _).
  - reflexivity.
  - apply H; simpl; lia.
Defined.

(** C8: the value returned to [sys.exit] is 0 exactly when the number of
    dispatched jobs equals passed plus skipped, and 1 otherwise. *)
Theorem exit_code_zero_iff (total_tests : nat) (t : tally) :
  (exit_code total_tests t = 0 ↔ total_tests = (passed_tests t + skipped_tests t)%nat) ∧
  (total_tests ≠ (passed_tests t + skipped_tests t)%nat → exit_code total_tests t = 1).
Proof.
  unfold exit_code.
  destruct (Nat.eqb_spec (passed_tests t + skipped_tests t) total_tests) as [E|E].
  - split; [split; [intros _; lia | done] | intros H; lia].
  - split; [split; [done | intros H; lia] | done].
Qed.

Lemma classify_valgr (job : Job) (t : tally) :
  is_skip job = false → returncode job = 2 →
  classify job t =
    (VALGR,
     mkTally (passed_tests t) (failed_tests t) (crashed_tests t)
       (S (valgrind_errors t)) (skipped_tests t) (skipped_testnames t)
       (failed_testnames t) (crashed_testnames t)
       (valgrind_testnames t ++ [display_name job]) (failed_jobs t ++ [job])
       (xml_results t)).
Proof. intros Hs Hr. unfold classify. rewrite Hs, Hr. reflexivity. Qed.

(** C10: the leak-check wrapper plays no part in the classification.  When
    the run is not under valgrind, a worker whose subprocess ends with code
    2 hands back a job that the collector counts and reports as VALGR, and
    any other executed job with the same return code gets the same
    status. *)
Theorem valgr_without_valgrind (args : Args) (env : Env) (s : sys)
    (w ref : nat) (job : Job) (cmd et : string) (fs : gmap string file) (t : tally) :
  args_valgrind args = false →
  is_break job = false →
  is_skip job = false →
  threads s !! w = Some (Running (ref, job) cmd) →
  ∃ s' job',
    do_event args env (Finish w 2 et) s = Some s' ∧
    output_queue s' = output_queue s ++ [(ref, job')] ∧
    (classify job' t).1 = VALGR ∧
    valgrind_errors (classify job' t).2 = S (valgrind_errors t) ∧
    crashed_tests (classify job' t).2 = crashed_tests t ∧
    (is_example job = true →
     collect_job fs job' t = inr (write (example_record VALGR job') (classify job' t).2)) ∧
    (∀ other t', is_skip other = false → returncode other = returncode job' →
                 (classify other t').1 = (classify job' t).1).
Proof.
  intros _ Hb Hs Hw.
  exists (finish w (ref, job) 2 et s), (set_elapsed_time et (set_returncode 2 job)).
  split; [simpl; rewrite Hw; done|].
  split; [done|].
  rewrite (classify_valgr _ t) by done. simpl.
  split_and!; try done.
  - intros Hex. unfold collect_job. simpl. rewrite Hb.
    rewrite (classify_valgr _ t) by done. rewrite Hex. done.
  - intros other t' Hso Hro. rewrite classify_status, Hso, Hro. done.
Qed.

Lemma valgr_without_valgrind_witness :
  ∃ s' job',
    do_event args_default env_sample (Finish 0 2 "0.100")
      (mkSys [] [] [] false [Running (0%nat, Job_init) "first"] []) = Some s' ∧
    output_queue s' = [(0%nat, job')] ∧
    (classify job' tally_init).1 = VALGR.
Proof.
  destruct (valgr_without_valgrind args_default env_sample
              (mkSys [] [] [] false [Running (0%nat, Job_init) "first"] [])
              0 0 Job_init "first" "0.100" ∅ tally_init)
    as (s' & job' & H1 & H2 & H3 & _); try reflexivity.
  exists s', job'. repeat split; assumption.
Defined.

(** ** The fullness gate *)

Lemma is_skip_skip (reason : string) (job : Job) : is_skip (skip reason job) = true.
Proof. reflexivity. Qed.

Lemma fullness_gate_tiers (args : Args) (requested entry : tier) (job : Job) :
  args_fullness args = tier_name requested →
  fullness_gate args (tier_name entry) job =
    if decide (tier_rank requested < tier_rank entry)%nat then
      skip ("skip " +:+ tier_name entry +:+ " examples when "
            +:+ tier_name requested +:+ " run selected") job
    else job.
Proof.
  intros H. unfold fullness_gate. rewrite H.
  destruct requested, entry; reflexivity.
Qed.

(** X25: the fullness gate with tier [requested] asked for.  It makes a job
    a skip exactly when the tier of the example, as a string, is taken to be
    above [requested], with a reason that names both, and leaves every
    other job as the earlier gates made it.  For a tier written as one of
    the three names this is the order Quick < Extensive < TakesForever.  So
    an example is skipped when the earlier gates skipped it or its tier is
    above the requested one, and is run otherwise; this is so for C++ and
    for Python examples. *)
Theorem fullness_inclusion (args : Args) (env : Env) (prev : skip_lists)
    (requested : tier) (job : Job) (x : example_test) (y : python_test) :
  args_fullness args = tier_name requested →
  let reason fullness :=
    "skip " +:+ fullness +:+ " examples when " +:+ tier_name requested
    +:+ " run selected" in
  (∀ entry : tier,
     above requested (tier_name entry)
     = bool_decide (tier_rank requested < tier_rank entry)%nat) ∧
  (∀ fullness,
     above requested fullness = false → fullness_gate args fullness job = job) ∧
  (∀ fullness,
     above requested fullness = true →
     fullness_gate args fullness job = skip (reason fullness) job ∧
     is_skip (fullness_gate args fullness job) = true ∧
     skip_reason (fullness_gate args fullness job) = reason fullness) ∧
  is_skip (example_job args env prev x) =
    (args_valgrind args && negb (ex_do_valgrind_run x))
    || (args_rerun_failed args && bool_decide (Some (ex_name x) ∈ skip_example prev))
    || above requested (ex_fullness x) ∧
  (above requested (ex_fullness x) = true →
   skip_reason (example_job args env prev x) = reason (ex_fullness x)) ∧
  is_skip (pyexample_job args env y) =
    args_valgrind args || negb (ENABLE_PYTHON_BINDINGS env)
    || above requested (py_fullness y) ∧
  (above requested (py_fullness y) = true →
   skip_reason (pyexample_job args env y) = reason (py_fullness y)).
Proof.
  intros Hreq reason.
  assert (∀ fullness j,
            fullness_gate args fullness j
            = if above requested fullness then skip (reason fullness) j else j) as G.
  { intros fullness j. unfold fullness_gate, above, reason. rewrite Hreq.
    destruct requested; simpl;
      destruct (bool_decide (fullness = "QUICK"));
      destruct (bool_decide (fullness = "EXTENSIVE")); reflexivity. }
  split_and!.
  - intros entry. destruct requested, entry; reflexivity.
  - intros fullness H. by rewrite G, H.
  - intros fullness H. rewrite G, H. done.
  - unfold example_job. rewrite G.
    destruct (above requested (ex_fullness x)).
    + by rewrite is_skip_skip, orb_true_r.
    + rewrite orb_false_r.
      destruct (args_valgrind args && negb (ex_do_valgrind_run x));
        destruct (args_rerun_failed args && bool_decide _); reflexivity.
  - intros H. unfold example_job. rewrite G, H. reflexivity.
  - unfold pyexample_job. rewrite G.
    destruct (above requested (py_fullness y)).
    + by rewrite is_skip_skip, orb_true_r.
    + rewrite orb_false_r.
      destruct (args_valgrind args), (ENABLE_PYTHON_BINDINGS env); reflexivity.
  - intros H. unfold pyexample_job. rewrite G, H. reflexivity.
Qed.

Lemma fullness_inclusion_witness :
  fullness_gate args_default "EXTENSIVE" Job_init =
    skip "skip EXTENSIVE examples when QUICK run selected" Job_init ∧
  is_skip (example_job args_default env_sample no_previous extensive_example) = true ∧
  skip_reason (example_job args_default env_sample no_previous extensive_example)
  = "skip EXTENSIVE examples when QUICK run selected".
Proof.
  destruct (fullness_inclusion args_default env_sample no_previous Quick
              Job_init extensive_example extensive_python eq_refl)
    as (_ & _ & H2 & H3 & H4 & _).
  split; [|split].
  - apply (H2 "EXTENSIVE"). reflexivity.
  - rewrite H3. reflexivity.
  - apply H4. reflexivity.
Defined.

(** C7: the tier of a Python example is compared as the examples-to-run
    file writes it.  The file gives the tier [extensive] in lower case to a
    C++ example and to a Python example.  The parser puts the tier of the
    C++ example in upper case (line 181) and keeps that of the Python
    example as written (line 253).  With [--fullness EXTENSIVE] the C++
    example is run, and the Python example is skipped though its tier is
    the one asked for. *)
Theorem python_tier_compared_as_written :
  collect_examples build_lower_case env_sample
  = inr (mkLists [lower_case_cpp_entry] ["first"] [lower_case_python_entry]) ∧
  ex_fullness lower_case_cpp_test = "EXTENSIVE" ∧
  py_fullness lower_case_python_test = "extensive" ∧
  upper (py_fullness lower_case_python_test) = tier_name Extensive ∧
  is_skip (example_job args_extensive env_sample no_previous lower_case_cpp_test) = false ∧
  is_skip (pyexample_job args_extensive env_sample lower_case_python_test) = true ∧
  skip_reason (pyexample_job args_extensive env_sample lower_case_python_test)
  = "skip extensive examples when EXTENSIVE run selected".
Proof.
  split; [vm_compute; reflexivity|]. repeat split.
Qed.

(** ** Suites whose result document is missing or malformed *)

(** The status that goes with return codes 0, 1 and 2. *)
Lemma classify_012 (job : Job) (t : tally) :
  is_skip job = false →
  returncode job = 0 ∨ returncode job = 1 ∨ returncode job = 2 →
  (classify job t).1 ≠ CRASH ∧
  crashed_tests (classify job t).2 = crashed_tests t ∧
  xml_results (classify job t).2 = xml_results t.
Proof.
  intros Hs Hr. unfold classify. rewrite Hs.
  destruct Hr as [-> | [-> | ->]]; simpl; done.
Qed.

(** C4, as the code has it: a suite whose subprocess ended with 0, 1 or 2
    and whose result document is there and can be read as UTF-8 text, but
    does not parse, is not recorded as CRASH.  The collector does not
    raise; it copies the text of the document into the results file (with
    the result tag replaced for code 2), counts the job under the status of
    its return code, keeps it in [failed_jobs], and goes on with the next
    job. *)
Theorem malformed_document_counted_by_code (fs : gmap string file) (job : Job)
    (f : file) (text : string) (rest : list Job) (t : tally) :
  is_break job = false →
  is_skip job = false →
  is_example job = false →
  is_pyexample job = false →
  returncode job = 0 ∨ returncode job = 1 ∨ returncode job = 2 →
  fs !! tmp_file_name job = Some f →
  contents f = Some text →
  etree f = None →
  ∃ t',
    collect_job fs job t = inr t' ∧
    collect fs (job :: rest) t = collect fs rest t' ∧
    (classify job t).1 ≠ CRASH ∧
    counter (classify job t).1 t' = S (counter (classify job t).1 t) ∧
    crashed_tests t' = crashed_tests t ∧
    xml_results t' =
      xml_results t ++
        [if decide (returncode job = 2) then splice_valgr text else text] ∧
    last (failed_jobs t') = Some job.
Proof.
  intros Hb Hs Hex Hpy Hrc Hf Htext Hparse.
  assert (document_passed f = false) as Hdoc by (unfold document_passed; by rewrite Hparse).
  assert ((returncode job =? 0) || (returncode job =? 1) || (returncode job =? 2) = true)
    as Hrcb by (destruct Hrc as [-> | [-> | ->]]; done).
  pose proof (classify_012 job t Hs Hrc) as (Hst & Hcr & Hxml).
  pose proof (classify_counter job t) as Hcnt.
  pose proof (classify_status job t) as Hstat. rewrite Hs in Hstat.
  unfold collect. unfold collect_job. rewrite Hb.
  destruct (classify job t) as [st t1] eqn:Hcl. simpl in *.
  rewrite Hex, Hpy, Hs, Hrcb, Hf, Htext, Hdoc. simpl.
  eexists. split; [reflexivity|]. split; [reflexivity|].
  split; [done|]. simpl.
  split; [by destruct st|].
  split; [done|].
  split.
  - rewrite Hxml. f_equal. f_equal.
    destruct Hrc as [Hr | [Hr | Hr]]; rewrite Hr in Hstat |- *; subst st; done.
  - by rewrite last_snoc.
Qed.

Lemma malformed_document_counted_by_code_witness :
  ∃ t',
    collect_job empty_document suite_returned_0 tally_init = inr t' ∧
    passed_tests t' = 1%nat ∧ crashed_tests t' = 0%nat ∧ xml_results t' = [""].
Proof.
  destruct (malformed_document_counted_by_code empty_document suite_returned_0
              (mkFile (Some "") None) "" [] tally_init)
    as (t' & H1 & _ & _ & H4 & H5 & H6 & _); try reflexivity.
  - left. reflexivity.
  - exists t'. repeat split; assumption.
Defined.

(** C4 as stated fails: the suite ended with code 0, its document is empty,
    and the job is counted as passed; no CRASH is counted or written. *)
Lemma malformed_document_not_crash :
  is_example suite_returned_0 = false ∧
  is_pyexample suite_returned_0 = false ∧
  is_skip suite_returned_0 = false ∧
  returncode suite_returned_0 = 0 ∧
  (∃ f, empty_document !! tmp_file_name suite_returned_0 = Some f ∧
        contents f = Some "" ∧ etree f = None) ∧
  ∃ t,
    collect_job empty_document suite_returned_0 tally_init = inr t ∧
    (classify suite_returned_0 tally_init).1 = PASS ∧
    passed_tests t = 1%nat ∧
    crashed_tests t = 0%nat ∧
    crashed_testnames t = [] ∧
    xml_results t = [""].
Proof.
  repeat split.
  - eexists. repeat split; reflexivity.
  - eexists. repeat split; vm_compute; reflexivity.
Qed.

(** When the document is not there at all, opening it raises and the loop
    is left with the exception. *)
Lemma missing_document_raises (fs : gmap string file) (job : Job)
    (rest : list Job) (t : tally) :
  is_break job = false →
  is_skip job = false →
  is_example job = false →
  is_pyexample job = false →
  returncode job = 0 ∨ returncode job = 1 ∨ returncode job = 2 →
  fs !! tmp_file_name job = None →
  collect fs (job :: rest) t = inl (FileNotFoundError (tmp_file_name job)).
Proof.
  intros Hb Hs Hex Hpy Hrc Hf.
  assert ((returncode job =? 0) || (returncode job =? 1) || (returncode job =? 2) = true)
    as Hrcb by (destruct Hrc as [-> | [-> | ->]]; done).
  unfold collect, collect_job. rewrite Hb.
  destruct (classify job t) as [st t1].
  by rewrite Hex, Hpy, Hs, Hrcb, Hf.
Qed.

(** When the document is there but its bytes are not UTF-8, reading it
    raises, outside the [try] as well. *)
Lemma undecodable_document_raises (fs : gmap string file) (job : Job) (f : file)
    (rest : list Job) (t : tally) :
  is_break job = false →
  is_skip job = false →
  is_example job = false →
  is_pyexample job = false →
  returncode job = 0 ∨ returncode job = 1 ∨ returncode job = 2 →
  fs !! tmp_file_name job = Some f →
  contents f = None →
  collect fs (job :: rest) t = inl (UnicodeDecodeError (tmp_file_name job)).
Proof.
  intros Hb Hs Hex Hpy Hrc Hf Htext.
  assert ((returncode job =? 0) || (returncode job =? 1) || (returncode job =? 2) = true)
    as Hrcb by (destruct Hrc as [-> | [-> | ->]]; done).
  unfold collect, collect_job. rewrite Hb.
  destruct (classify job t) as [st t1].
  by rewrite Hex, Hpy, Hs, Hrcb, Hf, Htext.
Qed.

(** ** The rerun filter *)

Lemma mapM_elem_of {A B} (f : A → option B) (l : list A) (k : list B) (y : B) :
  mapM f l = Some k → (y ∈ k ↔ ∃ x, x ∈ l ∧ f x = Some y).
Proof.
  intros H. apply mapM_Some_1 in H.
  induction H as [|x z l k Hxz _ IH].
  - split; [by intros ?%elem_of_nil | by intros (? & ?%elem_of_nil & _)].
  - rewrite elem_of_cons, IH. split.
    + intros [-> | (x' & ? & ?)]; [exists x | exists x']; rewrite elem_of_cons; auto.
    + intros (x' & [-> | ?]%elem_of_cons & Hx'); [left; congruence | right; eauto].
Qed.

Lemma record_ok_name_and_result (x : Element) :
  record_ok x → is_Some (name_and_result x).
Proof.
  intros [[n Hn] [r Hr]]. unfold name_and_result. rewrite Hn, Hr. eauto.
Qed.

Lemma record_ok_truthy (x : Element) : record_ok x → truthy (Some x) = true.
Proof.
  intros [[n Hn] _]. destruct x as [t tx [|c cs]]; [|done].
  unfold find, findall in Hn. simpl in Hn. done.
Qed.

(** What the filter keeps of one kind of record, when every record of that
    kind has a name and a result. *)
Lemma previously_successful_spec (root : Element) (test_type : string) :
  Forall record_ok (findall root test_type) →
  ∃ l, previously_successful root test_type = Some l ∧
       ∀ n, n ∈ l ↔
            ∃ r, recorded root test_type n r ∧ r ∈ [Some "PASS"; Some "SKIP"].
Proof.
  intros Hok. unfold previously_successful.
  assert (is_Some (mapM name_and_result (findall root test_type))) as [temp Htemp].
  { apply mapM_is_Some. eapply Forall_impl; [exact Hok|].
    intros x. apply record_ok_name_and_result. }
  destruct (truthy (find root test_type)) eqn:Htr.
  - rewrite Htemp. simpl. eexists. split; [reflexivity|].
    intros n. rewrite list_elem_of_fmap. split.
    + intros ([n' r] & -> & [Hr Hin]%list_elem_of_filter). simpl in *.
      apply (mapM_elem_of _ _ _ _ Htemp) in Hin as (x & Hx & Hnr).
      exists r. split; [exists x; done | done].
    + intros (r & (x & Hx & Hnr) & Hr). exists (n, r). split; [done|].
      apply list_elem_of_filter. split; [done|].
      apply (mapM_elem_of _ _ _ _ Htemp). eauto.
  - assert (findall root test_type = []) as Hnil.
    { unfold find in Htr. destruct (findall root test_type) as [|x l]; [done|].
      apply Forall_cons_1 in Hok as [Hx _]. apply record_ok_truthy in Hx.
      change (truthy (Some x) = false) in Htr. congruence. }
    exists []. split; [done|]. intros n. split; [by intros ?%elem_of_nil|].
    intros (r & (x & Hx & _) & _). rewrite Hnil in Hx. by apply elem_of_nil in Hx.
Qed.

(** The test of line 1196 is on the first record of a kind: when that one
    has no children, nothing of the kind is kept. *)
Lemma first_record_decides :
  previously_successful
    (mkElement "Results" None [ mkElement "Test" None []; report_record "Test" "A" "PASS" ])
    "Test" = Some [].
Proof. reflexivity. Qed.

Lemma load_latest_report (dir : gmap string file) (root : Element) :
  latest_report dir = Some root →
  load_previously_successful_tests dir =
    match previously_successful root "Test" with
    | None => Raise AttributeError
    | Some tests =>
        match previously_successful root "Example" with
        | None => Raise AttributeError
        | Some examples => Return (mkSkipLists tests examples)
        end
    end.
Proof.
  unfold latest_report, load_previously_successful_tests, load_from.
  destruct (sorted_desc (glob_results dir)) as [|latest l]; [done|]. simpl.
  destruct (dir !! latest) as [f|]; [|done]. simpl.
  intros ->. done.
Qed.

(** C6, as the code has it.  From a report whose records all carry a name
    and a result the filter returns, for suites and for examples
    separately, exactly the names recorded with PASS or SKIP.  A suite
    whose name is in the list of suites, and a C++ example whose name is in
    the list of examples, becomes a skip with the reason "didn't fail in
    the previous run" (for an example, unless the fullness gate then puts
    its own reason); a suite or C++ example whose name is not in its list
    is built as it would be without the filter. *)
Theorem rerun_filter_by_kind (args : Args) (env : Env) (dir : gmap string file)
    (root : Element) (test : string) (x : example_test) :
  latest_report dir = Some root →
  well_formed_report root →
  args_rerun_failed args = true →
  ∃ prev,
    load_previously_successful_tests dir = Return prev ∧
    (∀ n, n ∈ skip_test prev ↔
          ∃ r, recorded root "Test" n r ∧ r ∈ [Some "PASS"; Some "SKIP"]) ∧
    (∀ n, n ∈ skip_example prev ↔
          ∃ r, recorded root "Example" n r ∧ r ∈ [Some "PASS"; Some "SKIP"]) ∧
    (Some test ∈ skip_test prev →
       is_skip (suite_job args env prev test) = true ∧
       skip_reason (suite_job args env prev test) = "didn't fail in the previous run") ∧
    (Some test ∉ skip_test prev →
       suite_job args env prev test = suite_job args env no_previous test) ∧
    (Some (ex_name x) ∈ skip_example prev →
       is_skip (example_job args env prev x) = true ∧
       skip_reason (example_job args env prev x) =
         if bool_decide (args_fullness args = "QUICK" ∧ ex_fullness x ≠ "QUICK") then
           "skip " +:+ ex_fullness x +:+ " examples when QUICK run selected"
         else if bool_decide (args_fullness args = "EXTENSIVE"
                              ∧ ex_fullness x ≠ "EXTENSIVE" ∧ ex_fullness x ≠ "QUICK") then
           "skip " +:+ ex_fullness x +:+ " examples when EXTENSIVE run selected"
         else "didn't fail in the previous run") ∧
    (Some (ex_name x) ∉ skip_example prev →
       example_job args env prev x = example_job args env no_previous x).
Proof.
  intros Hlatest [Htests Hexamples] Hrerun.
  destruct (previously_successful_spec root "Test" Htests) as (tests & Ht & Htspec).
  destruct (previously_successful_spec root "Example" Hexamples) as (exs & He & Hespec).
  exists (mkSkipLists tests exs).
  split; [by rewrite (load_latest_report dir root Hlatest), Ht, He|].
  split; [done|]. split; [done|].
  assert (∀ y : option string, bool_decide (y ∈ skip_test no_previous) = false) as Hno1
    by (intros y; apply bool_decide_false; by intros ?%elem_of_nil).
  assert (∀ y : option string, bool_decide (y ∈ skip_example no_previous) = false) as Hno2
    by (intros y; apply bool_decide_false; by intros ?%elem_of_nil).
  change (skip_test (mkSkipLists tests exs)) with tests.
  change (skip_example (mkSkipLists tests exs)) with exs.
  split_and!.
  - intros Hin. unfold suite_job. cbv zeta. rewrite Hrerun.
    change (skip_test (mkSkipLists tests exs)) with tests.
    rewrite (bool_decide_true (Some test ∈ tests)) by done. done.
  - intros Hnin. unfold suite_job. cbv zeta. rewrite Hrerun, Hno1.
    change (skip_test (mkSkipLists tests exs)) with tests.
    rewrite (bool_decide_false (Some test ∈ tests)) by done. done.
  - intros Hin. unfold example_job. cbv zeta. rewrite Hrerun.
    change (skip_example (mkSkipLists tests exs)) with exs.
    rewrite (bool_decide_true (Some (ex_name x) ∈ exs)) by done.
    change (true && true) with true. cbv iota. split.
    + unfold fullness_gate. repeat case_match; done.
    + unfold fullness_gate.
      destruct (decide (args_fullness args = "QUICK")) as [Hq|Hq];
        destruct (decide (args_fullness args = "EXTENSIVE")) as [He'|He'];
        destruct (decide (ex_fullness x = "QUICK")) as [Hxq|Hxq];
        destruct (decide (ex_fullness x = "EXTENSIVE")) as [Hxe|Hxe];
        rewrite ?(bool_decide_true (args_fullness args = "QUICK")) by done;
        rewrite ?(bool_decide_false (args_fullness args = "QUICK")) by done;
        rewrite ?(bool_decide_true (args_fullness args = "EXTENSIVE")) by done;
        rewrite ?(bool_decide_false (args_fullness args = "EXTENSIVE")) by done;
        rewrite ?(bool_decide_true (ex_fullness x = "QUICK")) by done;
        rewrite ?(bool_decide_false (ex_fullness x = "QUICK")) by done;
        rewrite ?(bool_decide_true (ex_fullness x = "EXTENSIVE")) by done;
        rewrite ?(bool_decide_false (ex_fullness x = "EXTENSIVE")) by done;
        simpl;
        repeat (case_bool_decide; try tauto); try reflexivity; congruence.
  - intros Hnin. unfold example_job. cbv zeta. rewrite Hrerun, Hno2.
    change (skip_example (mkSkipLists tests exs)) with exs.
    rewrite (bool_decide_false (Some (ex_name x) ∈ exs)) by done. done.
Qed.

Lemma well_formed_report_ABC : well_formed_report report_ABC.
Proof.
  split; repeat constructor; eexists; reflexivity.
Defined.

Lemma rerun_filter_by_kind_witness :
  ∃ prev,
    load_previously_successful_tests dir_ABC = Return prev ∧
    is_skip (suite_job args_rerun env_sample prev "A") = true ∧
    suite_job args_rerun env_sample prev "D" = suite_job args_rerun env_sample no_previous "D".
Proof.
  destruct (rerun_filter_by_kind args_rerun env_sample dir_ABC report_ABC "A" example_A)
    as (prev & Hload & _ & _ & Hin & _).
  - reflexivity.
  - exact well_formed_report_ABC.
  - reflexivity.
  - destruct (rerun_filter_by_kind args_rerun env_sample dir_ABC report_ABC "D" example_A)
      as (prev' & Hload' & _ & _ & _ & Hnin & _).
    + reflexivity.
    + exact well_formed_report_ABC.
    + reflexivity.
    + assert (prev = lists_ABC) as -> by (vm_compute in Hload; injection Hload as <-; reflexivity).
      assert (prev' = lists_ABC) as -> by (vm_compute in Hload'; injection Hload' as <-; reflexivity).
      exists lists_ABC. split; [exact Hload|]. split.
      * apply Hin. apply elem_of_cons. left. reflexivity.
      * apply Hnin. intros H. vm_compute in H.
        repeat (apply elem_of_cons in H as [H|H]; [discriminate H|]).
        by apply elem_of_nil in H.
Defined.

(** C6 as stated fails.  With the report of the earlier run in which the
    Python example passed and suite A passed, and with [--rerun-failed]: the
    Python example, whose display name is among the names that passed, is
    not made a skip; and a C++ example named A is not made a skip either,
    since its name is looked up among the examples of the report only. *)
Lemma rerun_filter_misses_entries :
  load_previously_successful_tests dir_ABC = Return lists_ABC ∧
  recorded report_ABC "Example" (Some (py_test python_first)) (Some "PASS") ∧
  display_name (pyexample_job args_rerun env_sample python_first) = py_test python_first ∧
  is_skip (pyexample_job args_rerun env_sample python_first) = false ∧
  recorded report_ABC "Test" (Some (ex_name example_A)) (Some "PASS") ∧
  display_name (example_job args_rerun env_sample lists_ABC example_A) = ex_name example_A ∧
  is_skip (example_job args_rerun env_sample lists_ABC example_A) = false.
Proof.
  split_and!; try reflexivity.
  - exists (report_record "Example" "/ns-3-dev/examples/tutorial/first.py" "PASS").
    split; [vm_compute; repeat constructor | reflexivity].
  - exists (report_record "Test" "A" "PASS").
    split; [vm_compute; repeat constructor | reflexivity].
Qed.

(** ** The order of strings and the newest report *)

Lemma ascii_compare_trans (c : comparison) (x y z : ascii) :
  Ascii.compare x y = c → Ascii.compare y z = c → Ascii.compare x z = c.
Proof.
  unfold Ascii.compare. intros H1 H2.
  destruct c.
  - rewrite N.compare_eq_iff in H1, H2. apply N.compare_eq_iff. congruence.
  - rewrite N.compare_lt_iff in H1, H2. apply N.compare_lt_iff. lia.
  - rewrite N.compare_gt_iff in H1, H2. apply N.compare_gt_iff. lia.
Qed.

Lemma string_compare_gt_trans (x y z : string) :
  String.compare x y = Gt → String.compare y z = Gt → String.compare x z = Gt.
Proof.
  revert y z. induction x as [|a x IH]; intros [|b y] [|c z]; simpl; try done.
  destruct (Ascii.compare a b) eqn:Hab; try done;
    destruct (Ascii.compare b c) eqn:Hbc; try done.
  - apply Ascii.compare_eq_iff in Hab, Hbc. subst.
    rewrite (ascii_compare_trans Eq c c c) by (unfold Ascii.compare; apply N.compare_refl).
    apply IH.
  - apply Ascii.compare_eq_iff in Hab. subst. by rewrite Hbc.
  - apply Ascii.compare_eq_iff in Hbc. subst. by rewrite Hab.
  - by rewrite (ascii_compare_trans Gt a b c).
Qed.

Lemma str_ge_compare (x y : string) :
  str_ge x y ↔ x = y ∨ String.compare x y = Gt.
Proof.
  unfold str_ge, String.ltb. split.
  - destruct (String.compare x y) eqn:H; [|done|auto].
    left. by apply String.compare_eq_iff.
  - intros [-> | ->]; [|done].
    assert (String.compare y y = Eq) as ->; [|done].
    pose proof (String.compare_antisym y y) as H.
    destruct (String.compare y y); done.
Qed.

#[local] Instance str_ge_trans : Transitive str_ge.
Proof.
  intros x y z. rewrite !str_ge_compare.
  intros [-> | H1] [-> | H2]; auto.
  right. by eapply string_compare_gt_trans.
Qed.

#[local] Instance str_ge_antisym : AntiSymm (=) str_ge.
Proof.
  intros x y. rewrite !str_ge_compare.
  intros [H1 | H1] [H2 | H2]; auto.
  rewrite String.compare_antisym, H2 in H1. done.
Qed.

Lemma str_lt_ge (x y : string) : String.ltb x y = true → str_ge y x.
Proof.
  unfold str_ge, String.ltb. rewrite (String.compare_antisym y x).
  destruct (String.compare x y); done.
Qed.

Lemma insert_desc_Permutation (x : string) (l : list string) :
  insert_desc x l ≡ₚ x :: l.
Proof.
  induction l as [|y l IH]; simpl; [done|].
  destruct (String.ltb x y); [|done].
  rewrite IH. apply Permutation_swap.
Qed.

Lemma insert_desc_Sorted (x : string) (l : list string) :
  Sorted str_ge l → Sorted str_ge (insert_desc x l).
Proof.
  induction l as [|y l IH]; simpl; intros Hs.
  - repeat constructor.
  - destruct (String.ltb x y) eqn:Hxy.
    + apply Sorted_inv in Hs as [Hs Hhd]. constructor; [by apply IH|].
      destruct l as [|z l]; simpl.
      * constructor. by apply str_lt_ge.
      * destruct (String.ltb x z); constructor.
        -- by inversion Hhd.
        -- by apply str_lt_ge.
    + constructor; [done|]. constructor. done.
Qed.

Lemma sorted_desc_Permutation (l : list string) : sorted_desc l ≡ₚ l.
Proof.
  induction l as [|x l IH]; simpl; [done|].
  by rewrite insert_desc_Permutation, IH.
Qed.

Lemma sorted_desc_Sorted (l : list string) : Sorted str_ge (sorted_desc l).
Proof.
  induction l as [|x l IH]; simpl; [constructor|]. by apply insert_desc_Sorted.
Qed.

(** The sorted list does not depend on the order in which [glob] lists the
    directory. *)
Lemma sorted_desc_order_irrelevant (l1 l2 : list string) :
  l1 ≡ₚ l2 → sorted_desc l1 = sorted_desc l2.
Proof.
  intros H. apply (Sorted_unique str_ge); try apply sorted_desc_Sorted.
  by rewrite !sorted_desc_Permutation.
Qed.

(** C9: the rerun filter run twice on the same output directory gives the
    same lists both times, whatever the order in which [glob] lists the
    directory each time; the filter leaves the directory as it found it. *)
Theorem rerun_filter_idempotent (dir : gmap string file) (globbed1 globbed2 : list string) :
  globbed1 ≡ₚ glob_results dir →
  globbed2 ≡ₚ glob_results dir →
  (rerun_filter dir globbed1).2 = dir ∧
  (rerun_filter (rerun_filter dir globbed1).2 globbed2).1 = (rerun_filter dir globbed1).1 ∧
  (rerun_filter dir globbed1).1 = load_previously_successful_tests dir.
Proof.
  intros H1 H2. unfold rerun_filter, load_previously_successful_tests, load_from.
  simpl.
  rewrite (sorted_desc_order_irrelevant globbed1 (glob_results dir)) by done.
  rewrite (sorted_desc_order_irrelevant globbed2 (glob_results dir)) by done.
  done.
Qed.

Lemma rerun_filter_idempotent_witness :
  (rerun_filter
     (rerun_filter dir_two
        ["2010-01-12-22-47-50-CUT-results.xml"; "2010-01-13-08-00-00-CUT-results.xml"]).2
     ["2010-01-13-08-00-00-CUT-results.xml"; "2010-01-12-22-47-50-CUT-results.xml"]).1
  = (rerun_filter dir_two
       ["2010-01-12-22-47-50-CUT-results.xml"; "2010-01-13-08-00-00-CUT-results.xml"]).1.
Proof.
  apply (rerun_filter_idempotent dir_two).
  - vm_compute. apply perm_swap.
  - vm_compute. reflexivity.
Defined.

(** ** Runs of the dispatcher and the workers *)

Lemma sum_list_with_insert {A} (f : A → nat) (l : list A) (i : nat) (x y : A) :
  l !! i = Some x →
  (sum_list_with f (<[i:=y]> l) + f x = sum_list_with f l + f y)%nat.
Proof.
  intros H. rewrite <- (take_drop_middle l i x H) at 2.
  rewrite insert_take_drop by (by eapply lookup_lt_Some).
  rewrite !sum_list_with_app. simpl. lia.
Qed.

Lemma bind_insert_perm {A B} (f : A → list B) (l : list A) (i : nat) (x y : A) :
  l !! i = Some x →
  ∃ rest, l ≫= f ≡ₚ f x ++ rest ∧ <[i:=y]> l ≫= f ≡ₚ f y ++ rest.
Proof.
  intros H. exists ((take i l ++ drop (S i) l) ≫= f). split.
  - rewrite <- (take_drop_middle l i x H) at 1.
    rewrite !bind_app, bind_cons. by rewrite Permutation_app_swap_app.
  - rewrite insert_take_drop by (by eapply lookup_lt_Some).
    rewrite !bind_app, bind_cons. by rewrite Permutation_app_swap_app.
Qed.

Lemma bind_held_insert (l : list worker) (i : nat) (x y : worker) :
  l !! i = Some x →
  ∃ rest, l ≫= held ≡ₚ held x ++ rest ∧ <[i:=y]> l ≫= held ≡ₚ held y ++ rest.
Proof.
  intros H. exists ((take i l ++ drop (S i) l) ≫= held). split.
  - rewrite <- (take_drop_middle l i x H) at 1.
    rewrite !bind_app, bind_cons. by rewrite Permutation_app_swap_app.
  - rewrite insert_take_drop by (by eapply lookup_lt_Some).
    rewrite !bind_app, bind_cons. by rewrite Permutation_app_swap_app.
Qed.

Lemma bind_held_exited (l : list worker) :
  Forall (λ w, w = Exited) l → l ≫= held = [].
Proof.
  induction 1 as [|w l -> _ IH]; [done|]. by rewrite bind_cons, IH.
Qed.





Lemma filter_all {A} (P : A → Prop) `{∀ x, Decision (P x)} (l : list A) :
  Forall P l → filter P l = l.
Proof.
  induction 1 as [|x l Hx _ IH]; [done|]. by rewrite filter_cons_True, IH.
Qed.

Lemma filter_none {A} (P : A → Prop) `{∀ x, Decision (P x)} (l : list A) :
  Forall (λ x, ¬ P x) l → filter P l = [].
Proof.
  induction 1 as [|x l Hx _ IH]; [done|]. by rewrite filter_cons_False.
Qed.

Lemma filter_lt_seq (n p : nat) :
  filter (λ r, (r < n)%nat) (seq 0 (n + p)) = seq 0 n.
Proof.
  rewrite seq_app, filter_app. simpl.
  rewrite filter_all, filter_none; [by rewrite app_nil_r| |].
  - apply Forall_forall. intros r [? ?]%elem_of_seq. lia.
  - apply Forall_forall. intros r [? ?]%elem_of_seq. lia.
Qed.

Lemma bind_held_idle (p : nat) : replicate p Idle ≫= held = [].
Proof.
  induction p as [|p IH]; [done|].
  change (replicate (S p) Idle) with (Idle :: replicate p Idle).
  by rewrite bind_cons, IH.
Qed.

Lemma sum_stopping_idle (n p : nat) :
  sum_list_with (stopping n) (replicate p Idle) = 0%nat.
Proof. induction p as [|p IH]; [done|]. simpl. by rewrite IH. Qed.

Lemma filter_refs_cons_sentinel (n r : nat) (l : list nat) :
  (n ≤ r)%nat → filter (λ r, (r < n)%nat) (r :: l) = filter (λ r, (r < n)%nat) l.
Proof. intros H. rewrite filter_cons_False; [done | lia]. Qed.

Section Run.

Context (args : Args) (env : Env) (jobs : list Job) (processors : nat).

(** Jobs built by the dispatcher are not sentinels. *)
Hypothesis jobs_not_break : Forall (λ job, is_break job = false) jobs.

Lemma length_all_jobs : length (all_jobs jobs processors) = (length jobs + processors)%nat.
Proof. unfold all_jobs. by rewrite length_app, length_replicate. Qed.

Lemma all_jobs_lookup_real (r : nat) (job : Job) :
  all_jobs jobs processors !! r = Some job → is_break job = false →
  (r < length jobs)%nat ∧ jobs !! r = Some job.
Proof.
  unfold all_jobs. intros H Hb.
  destruct (decide (r < length jobs)%nat) as [Hlt|Hge].
  - rewrite lookup_app_l in H by done. done.
  - rewrite lookup_app_r in H by lia.
    apply lookup_replicate in H as [-> _]. done.
Qed.

Lemma all_jobs_lookup_sentinel (r : nat) (job : Job) :
  all_jobs jobs processors !! r = Some job → is_break job = true →
  (length jobs ≤ r)%nat.
Proof.
  unfold all_jobs. intros H Hb.
  destruct (decide (r < length jobs)%nat) as [Hlt|Hge]; [|lia].
  rewrite lookup_app_l in H by done.
  eapply Forall_lookup_1 in jobs_not_break; [|exact H]. simpl in *. congruence.
Qed.

Lemma all_items_fst : (all_items jobs processors).*1 = seq 0 (length jobs + processors).
Proof.
  unfold all_items. apply fst_zip. rewrite length_seq, length_all_jobs. lia.
Qed.

Lemma all_items_lookup (i : nat) (it : item) :
  all_items jobs processors !! i = Some it →
  it.1 = i ∧ all_jobs jobs processors !! i = Some it.2.
Proof.
  unfold all_items, zip. intros (r & job & -> & Hr & Hjob)%lookup_zip_with_Some.
  apply lookup_seq in Hr as [-> _]. done.
Qed.

Lemma all_items_ok :
  Forall (λ it : item, all_jobs jobs processors !! it.1 = Some it.2)
    (all_items jobs processors).
Proof.
  apply Forall_lookup. intros i it [Hi Hit]%all_items_lookup. by rewrite Hi.
Qed.

Lemma invariant_start : invariant args env jobs processors (start jobs processors).
Proof.
  split.
  - unfold refs.
    change (pending (start jobs processors)) with (all_items jobs processors).
    change (threads (start jobs processors)) with (replicate processors Idle).
    change (input_queue (start jobs processors)) with (@nil item).
    change (output_queue (start jobs processors)) with (@nil item).
    rewrite bind_held_idle, all_items_fst. rewrite !fmap_nil, !app_nil_r.
    by rewrite filter_lt_seq.
  - change (pending (start jobs processors)) with (all_items jobs processors).
    change (input_queue (start jobs processors)) with (@nil item).
    rewrite app_nil_r. apply all_items_ok.
  - by apply Forall_replicate.
  - constructor.
  - constructor.
  - intros _. constructor.
  - exists []. split; [by rewrite app_nil_l|].
    change (threads (start jobs processors)) with (replicate processors Idle).
    by rewrite sum_stopping_idle.
  - apply length_replicate.
Qed.

Lemma invariant_sigint (s s' : sys) :
  do_event args env Sigint s = Some s' →
  invariant args env jobs processors s → invariant args env jobs processors s'.
Proof.
  simpl. destruct (thread_exit s) eqn:Hte; [done|]. intros [= <-] [].
  split; simpl; try done.
Qed.

Lemma invariant_put (s s' : sys) :
  do_event args env Put s = Some s' →
  invariant args env jobs processors s → invariant args env jobs processors s'.
Proof.
  simpl. destruct (pending s) as [|it rest] eqn:Hp; [done|]. intros [= <-] [].
  split; simpl; try done.
  - rewrite <- inv_refs0. apply filter_Permutation. unfold refs. simpl.
    rewrite Hp, !fmap_app. simpl. solve_Permutation.
  - rewrite Hp in inv_items0. rewrite Forall_app, Forall_cons in inv_items0.
    destruct inv_items0 as ((? & ?) & ?). rewrite !Forall_app, Forall_singleton. done.
  - destruct inv_fifo0 as (consumed & Hc & Hs). exists consumed. split; [|done].
    rewrite <- Hc, Hp, <- !app_assoc. done.
Qed.

Lemma invariant_get (w : nat) (s s' : sys) :
  do_event args env (Get w) s = Some s' →
  invariant args env jobs processors s → invariant args env jobs processors s'.
Proof.
  simpl. destruct (threads s !! w) as [[| | | |]|] eqn:Hw; try done.
  destruct (input_queue s) as [|it q] eqn:Hq; [done|]. intros [= <-] [].
  destruct (bind_held_insert (threads s) w Idle (Holding it) Hw) as (rest & H1 & H2).
  rewrite Hq, Forall_app, Forall_cons in inv_items0.
  destruct inv_items0 as (? & ? & ?).
  split; simpl; try done.
  - rewrite <- inv_refs0. apply filter_Permutation. unfold refs. simpl.
    rewrite Hq, H1, H2. simpl. solve_Permutation.
  - rewrite Forall_app. done.
  - by apply Forall_insert.
  - destruct inv_fifo0 as (consumed & Hc & Hs). exists (consumed ++ [it]). split.
    + rewrite <- Hc, Hq, <- !app_assoc. done.
    + pose proof (sum_list_with_insert (stopping (length jobs)) _ w Idle (Holding it) Hw) as Hsum.
      rewrite filter_app, length_app, <- Hs, (filter_singleton _ it []). simpl in *.
      case_decide; simpl; lia.
  - by rewrite length_insert.
Qed.

Lemma invariant_examine (w : nat) (s s' : sys) :
  do_event args env (Examine w) s = Some s' →
  invariant args env jobs processors s → invariant args env jobs processors s'.
Proof.
  simpl. destruct (threads s !! w) as [[|[ref job]| | |]|] eqn:Hw; try done.
  intros [= <-] [].
  assert (all_jobs jobs processors !! ref = Some job) as Hall
    by (eapply Forall_lookup_1 in inv_workers0; [|exact Hw]; exact inv_workers0).
  destruct inv_fifo0 as (consumed & Hc & Hsum).
  unfold examine. destruct (is_break job) eqn:Hb.
  - pose proof (all_jobs_lookup_sentinel ref job Hall Hb) as Hge.
    destruct (bind_held_insert (threads s) w _ Exited Hw) as (rest & H1 & H2).
    pose proof (sum_list_with_insert (stopping (length jobs)) _ w _ Exited Hw) as Hs.
    split; simpl; try done.
    + rewrite <- inv_refs0. unfold refs. simpl. rewrite H1, H2. simpl.
      rewrite !filter_app. rewrite (filter_refs_cons_sentinel _ ref) by done.
      by rewrite filter_app.
    + by apply Forall_insert.
    + exists consumed. split; [done|]. simpl in Hs.
      rewrite decide_True in Hs by done. lia.
    + by rewrite length_insert.
  - destruct (all_jobs_lookup_real ref job Hall Hb) as [Hlt Hjob].
    destruct (thread_exit s) eqn:Hte; [|destruct (is_skip job) eqn:Hskip].
    + destruct (bind_held_insert (threads s) w _ Idle Hw) as (rest & H1 & H2).
      pose proof (sum_list_with_insert (stopping (length jobs)) _ w _ Idle Hw) as Hs.
      split; simpl; try done.
      * rewrite <- inv_refs0. apply filter_Permutation. unfold refs. simpl.
        rewrite H1, H2, !fmap_app. simpl. solve_Permutation.
      * by apply Forall_insert.
      * rewrite Forall_app, Forall_singleton. split; [done|].
        exists job. split; [done | constructor].
      * rewrite Hte. done.
      * exists consumed. split; [done|]. simpl in Hs.
        rewrite decide_False in Hs by lia. lia.
      * by rewrite length_insert.
    + destruct (bind_held_insert (threads s) w _ Idle Hw) as (rest & H1 & H2).
      pose proof (sum_list_with_insert (stopping (length jobs)) _ w _ Idle Hw) as Hs.
      split; simpl; try done.
      * rewrite <- inv_refs0. apply filter_Permutation. unfold refs. simpl.
        rewrite H1, H2, !fmap_app. simpl. solve_Permutation.
      * by apply Forall_insert.
      * rewrite Forall_app, Forall_singleton. split; [done|].
        exists job. split; [done | by constructor].
      * intros Hq. rewrite Forall_app, Forall_singleton. split; [by apply inv_quiet0 | done].
      * exists consumed. split; [done|]. simpl in Hs.
        rewrite decide_False in Hs by lia. lia.
      * by rewrite length_insert.
    + destruct (bind_held_insert (threads s) w _ (Launching (ref, job)) Hw)
        as (rest & H1 & H2).
      pose proof (sum_list_with_insert (stopping (length jobs)) _ w _
                    (Launching (ref, job)) Hw) as Hs.
      split; simpl; try done.
      * rewrite <- inv_refs0. apply filter_Permutation. unfold refs. simpl.
        rewrite H1, H2. done.
      * by apply Forall_insert.
      * intros _. by apply inv_quiet0.
      * exists consumed. split; [done|]. simpl in Hs.
        rewrite decide_False in Hs by lia. lia.
      * by rewrite length_insert.
Qed.

Lemma invariant_launch (w : nat) (s s' : sys) :
  do_event args env (Launch w) s = Some s' →
  invariant args env jobs processors s → invariant args env jobs processors s'.
Proof.
  simpl. destruct (threads s !! w) as [[| |[ref job]| |]|] eqn:Hw; try done.
  intros [= <-] [].
  assert (worker_ok (all_jobs jobs processors) (Launching (ref, job)))
    as (Hall & Hb & Hskip)
    by (eapply Forall_lookup_1 in inv_workers0; [|exact Hw]; exact inv_workers0).
  simpl in Hall, Hb, Hskip.
  destruct (all_jobs_lookup_real ref job Hall Hb) as [Hlt Hjob].
  destruct inv_fifo0 as (consumed & Hc & Hsum).
  destruct (bind_held_insert (threads s) w _
              (Running (ref, job) (launch_command args env job)) Hw)
    as (rest & H1 & H2).
  pose proof (sum_list_with_insert (stopping (length jobs)) _ w _
                (Running (ref, job) (launch_command args env job)) Hw) as Hs.
  split; simpl; try done.
  - rewrite <- inv_refs0. apply filter_Permutation. unfold refs. simpl.
    rewrite H1, H2. done.
  - by apply Forall_insert.
  - rewrite Forall_app, Forall_singleton. split; [done|].
    exists job. done.
  - exists consumed. split; [done|]. simpl in Hs. lia.
  - by rewrite length_insert.
Qed.

Lemma invariant_finish (w : nat) (rc : Z) (et : string) (s s' : sys) :
  do_event args env (Finish w rc et) s = Some s' →
  invariant args env jobs processors s → invariant args env jobs processors s'.
Proof.
  simpl. destruct (threads s !! w) as [[| | |[ref job] cmd|]|] eqn:Hw; try done.
  intros [= <-] [].
  assert (worker_ok (all_jobs jobs processors) (Running (ref, job) cmd))
    as (Hall & Hb & Hskip)
    by (eapply Forall_lookup_1 in inv_workers0; [|exact Hw]; exact inv_workers0).
  simpl in Hall, Hb, Hskip.
  destruct (all_jobs_lookup_real ref job Hall Hb) as [Hlt Hjob].
  destruct inv_fifo0 as (consumed & Hc & Hsum).
  destruct (bind_held_insert (threads s) w _ Idle Hw) as (rest & H1 & H2).
  pose proof (sum_list_with_insert (stopping (length jobs)) _ w _ Idle Hw) as Hs.
  split; simpl; try done.
  - rewrite <- inv_refs0. apply filter_Permutation. unfold refs. simpl.
    rewrite H1, H2, !fmap_app. simpl. solve_Permutation.
  - by apply Forall_insert.
  - rewrite Forall_app, Forall_singleton. split; [done|].
    exists job. split; [done | by constructor].
  - intros Hq. rewrite Forall_app, Forall_singleton. split; [by apply inv_quiet0 | done].
  - exists consumed. split; [done|]. simpl in Hs. lia.
  - by rewrite length_insert.
Qed.

Lemma invariant_event (e : event) (s s' : sys) :
  do_event args env e s = Some s' →
  invariant args env jobs processors s → invariant args env jobs processors s'.
Proof.
  destruct e; eauto using invariant_sigint, invariant_put, invariant_get,
    invariant_examine, invariant_launch, invariant_finish.
Qed.

Lemma invariant_run (es : list event) (s s' : sys) :
  run args env es s = Some s' →
  invariant args env jobs processors s → invariant args env jobs processors s'.
Proof.
  revert s. induction es as [|e es IH]; simpl; intros s.
  - by intros [= <-].
  - destruct (do_event args env e s) as [s1|] eqn:He; [|done].
    intros Hrun Hinv. eapply IH; [exact Hrun|]. by eapply invariant_event.
Qed.

(** *** Every event lowers the measure *)



(** *** A run that is not over can go on *)







(** *** What has come back when the run is over *)

Lemma finished_output (s : sys) :
  invariant args env jobs processors s → finished s →
  (output_queue s).*1 ≡ₚ seq 0 (length jobs).
Proof.
  intros [] (Hp & Hq & Hex). rewrite <- inv_refs0. unfold refs.
  rewrite Hp, Hq, (bind_held_exited _ Hex). simpl.
  rewrite filter_all; [done|].
  apply Forall_fmap. eapply Forall_impl; [exact inv_output0|].
  intros it (job & Hjob & _). simpl. by eapply lookup_lt_Some.
Qed.



(** *** What the interrupt does to the jobs *)











End Run.

(** ** The collector on what came back *)

Lemma collect_job_interrupted (fs : gmap string file) (job : Job) (t : tally) :
  is_break job = true → collect_job fs job t = inr t.
Proof. intros H. unfold collect_job. by rewrite H. Qed.

Lemma collect_job_counted (fs : gmap string file) (job : Job) (t t' : tally) :
  is_break job = false → collect_job fs job t = inr t' → counted t' = S (counted t).
Proof.
  intros Hb. unfold collect_job. rewrite Hb.
  pose proof (classify_counted job t) as Hc.
  destruct (classify job t) as [st t1]. simpl in Hc.
  repeat case_match; intros [= <-]; done.
Qed.

Lemma collect_counted (fs : gmap string file) (out : list Job) (t t' : tally) :
  collect fs out t = inr t' → counted t' = (counted t + length (reported out))%nat.
Proof.
  unfold reported. revert t. induction out as [|job out IH]; simpl; intros t.
  - intros [= <-]. lia.
  - destruct (collect_job fs job t) as [e|t1] eqn:Hjob; [done|].
    intros Hrest. apply IH in Hrest. rewrite Hrest.
    destruct (is_break job) eqn:Hb.
    + rewrite collect_job_interrupted in Hjob by done. injection Hjob as <-.
      rewrite filter_cons_False by congruence. done.
    + apply collect_job_counted in Hjob; [|done].
      rewrite filter_cons_True by done. simpl. lia.
Qed.

Lemma reported_interrupted_length (out : list Job) :
  (length (reported out) + length (interrupted out) = length out)%nat.
Proof.
  unfold reported, interrupted. induction out as [|job out IH]; [done|].
  destruct (is_break job) eqn:Hb.
  - rewrite filter_cons_False, filter_cons_True by congruence. simpl. lia.
  - rewrite filter_cons_True, filter_cons_False by congruence. simpl. lia.
Qed.


Lemma collect_job_step (fs : gmap string file) (job : Job) (t t' : tally) :
  collect_job fs job t = inr t' →
  (∃ lines, xml_results t' = xml_results t ++ lines) ∧
  skipped_testnames t' =
    skipped_testnames t ++
      (if decide (is_break job = false ∧ (classify job tally_init).1 = SKIP)
       then [display_name job +:+ " (" +:+ skip_reason job +:+ ")"] else []) ∧
  failed_testnames t' =
    failed_testnames t ++
      (if decide (is_break job = false ∧ (classify job tally_init).1 = FAIL)
       then [display_name job] else []) ∧
  crashed_testnames t' =
    crashed_testnames t ++
      (if decide (is_break job = false ∧ (classify job tally_init).1 = CRASH)
       then [display_name job] else []) ∧
  valgrind_testnames t' =
    valgrind_testnames t ++
      (if decide (is_break job = false ∧ (classify job tally_init).1 = VALGR)
       then [display_name job] else []) ∧
  (passed_tests t' =
     passed_tests t +
       (if decide (is_break job = false ∧ (classify job tally_init).1 = PASS)
        then 1 else 0))%nat.
Proof.
  unfold collect_job. destruct (is_break job) eqn:Hb.
  { intros [= <-]. rewrite !decide_False by (intros [? _]; done).
    rewrite !app_nil_r. split_and!; try done. exists []. by rewrite app_nil_r. }
  rewrite !classify_status. unfold classify.
  destruct (is_skip job) eqn:Hs.
  { destruct (is_example job || is_pyexample job); intros [= <-]; simpl;
      rewrite ?app_nil_r; split_and!; try done; try lia; eexists; reflexivity. }
  destruct (returncode job =? 0) eqn:H0;
    [|destruct (returncode job =? 1) eqn:H1;
      [|destruct (returncode job =? 2) eqn:H2]]; simpl;
    destruct (is_example job || is_pyexample job); simpl;
    try destruct (fs !! tmp_file_name job) as [f|]; try done;
    try destruct (contents f) as [text|]; try done;
    try destruct (document_passed f);
    intros [= <-]; simpl; rewrite ?app_nil_r;
    split_and!; try done; try lia; eexists; reflexivity.
Qed.




(** The jobs that [run_tests] dispatches are not sentinels. *)
Lemma dispatch_not_break (args : Args) (env : Env) (prev : skip_lists) (c : catalog) :
  Forall (λ job, is_break job = false) (dispatch args env prev c).
Proof.
  assert (∀ f job, is_break job = false → is_break (fullness_gate args f job) = false)
    as Hgate by (intros f job H; unfold fullness_gate; repeat case_match; done).
  unfold dispatch. rewrite !Forall_app. split_and!.
  - apply Forall_fmap, Forall_forall. intros test _. simpl.
    unfold suite_job. repeat case_match; done.
  - case_match; [|constructor].
    apply Forall_fmap, Forall_forall. intros x _. simpl.
    unfold example_job. apply Hgate. repeat case_match; done.
  - repeat case_match; try constructor; try done.
    apply Forall_fmap, Forall_forall. intros x _. simpl.
    unfold pyexample_job. apply Hgate. repeat case_match; done.
Qed.

(** ** One outcome per job *)




(** ** The accounting of a run *)

(** C2, as the code has it.  [total_tests] and [jobs] go up together, once
    for each job put on the input queue, so both are the number of jobs
    dispatched.  When the collector has taken that many jobs from the
    output queue, the number dispatched is the sum of the five counters
    plus the number of jobs that came back marked as interrupted; it is the
    sum of the five counters when there was no interrupt. *)
Theorem accounting_with_interrupts (args : Args) (env : Env) (jobs : list Job)
    (processors : nat) (es : list event) (s : sys) (fs : gmap string file) (t : tally) :
  Forall (λ job, is_break job = false) jobs →
  run args env es (start jobs processors) = Some s →
  finished s →
  collect fs (output_queue s).*2 tally_init = inr t →
  length (output_queue s) = length jobs ∧
  length jobs =
    (passed_tests t + skipped_tests t + failed_tests t + crashed_tests t
     + valgrind_errors t + length (interrupted (output_queue s).*2))%nat ∧
  (thread_exit s = false →
   length jobs =
     (passed_tests t + skipped_tests t + failed_tests t + crashed_tests t
      + valgrind_errors t)%nat).
Proof.
  intros Hjobs Hrun Hfin Hc.
  pose proof (invariant_run args env jobs processors Hjobs es _ s Hrun
                (invariant_start args env jobs processors)) as Hinv.
  pose proof (finished_output args env jobs processors s Hinv Hfin) as Hperm.
  apply Permutation_length in Hperm. rewrite length_fmap, length_seq in Hperm.
  apply collect_counted in Hc. unfold counted in Hc. simpl in Hc.
  pose proof (reported_interrupted_length (output_queue s).*2) as Hlen.
  rewrite length_fmap in Hlen.
  split_and!; [done | lia |].
  intros Hquiet. destruct Hinv. specialize (inv_quiet0 Hquiet).
  assert (interrupted (output_queue s).*2 = []) as Hnone.
  { unfold interrupted. apply filter_none. apply Forall_fmap.
    eapply Forall_impl; [exact inv_quiet0|]. intros it Hb. simpl in *. congruence. }
  rewrite Hnone in Hlen. simpl in Hlen. lia.
Qed.

Lemma accounting_with_interrupts_witness :
  ∃ s t,
    run args_default env_sample interrupt_after_first (start two_examples 1) = Some s ∧
    collect ∅ (output_queue s).*2 tally_init = inr t ∧
    length two_examples =
      (passed_tests t + skipped_tests t + failed_tests t + crashed_tests t
       + valgrind_errors t + length (interrupted (output_queue s).*2))%nat.
Proof.
  destruct (run args_default env_sample interrupt_after_first (start two_examples 1))
    as [s|] eqn:Hrun; [|vm_compute in Hrun; discriminate Hrun].
  destruct (collect ∅ (output_queue s).*2 tally_init) as [e|t] eqn:Hc.
  { vm_compute in Hrun. injection Hrun as <-. vm_compute in Hc. discriminate Hc. }
  exists s, t. split; [reflexivity|]. split; [exact Hc|].
  apply (accounting_with_interrupts args_default env_sample two_examples 1
           interrupt_after_first s ∅ t).
  - repeat constructor.
  - exact Hrun.
  - vm_compute in Hrun. injection Hrun as <-. repeat split. repeat constructor.
  - exact Hc.
Defined.

(** C2 as stated fails.  One suite is dispatched and the interrupt arrives
    before a worker takes it: the collector drains the output queue, the
    total is 1 and every counter is 0. *)
Lemma interrupted_total_exceeds_counters :
  ∃ s t,
    run args_default env_sample interrupt_before_start (start one_suite 1) = Some s ∧
    finished s ∧
    length one_suite = 1%nat ∧
    collect ∅ (output_queue s).*2 tally_init = inr t ∧
    (passed_tests t + skipped_tests t + failed_tests t + crashed_tests t
     + valgrind_errors t)%nat = 0%nat.
Proof.
  eexists _, _. split; [vm_compute; reflexivity|].
  split; [repeat split; repeat constructor|].
  split; [reflexivity|].
  split; [vm_compute; reflexivity|].
  reflexivity.
Qed.

(** ** Jobs that are to be skipped *)




(** * Further properties of the code *)

(** ** The workers *)

Lemma filter_sublist_mono {A} (P : A → Prop) `{∀ x, Decision (P x)} (l k : list A) :
  l `sublist_of` k → filter P l `sublist_of` filter P k.
Proof.
  induction 1 as [|x l k _ IH|x l k _ IH].
  - constructor.
  - rewrite !filter_cons. case_decide; [by constructor | done].
  - rewrite filter_cons. case_decide; [by constructor | done].
Qed.

Lemma running_sublist_held (l : list worker) :
  l ≫= running `sublist_of` l ≫= held.
Proof.
  induction l as [|w l IH]; [constructor|].
  rewrite !bind_cons. apply sublist_app; [|done].
  destruct w; simpl; try constructor; done.
Qed.

Lemma length_bind_running (l : list worker) :
  (length (l ≫= running) ≤ length l)%nat.
Proof.
  induction l as [|w l IH]; [done|].
  rewrite bind_cons, length_app. destruct w; simpl; lia.
Qed.

Lemma bind_running_idle (p : nat) : replicate p Idle ≫= running = [].
Proof.
  induction p as [|p IH]; [done|].
  change (replicate (S p) Idle) with (Idle :: replicate p Idle).
  by rewrite bind_cons, IH.
Qed.

Section Workers.

Context (args : Args) (env : Env) (jobs : list Job) (processors : nat).
Hypothesis jobs_not_break : Forall (λ job, is_break job = false) jobs.

Lemma launched_accounted_event (e : event) (s s' : sys) :
  do_event args env e s = Some s' →
  invariant args env jobs processors s →
  launched_accounted s → launched_accounted s'.
Proof.
  unfold launched_accounted. intros He Hinv HL.
  destruct e as [| |w|w|w|w rc et]; simpl in He.
  - destruct (thread_exit s); [done|]. by injection He as <-.
  - destruct (pending s); [done|]. by injection He as <-.
  - destruct (threads s !! w) as [[| | | |]|] eqn:Hw; try done.
    destruct (input_queue s) as [|it q]; [done|]. injection He as <-. simpl.
    destruct (bind_insert_perm running (threads s) w Idle (Holding it) Hw)
      as (rest & H1 & H2).
    rewrite H2. rewrite H1 in HL. done.
  - destruct (threads s !! w) as [[|[ref job]| | |]|] eqn:Hw; try done.
    injection He as <-. unfold examine.
    destruct (is_break job) eqn:Hb;
      [|destruct (thread_exit s) eqn:Hte; [|destruct (is_skip job) eqn:Hskip]]; simpl.
    + destruct (bind_insert_perm running (threads s) w _ Exited Hw) as (rest & H1 & H2).
      rewrite H2. rewrite H1 in HL. done.
    + destruct (bind_insert_perm running (threads s) w _ Idle Hw) as (rest & H1 & H2).
      rewrite H2. rewrite H1 in HL. rewrite filter_app.
      rewrite (filter_none _ [_]); [by rewrite app_nil_r|].
      constructor; [|constructor]. intros [Hx _]. done.
    + destruct (bind_insert_perm running (threads s) w _ Idle Hw) as (rest & H1 & H2).
      rewrite H2. rewrite H1 in HL. rewrite filter_app.
      rewrite (filter_none _ [_]); [by rewrite app_nil_r|].
      constructor; [|constructor]. intros [_ Hx]. simpl in Hx. congruence.
    + destruct (bind_insert_perm running (threads s) w _ (Launching (ref, job)) Hw)
        as (rest & H1 & H2).
      rewrite H2. rewrite H1 in HL. done.
  - destruct (threads s !! w) as [[| |[ref job]| |]|] eqn:Hw; try done.
    injection He as <-. simpl.
    destruct (bind_insert_perm running (threads s) w _
                (Running (ref, job) (launch_command args env job)) Hw)
      as (rest & H1 & H2).
    rewrite H2. rewrite H1 in HL. rewrite fmap_app, HL. simpl. solve_Permutation.
  - destruct (threads s !! w) as [[| | |[ref job] cmd|]|] eqn:Hw; try done.
    injection He as <-. simpl.
    destruct (bind_insert_perm running (threads s) w _ Idle Hw) as (rest & H1 & H2).
    rewrite H2. rewrite H1 in HL. rewrite filter_app.
    destruct Hinv. eapply Forall_lookup_1 in inv_workers0; [|exact Hw].
    destruct inv_workers0 as (_ & Hb & Hskip). simpl in Hb, Hskip.
    rewrite (filter_all _ [_]); [|by repeat constructor].
    rewrite HL, !fmap_app. simpl. solve_Permutation.
Qed.

Lemma launched_accounted_run (es : list event) (s s' : sys) :
  run args env es s = Some s' →
  invariant args env jobs processors s →
  launched_accounted s → launched_accounted s'.
Proof.
  revert s. induction es as [|e es IH]; simpl; intros s.
  - by intros [= <-].
  - destruct (do_event args env e s) as [s1|] eqn:He; [|done].
    intros Hrun Hinv HL. eapply IH; [exact Hrun | |].
    + by eapply invariant_event.
    + by eapply launched_accounted_event.
Qed.

Lemma refs_NoDup (s : sys) :
  invariant args env jobs processors s →
  NoDup (filter (λ r, (r < length jobs)%nat) (refs s)).
Proof. intros []. rewrite inv_refs0. apply NoDup_seq. Qed.

End Workers.

(** X1: no job is executed twice.  In every state of a run the references
    of the subprocesses launched so far are pairwise different, and they
    are those of the jobs still running together with those of the jobs
    that came back executed. *)
Theorem no_job_launched_twice (args : Args) (env : Env) (jobs : list Job)
    (processors : nat) (es : list event) (s : sys) :
  Forall (λ job, is_break job = false) jobs →
  run args env es (start jobs processors) = Some s →
  NoDup (launched s).*1 ∧
  (launched s).*1 ≡ₚ
    (threads s ≫= running).*1
    ++ (filter (λ it : item, executed it.2) (output_queue s)).*1.
Proof.
  intros Hjobs Hrun.
  pose proof (invariant_run args env jobs processors Hjobs es _ s Hrun
                (invariant_start args env jobs processors)) as Hinv.
  assert (launched_accounted (start jobs processors)) as H0.
  { unfold launched_accounted. simpl. by rewrite bind_running_idle. }
  pose proof (launched_accounted_run args env jobs processors Hjobs es _ s Hrun
                (invariant_start args env jobs processors) H0) as HL.
  unfold launched_accounted in HL.
  split; [|exact HL].
  rewrite HL.
  pose proof (refs_NoDup args env jobs processors s Hinv) as Hnd.
  eapply sublist_NoDup; [exact Hnd|].
  assert (filter (λ r, (r < length jobs)%nat)
            ((threads s ≫= running).*1
             ++ (filter (λ it : item, executed it.2) (output_queue s)).*1)
          = (threads s ≫= running).*1
            ++ (filter (λ it : item, executed it.2) (output_queue s)).*1) as <-.
  { apply filter_all. destruct Hinv. rewrite Forall_app. split.
    - apply Forall_fmap, Forall_forall. intros [ref job] Hin.
      apply list_elem_of_bind in Hin as (w & Hin & Hw).
      destruct w as [|it|it|it cmd|]; simpl in Hin; try by apply elem_of_nil in Hin.
      apply list_elem_of_singleton in Hin as <-.
      eapply Forall_forall in inv_workers0; [|exact Hw].
      destruct inv_workers0 as (Hall & Hb & _). simpl in *.
      by destruct (all_jobs_lookup_real jobs processors ref job Hall Hb).
    - apply Forall_fmap, Forall_forall. intros [ref job] [_ Hin]%list_elem_of_filter.
      eapply Forall_forall in inv_output0; [|exact Hin].
      destruct inv_output0 as (job0 & Hjob0 & _). simpl in *.
      by eapply lookup_lt_Some. }
  apply filter_sublist_mono. unfold refs.
  do 2 apply sublist_inserts_l. apply sublist_app.
  - apply fmap_sublist, running_sublist_held.
  - apply fmap_sublist, sublist_filter.
Qed.

Lemma no_job_launched_twice_witness :
  ∃ s,
    run args_default env_sample interrupt_after_first (start two_examples 1) = Some s ∧
    NoDup (launched s).*1.
Proof.
  destruct (run args_default env_sample interrupt_after_first (start two_examples 1))
    as [s|] eqn:Hrun; [|vm_compute in Hrun; discriminate Hrun].
  exists s. split; [reflexivity|].
  apply (no_job_launched_twice args_default env_sample two_examples 1
           interrupt_after_first s).
  - repeat constructor.
  - exact Hrun.
Defined.

Lemma bind_launching_event (args : Args) (env : Env) (e : event) (s s' : sys) :
  thread_exit s = true →
  do_event args env e s = Some s' →
  thread_exit s' = true ∧
  ∃ new, launched s' = launched s ++ new ∧
         new.*1 ++ (threads s' ≫= launching).*1 ≡ₚ (threads s ≫= launching).*1.
Proof.
  intros Hte He. destruct e as [| |w|w|w|w rc et]; simpl in He.
  - by rewrite Hte in He.
  - destruct (pending s); [done|]. injection He as <-. simpl.
    split; [done|]. exists []. by rewrite app_nil_r.
  - destruct (threads s !! w) as [[| | | |]|] eqn:Hw; try done.
    destruct (input_queue s) as [|it q]; [done|]. injection He as <-. simpl.
    split; [done|]. exists []. rewrite app_nil_r. split; [done|]. simpl.
    destruct (bind_insert_perm launching (threads s) w Idle (Holding it) Hw)
      as (rest & H1 & H2).
    by rewrite H1, H2.
  - destruct (threads s !! w) as [[|[ref job]| | |]|] eqn:Hw; try done.
    injection He as <-. unfold examine. rewrite Hte.
    destruct (is_break job); simpl.
    + split; [done|]. exists []. rewrite app_nil_r. split; [done|]. simpl.
      destruct (bind_insert_perm launching (threads s) w _ Exited Hw)
        as (rest & H1 & H2).
      by rewrite H1, H2.
    + split; [done|]. exists []. rewrite app_nil_r. split; [done|]. simpl.
      destruct (bind_insert_perm launching (threads s) w _ Idle Hw)
        as (rest & H1 & H2).
      by rewrite H1, H2.
  - destruct (threads s !! w) as [[| |[ref job]| |]|] eqn:Hw; try done.
    injection He as <-. simpl. split; [done|].
    exists [(ref, launch_command args env job)]. split; [done|].
    destruct (bind_insert_perm launching (threads s) w _
                (Running (ref, job) (launch_command args env job)) Hw)
      as (rest & H1 & H2).
    rewrite H1, H2. done.
  - destruct (threads s !! w) as [[| | |[ref job] cmd|]|] eqn:Hw; try done.
    injection He as <-. simpl.
    split; [done|]. exists []. rewrite app_nil_r. split; [done|]. simpl.
    destruct (bind_insert_perm launching (threads s) w _ Idle Hw)
      as (rest & H1 & H2).
    by rewrite H1, H2.
Qed.

(** X2: once the interrupt has been seen the flag stays set.  The
    subprocesses started afterwards are those of the workers that had made
    the tests on their job before, and stood between the tests and the
    start: a job examined with the flag set is never started.  So when no
    worker stands there, nothing more is launched. *)
Theorem launches_after_interrupt (args : Args) (env : Env) (es : list event)
    (s s' : sys) :
  thread_exit s = true →
  run args env es s = Some s' →
  thread_exit s' = true ∧
  (∃ new, launched s' = launched s ++ new ∧
          new.*1 ++ (threads s' ≫= launching).*1 ≡ₚ (threads s ≫= launching).*1) ∧
  (threads s ≫= launching = [] → launched s' = launched s).
Proof.
  intros Hte Hrun.
  assert (thread_exit s' = true ∧
          ∃ new, launched s' = launched s ++ new ∧
                 new.*1 ++ (threads s' ≫= launching).*1
                 ≡ₚ (threads s ≫= launching).*1) as [Hte' (new & Hnew & Hperm)].
  { revert s Hte Hrun. induction es as [|e es IH]; simpl; intros s Hte.
    - intros [= <-]. split; [done|]. exists []. by rewrite app_nil_r.
    - destruct (do_event args env e s) as [s1|] eqn:He; [|done]. intros Hrun.
      destruct (bind_launching_event args env e s s1 Hte He)
        as (Hte1 & new1 & Hl1 & Hp1).
      destruct (IH s1 Hte1 Hrun) as (Hte2 & new2 & Hl2 & Hp2).
      split; [done|]. exists (new1 ++ new2). split.
      + by rewrite Hl2, Hl1, app_assoc.
      + rewrite fmap_app, <- app_assoc, Hp2. done. }
  split; [done|]. split; [by exists new|].
  intros Hnone. rewrite Hnone in Hperm. simpl in Hperm.
  apply Permutation_nil_r in Hperm. apply app_eq_nil in Hperm as [Hn _].
  apply fmap_nil_inv in Hn. rewrite Hnew, Hn. by rewrite app_nil_r.
Qed.

Lemma launches_after_interrupt_witness :
  ∃ s',
    run args_default env_sample [Put; Put; Get 0; Examine 0; Get 0; Examine 0]%nat
      (mkSys (all_items one_suite 1) [] [] true [Idle] []) = Some s' ∧
    launched s' = [].
Proof.
  destruct (run args_default env_sample [Put; Put; Get 0; Examine 0; Get 0; Examine 0]%nat
              (mkSys (all_items one_suite 1) [] [] true [Idle] []))
    as [s'|] eqn:Hrun; [|vm_compute in Hrun; discriminate Hrun].
  exists s'. split; [reflexivity|].
  apply (launches_after_interrupt args_default env_sample
           [Put; Put; Get 0; Examine 0; Get 0; Examine 0]%nat
           (mkSys (all_items one_suite 1) [] [] true [Idle] []) s');
    [reflexivity | exact Hrun | reflexivity].
Defined.

(** Whatever is on the output queue stays there. *)
Lemma output_queue_grows (args : Args) (env : Env) (es : list event)
    (s s' : sys) (it : item) :
  it ∈ output_queue s → run args env es s = Some s' → it ∈ output_queue s'.
Proof.
  revert s. induction es as [|e es IH]; simpl; intros s Hin.
  - by intros [= <-].
  - destruct (do_event args env e s) as [s1|] eqn:He; [|done].
    apply IH.
    destruct e as [| |w|w|w|w rc' et']; simpl in He.
    + destruct (thread_exit s); [done|]. by injection He as <-.
    + destruct (pending s); [done|]. by injection He as <-.
    + destruct (threads s !! w) as [[| | | |]|]; try done.
      destruct (input_queue s); [done|]. by injection He as <-.
    + destruct (threads s !! w) as [[|[r j]| | |]|]; try done.
      injection He as <-. unfold examine.
      destruct (is_break j); [done|].
      destruct (thread_exit s); [simpl; apply elem_of_app; by left|].
      destruct (is_skip j); [simpl; apply elem_of_app; by left | done].
    + destruct (threads s !! w) as [[| |[r j]| |]|]; try done.
      by injection He as <-.
    + destruct (threads s !! w) as [[| | |[r j] c|]|]; try done.
      injection He as <-. simpl. apply elem_of_app. by left.
Qed.

(** X3: a job whose subprocess is running when the interrupt comes, or at
    any other time, is not abandoned.  As long as the schedule has no
    [Finish] of its worker, the worker still waits for it; from the first
    such [Finish] on, the job is on the output queue with the return code
    and the time which that event brought, and it is marked as interrupted
    no more than it was. *)
Theorem job_in_flight_completes (args : Args) (env : Env) (es : list event)
    (s s' : sys) (w ref : nat) (job : Job) (cmd : string) :
  threads s !! w = Some (Running (ref, job) cmd) →
  run args env es s = Some s' →
  match first_finish w es with
  | None => threads s' !! w = Some (Running (ref, job) cmd)
  | Some (rc, et) =>
      (ref, set_elapsed_time et (set_returncode rc job)) ∈ output_queue s' ∧
      returncode (set_elapsed_time et (set_returncode rc job)) = rc ∧
      elapsed_time (set_elapsed_time et (set_returncode rc job)) = et ∧
      is_break (set_elapsed_time et (set_returncode rc job)) = is_break job
  end.
Proof.
  revert s. induction es as [|e es IH]; simpl; intros s Hw.
  - by intros [= <-].
  - destruct (do_event args env e s) as [s1|] eqn:He; [|done]. intros Hrun.
    destruct e as [| |w'|w'|w'|w' rc' et']; simpl in He.
    + destruct (thread_exit s); [done|]. injection He as <-.
      eapply IH; [|exact Hrun]. exact Hw.
    + destruct (pending s); [done|]. injection He as <-.
      eapply IH; [|exact Hrun]. exact Hw.
    + destruct (threads s !! w') as [[| | | |]|] eqn:Hw'; try done.
      destruct (input_queue s); [done|]. injection He as <-.
      eapply IH; [|exact Hrun]. simpl.
      rewrite list_lookup_insert_ne; [done|]. intros ->. congruence.
    + destruct (threads s !! w') as [[|[r j]| | |]|] eqn:Hw'; try done.
      injection He as <-. eapply IH; [|exact Hrun]. unfold examine.
      assert (w' ≠ w) by (intros ->; congruence).
      destruct (is_break j); [|destruct (thread_exit s); [|destruct (is_skip j)]];
        simpl; by rewrite list_lookup_insert_ne.
    + destruct (threads s !! w') as [[| |[r j]| |]|] eqn:Hw'; try done.
      injection He as <-. eapply IH; [|exact Hrun]. simpl.
      rewrite list_lookup_insert_ne; [done|]. intros ->. congruence.
    + destruct (threads s !! w') as [[| | |[r j] c|]|] eqn:Hw'; try done.
      injection He as <-.
      destruct (decide (w' = w)) as [->|Hne].
      * rewrite Hw in Hw'. injection Hw' as -> -> ->.
        split; [|done].
        eapply output_queue_grows; [|exact Hrun].
        simpl. apply elem_of_app. right. by apply list_elem_of_singleton.
      * eapply IH; [|exact Hrun]. simpl. by rewrite list_lookup_insert_ne.
Qed.

Lemma job_in_flight_completes_witness :
  ∃ s',
    run args_default env_sample [Sigint; Finish 0 2 "0.100"]%nat
      (mkSys [] [] [] false [Running (0%nat, Job_init) "first"] []) = Some s' ∧
    (0%nat, set_elapsed_time "0.100" (set_returncode 2 Job_init)) ∈ output_queue s'.
Proof.
  destruct (run args_default env_sample [Sigint; Finish 0 2 "0.100"]%nat
              (mkSys [] [] [] false [Running (0%nat, Job_init) "first"] []))
    as [s'|] eqn:Hrun; [|vm_compute in Hrun; discriminate Hrun].
  exists s'. split; [reflexivity|].
  apply (job_in_flight_completes args_default env_sample
           [Sigint; Finish 0 2 "0.100"]%nat
           (mkSys [] [] [] false [Running (0%nat, Job_init) "first"] [])
           s' 0 0 Job_init "first");
    [reflexivity | exact Hrun].
Defined.

(** X4: the pool keeps its size, and no more subprocesses run at a time
    than there are workers. *)
Theorem pool_bounded (args : Args) (env : Env) (jobs : list Job)
    (processors : nat) (es : list event) (s : sys) :
  Forall (λ job, is_break job = false) jobs →
  run args env es (start jobs processors) = Some s →
  length (threads s) = processors ∧
  (length (threads s ≫= running) ≤ processors)%nat.
Proof.
  intros Hjobs Hrun.
  pose proof (invariant_run args env jobs processors Hjobs es _ s Hrun
                (invariant_start args env jobs processors)) as [].
  split; [done|]. rewrite <- inv_threads0. apply length_bind_running.
Qed.

Lemma pool_bounded_witness :
  ∃ s,
    run args_default env_sample interrupt_after_first (start two_examples 1) = Some s ∧
    (length (threads s ≫= running) ≤ 1)%nat.
Proof.
  destruct (run args_default env_sample interrupt_after_first (start two_examples 1))
    as [s|] eqn:Hrun; [|vm_compute in Hrun; discriminate Hrun].
  exists s. split; [reflexivity|].
  apply (pool_bounded args_default env_sample two_examples 1 interrupt_after_first s).
  - repeat constructor.
  - exact Hrun.
Defined.

(** X5: jobs are taken in the order in which they were dispatched, and a
    worker stops only when no job is left: what has been taken, the input
    queue and what is still to be put make up, in this order, the sequence
    dispatched; and once a worker has returned, only sentinels remain in
    the queue and with the dispatcher. *)
Theorem taken_in_dispatch_order (args : Args) (env : Env) (jobs : list Job)
    (processors : nat) (es : list event) (s : sys) :
  Forall (λ job, is_break job = false) jobs →
  run args env es (start jobs processors) = Some s →
  (∃ consumed, consumed ++ input_queue s ++ pending s = all_items jobs processors) ∧
  (Exited ∈ threads s →
   Forall (λ it : item, (length jobs ≤ it.1)%nat) (input_queue s ++ pending s)).
Proof.
  intros Hjobs Hrun.
  pose proof (invariant_run args env jobs processors Hjobs es _ s Hrun
                (invariant_start args env jobs processors)) as [].
  destruct inv_fifo0 as (consumed & Hc & Hsum).
  split; [by exists consumed|].
  intros Hex.
  assert (0 < sum_list_with (stopping (length jobs)) (threads s))%nat as Hpos.
  { pose proof (sum_list_with_in Exited (stopping (length jobs)) (threads s) Hex) as H.
    simpl in H. lia. }
  rewrite Hsum in Hpos.
  destruct (filter (λ it : item, (length jobs ≤ it.1)%nat) consumed) as [|it l] eqn:Hf;
    [simpl in Hpos; lia|].
  assert (it ∈ filter (λ it : item, (length jobs ≤ it.1)%nat) consumed) as Hin
    by (rewrite Hf; left).
  apply list_elem_of_filter in Hin as [Hge [i Hi]%list_elem_of_lookup].
  assert (all_items jobs processors !! i = Some it) as Hall
    by (rewrite <- Hc; by apply lookup_app_l_Some).
  apply all_items_lookup in Hall as [Hidx _].
  apply lookup_lt_Some in Hi.
  apply Forall_lookup. intros j it' Hj.
  assert (all_items jobs processors !! (length consumed + j)%nat = Some it') as Hall'.
  { rewrite <- Hc. rewrite lookup_app_r by lia.
    replace (length consumed + j - length consumed)%nat with j by lia. done. }
  apply all_items_lookup in Hall' as [Hidx' _]. lia.
Qed.

Lemma taken_in_dispatch_order_witness :
  ∃ s,
    run args_default env_sample interrupt_after_first (start two_examples 1) = Some s ∧
    ∃ consumed, consumed ++ input_queue s ++ pending s = all_items two_examples 1.
Proof.
  destruct (run args_default env_sample interrupt_after_first (start two_examples 1))
    as [s|] eqn:Hrun; [|vm_compute in Hrun; discriminate Hrun].
  exists s. split; [reflexivity|].
  apply (taken_in_dispatch_order args_default env_sample two_examples 1
           interrupt_after_first s).
  - repeat constructor.
  - exact Hrun.
Defined.

(** X6: [--process-limit] bounds the number of workers by the number of
    processors and by the limit; with a negative limit no worker is
    started, and then a run with at least one job never comes to its end:
    nothing is ever taken from the input queue and nothing reaches the
    output queue, on which the collector waits. *)
Theorem negative_limit_starts_no_worker (args : Args) (env : Env) (jobs : list Job)
    (processors process_limit : Z) (es : list event) (s : sys) :
  0 < processors →
  (0 < process_limit →
   Z.of_nat (worker_threads processors process_limit) = Z.min processors process_limit) ∧
  (process_limit = 0 → Z.of_nat (worker_threads processors process_limit) = processors) ∧
  (process_limit < 0 →
   worker_threads processors process_limit = 0%nat ∧
   (jobs ≠ [] →
    run args env es (start jobs (worker_threads processors process_limit)) = Some s →
    ¬ finished s ∧ output_queue s = [] ∧ launched s = [])).
Proof.
  intros Hp. unfold worker_threads, limit_processors. split_and!.
  - intros Hl. destruct (Z.eqb_spec process_limit 0); [lia|].
    destruct (Z.ltb_spec processors process_limit); lia.
  - intros ->. simpl. lia.
  - intros Hl. destruct (Z.eqb_spec process_limit 0); [lia|].
    destruct (Z.ltb_spec processors process_limit); [lia|].
    assert (Z.to_nat process_limit = 0%nat) as -> by lia.
    split; [done|]. intros Hjobs Hrun.
    assert (∀ es s s',
              threads s = [] → output_queue s = [] → launched s = [] →
              pending s ++ input_queue s ≠ [] →
              run args env es s = Some s' →
              threads s' = [] ∧ output_queue s' = [] ∧ launched s' = [] ∧
              pending s' ++ input_queue s' ≠ []) as Hstuck.
    { clear. induction es as [|e es IH]; simpl; intros s s' Ht Ho Hl Hne.
      - by intros [= <-].
      - destruct (do_event args env e s) as [s1|] eqn:He; [|done].
        apply IH; destruct e as [| |w|w|w|w rc et]; simpl in He;
          try (rewrite Ht in He; done).
        all: try (destruct (thread_exit s); [done|]; by injection He as <-).
        all: destruct (pending s) as [|it rest]; [done|]; injection He as <-;
          simpl; try done.
        destruct rest; [|done]. simpl. by destruct (input_queue s). }
    destruct (Hstuck es (start jobs 0) s) as (Ht & Ho & Hla & Hne); try done.
    { simpl. rewrite app_nil_r. destruct jobs; [done|]. done. }
    split_and!; try done.
    intros (Hpend & Hq & _). rewrite Hpend, Hq in Hne. done.
Qed.

Lemma negative_limit_starts_no_worker_witness :
  worker_threads 8 (-1) = 0%nat ∧ Z.of_nat (worker_threads 8 4) = 4.
Proof.
  destruct (negative_limit_starts_no_worker args_default env_sample one_suite 8 (-1)
              [] (start one_suite 0)) as (_ & _ & H1); [lia|].
  destruct (negative_limit_starts_no_worker args_default env_sample one_suite 8 4
              [] (start one_suite 0)) as (H2 & _); [lia|].
  split.
  - apply H1. lia.
  - rewrite H2 by lia. reflexivity.
Defined.

(** ** The collector *)

(** X7: the results file is only ever appended to, in the order in which
    the jobs come back.  When the collecting loop ends, the lists of names
    hold the names of the jobs of each status in that order: failed,
    crashed and valgrind by display name, skipped with the reason in
    brackets.  The summary sorts each list before it prints it, so what is
    printed is the same names in sorted order. *)
Theorem summary_lists_by_status (fs : gmap string file) (out : list Job) (t t' : tally) :
  collect fs out t = inr t' →
  let skipped :=
    (λ job, display_name job +:+ " (" +:+ skip_reason job +:+ ")")
      <$> with_status SKIP out in
  xml_results t `prefix_of` xml_results t' ∧
  skipped_testnames t' = skipped_testnames t ++ skipped ∧
  failed_testnames t' = failed_testnames t ++ (display_name <$> with_status FAIL out) ∧
  crashed_testnames t' = crashed_testnames t ++ (display_name <$> with_status CRASH out) ∧
  valgrind_testnames t' = valgrind_testnames t ++ (display_name <$> with_status VALGR out) ∧
  passed_tests t' = (passed_tests t + length (with_status PASS out))%nat ∧
  (Sorted String.le (skipped_testnames (summary t')) ∧
   skipped_testnames (summary t') ≡ₚ skipped_testnames t ++ skipped) ∧
  (Sorted String.le (failed_testnames (summary t')) ∧
   failed_testnames (summary t')
   ≡ₚ failed_testnames t ++ (display_name <$> with_status FAIL out)) ∧
  (Sorted String.le (crashed_testnames (summary t')) ∧
   crashed_testnames (summary t')
   ≡ₚ crashed_testnames t ++ (display_name <$> with_status CRASH out)) ∧
  (Sorted String.le (valgrind_testnames (summary t')) ∧
   valgrind_testnames (summary t')
   ≡ₚ valgrind_testnames t ++ (display_name <$> with_status VALGR out)).
Proof.
  intros Hcollect skipped.
  assert (xml_results t `prefix_of` xml_results t' ∧
          skipped_testnames t' = skipped_testnames t ++ skipped ∧
          failed_testnames t' = failed_testnames t ++ (display_name <$> with_status FAIL out) ∧
          crashed_testnames t' = crashed_testnames t ++ (display_name <$> with_status CRASH out) ∧
          valgrind_testnames t' = valgrind_testnames t ++ (display_name <$> with_status VALGR out) ∧
          passed_tests t' = (passed_tests t + length (with_status PASS out))%nat)
    as (Hx & Hsk & Hf & Hc & Hv & Hp).
  { subst skipped. unfold with_status. revert t Hcollect.
    induction out as [|job out IH]; simpl; intros t.
    - intros [= <-]. rewrite !app_nil_r. split_and!; try done; lia.
    - destruct (collect_job fs job t) as [e|t1] eqn:Hjob; [done|].
      intros Hrest. apply IH in Hrest as (Hx & Hsk & Hf & Hc & Hv & Hp).
      apply collect_job_step in Hjob as ((lines & Hx1) & Hsk1 & Hf1 & Hc1 & Hv1 & Hp1).
      rewrite !filter_cons.
      split_and!.
      + etrans; [|exact Hx]. rewrite Hx1. by apply prefix_app_r.
      + rewrite Hsk, Hsk1.
        destruct (decide (is_break job = false ∧ (classify job tally_init).1 = SKIP));
          simpl; by rewrite <- ?app_assoc, ?app_nil_r.
      + rewrite Hf, Hf1.
        destruct (decide (is_break job = false ∧ (classify job tally_init).1 = FAIL));
          simpl; by rewrite <- ?app_assoc, ?app_nil_r.
      + rewrite Hc, Hc1.
        destruct (decide (is_break job = false ∧ (classify job tally_init).1 = CRASH));
          simpl; by rewrite <- ?app_assoc, ?app_nil_r.
      + rewrite Hv, Hv1.
        destruct (decide (is_break job = false ∧ (classify job tally_init).1 = VALGR));
          simpl; by rewrite <- ?app_assoc, ?app_nil_r.
      + rewrite Hp, Hp1.
        destruct (decide (is_break job = false ∧ (classify job tally_init).1 = PASS));
          simpl; lia. }
  split_and!; try done.
  - apply (Sorted_merge_sort String.le).
  - simpl. by rewrite merge_sort_Permutation, Hsk.
  - apply (Sorted_merge_sort String.le).
  - simpl. by rewrite merge_sort_Permutation, Hf.
  - apply (Sorted_merge_sort String.le).
  - simpl. by rewrite merge_sort_Permutation, Hc.
  - apply (Sorted_merge_sort String.le).
  - simpl. by rewrite merge_sort_Permutation, Hv.
Qed.

Lemma summary_lists_by_status_witness :
  ∃ t',
    collect failed_document [suite_returned_1; example_returned_1] tally_init = inr t' ∧
    failed_testnames t' = ["wifi-phy"; "examples/tutorial/first"] ∧
    failed_testnames (summary t') = ["examples/tutorial/first"; "wifi-phy"].
Proof.
  destruct (collect failed_document [suite_returned_1; example_returned_1] tally_init)
    as [e|t'] eqn:Hc; [vm_compute in Hc; discriminate Hc|].
  exists t'.
  destruct (summary_lists_by_status failed_document
              [suite_returned_1; example_returned_1] tally_init t' Hc)
    as (_ & _ & Hf & _).
  split; [reflexivity|]. split.
  - rewrite Hf. reflexivity.
  - unfold summary. cbn [failed_testnames]. rewrite Hf. vm_compute. reflexivity.
Defined.

(** X8: the collecting loop raises only for a test suite that was run,
    whose return code is 0, 1 or 2, and whose document cannot be read: it is
    not there, and the exception is the [FileNotFoundError] of its path, or
    its bytes are not UTF-8, and the exception is the [UnicodeDecodeError]
    of reading it.  Examples, skipped jobs, jobs marked as interrupted and
    suites with another return code never make it raise. *)
Theorem collector_raises_on_unreadable_document (fs : gmap string file)
    (job : Job) (t : tally) :
  ((∃ e, collect_job fs job t = inl e) ↔
   reads_document job = true ∧ fs !! tmp_file_name job ≫= contents = None) ∧
  (∀ e, collect_job fs job t = inl e →
     (fs !! tmp_file_name job = None ∧ e = FileNotFoundError (tmp_file_name job))
     ∨ (∃ f, fs !! tmp_file_name job = Some f ∧ contents f = None
             ∧ e = UnicodeDecodeError (tmp_file_name job))).
Proof.
  unfold collect_job, reads_document.
  destruct (is_break job); simpl.
  { split; [split|]; [by intros [e ?] | by intros [? _] | done]. }
  destruct (classify job t) as [st t1].
  destruct (is_example job || is_pyexample job); simpl.
  { split; [split|]; [by intros [e ?] | by intros [? _] | done]. }
  destruct (is_skip job); simpl.
  { split; [split|]; [by intros [e ?] | by intros [? _] | done]. }
  destruct ((returncode job =? 0) || (returncode job =? 1) || (returncode job =? 2)).
  - destruct (fs !! tmp_file_name job) as [f|] eqn:Hf; simpl.
    + destruct (contents f) as [text|] eqn:Htext.
      * split; [split|]; [by intros [e ?] | by intros [_ ?] | done].
      * split; [split|]; [done | by eexists |].
        intros e [= <-]. right. by exists f.
    + split; [split|]; [done | by eexists |].
      intros e [= <-]. by left.
  - split; [split|]; [by intros [e ?] | by intros [? _] | done].
Qed.

Lemma collector_raises_on_unreadable_document_witness :
  collect_job undecodable_document suite_returned_1 tally_init
  = inl (UnicodeDecodeError (tmp_file_name suite_returned_1)).
Proof.
  destruct (collector_raises_on_unreadable_document undecodable_document
              suite_returned_1 tally_init) as [Hiff Hwhich].
  destruct (proj2 Hiff) as [e He]; [split; reflexivity|].
  rewrite He. f_equal.
  destruct (Hwhich e He) as [[Hnone _] | (f & _ & _ & ->)]; [|reflexivity].
  vm_compute in Hnone. discriminate Hnone.
Defined.

Lemma removelast_snoc {A} (l : list A) (x : A) : removelast (l ++ [x]) = l.
Proof. apply removelast_last. Qed.

(** X9: what the collector keeps in [failed_jobs], whose output is printed
    at the end on request.  A skipped job is not kept.  An example is kept
    once unless its return code is 0.  A test suite is kept once for a
    return code other than 0 and once more unless its return code is 0, 1
    or 2 and its document says PASS or SKIP: a suite that failed or crashed
    is kept twice. *)
Theorem failed_jobs_kept (fs : gmap string file) (job : Job) (t t' : tally) :
  is_break job = false →
  collect_job fs job t = inr t' →
  failed_jobs t' =
    failed_jobs t ++
      (if is_skip job then []
       else
         (if returncode job =? 0 then [] else [job]) ++
         (if is_example job || is_pyexample job then []
          else if (returncode job =? 0) || (returncode job =? 1) || (returncode job =? 2)
               then match fs !! tmp_file_name job with
                    | Some f => if document_passed f then [] else [job]
                    | None => []
                    end
               else [job])).
Proof.
  intros Hb. unfold collect_job, classify. rewrite Hb.
  destruct (is_skip job).
  { destruct (is_example job || is_pyexample job); intros [= <-]; simpl;
      by rewrite app_nil_r. }
  destruct (returncode job =? 0) eqn:H0;
    [|destruct (returncode job =? 1) eqn:H1;
      [|destruct (returncode job =? 2) eqn:H2]]; simpl;
    destruct (is_example job || is_pyexample job); simpl;
    try destruct (fs !! tmp_file_name job) as [f|]; try done;
    try destruct (contents f) as [text|]; try done;
    try destruct (document_passed f);
    intros [= <-]; simpl;
    rewrite ?removelast_snoc, ?app_nil_r, <- ?app_assoc; done.
Qed.

Lemma failed_jobs_kept_witness :
  ∃ t',
    collect_job failed_document suite_returned_1 tally_init = inr t' ∧
    failed_jobs t' = [suite_returned_1; suite_returned_1].
Proof.
  destruct (collect_job failed_document suite_returned_1 tally_init)
    as [e|t'] eqn:Hc; [vm_compute in Hc; discriminate Hc|].
  exists t'. split; [reflexivity|].
  rewrite (failed_jobs_kept failed_document suite_returned_1 tally_init t' eq_refl Hc).
  reflexivity.
Defined.

(** ** The report that the rerun filter reads *)

Lemma glob_results_elem (dir : gmap string file) (n : string) :
  n ∈ glob_results dir ↔
  is_Some (dir !! n) ∧ ends_with "-results.xml" n = true ∧ starts_with "." n = false.
Proof.
  unfold glob_results. rewrite list_elem_of_filter.
  change (map fst (map_to_list dir)) with ((map_to_list dir).*1).
  rewrite list_elem_of_fmap. split.
  - intros ([? ?] & [n' f] & -> & Hin%elem_of_map_to_list). simpl. eauto.
  - intros ([f Hf] & ? & ?). split; [done|]. exists (n, f). split; [done|].
    by apply elem_of_map_to_list.
Qed.

Lemma sorted_desc_head_greatest (l : list string) (latest : string) :
  latest ∈ l → (∀ n, n ∈ l → str_ge latest n) →
  head (sorted_desc l) = Some latest.
Proof.
  intros Hin Hmax.
  pose proof (sorted_desc_Sorted l) as Hs.
  pose proof (sorted_desc_Permutation l) as Hp.
  apply (Sorted_StronglySorted str_ge) in Hs.
  destruct (sorted_desc l) as [|h tl]; [by rewrite <- Hp in Hin; apply elem_of_nil in Hin|].
  simpl. f_equal.
  apply StronglySorted_inv in Hs as [_ Htl].
  assert (h ∈ l) as Hh by (rewrite <- Hp; left).
  rewrite <- Hp in Hin. apply elem_of_cons in Hin as [-> | Hin]; [done|].
  apply (anti_symm str_ge).
  - eapply Forall_forall in Htl; [exact Htl | exact Hin].
  - by apply Hmax.
Qed.

Lemma load_newest (dir : gmap string file) (latest : string) (f : file) :
  dir !! latest = Some f →
  ends_with "-results.xml" latest = true →
  starts_with "." latest = false →
  (∀ n, n ∈ glob_results dir → str_ge latest n) →
  latest_report dir = etree f ∧
  load_previously_successful_tests dir =
    load_previously_successful_tests {[ latest := f ]}.
Proof.
  intros Hf He Hs Hmax.
  assert (latest ∈ glob_results dir) as Hin by (apply glob_results_elem; eauto).
  pose proof (sorted_desc_head_greatest _ _ Hin Hmax) as Hhead.
  assert (glob_results ({[ latest := f ]} : gmap string file) = [latest]) as Hone.
  { unfold glob_results. rewrite map_to_list_singleton. simpl.
    rewrite filter_cons_True by done. done. }
  split.
  - unfold latest_report. rewrite Hhead. simpl. by rewrite Hf.
  - unfold load_previously_successful_tests, load_from. rewrite Hone. simpl.
    destruct (sorted_desc (glob_results dir)) as [|h tl]; [done|].
    injection Hhead as ->. by rewrite Hf, lookup_singleton_eq.
Qed.

(** X10: of the files of the output directory whose name ends in
    [-results.xml] and does not begin with a dot, the rerun filter reads
    the one whose name comes last in the order of strings, which is the
    newest by the time stamp in the name, and no other: what it returns
    is what that file alone gives. *)
Theorem newest_report_chosen (dir : gmap string file) (latest : string) (f : file) :
  dir !! latest = Some f →
  ends_with "-results.xml" latest = true →
  starts_with "." latest = false →
  (∀ n, n ∈ glob_results dir → str_ge latest n) →
  latest_report dir = etree f ∧
  load_previously_successful_tests dir =
    load_previously_successful_tests {[ latest := f ]}.
Proof. apply load_newest. Qed.

Lemma newest_report_chosen_witness :
  latest_report dir_two = None ∧
  load_previously_successful_tests dir_two = Exit (-1).
Proof.
  destruct (newest_report_chosen dir_two "2010-01-13-08-00-00-CUT-results.xml"
              (mkFile (Some "<Results>") None)) as [H1 H2].
  - reflexivity.
  - reflexivity.
  - reflexivity.
  - intros n Hn. vm_compute in Hn.
    repeat (apply elem_of_cons in Hn as [-> | Hn]; [reflexivity|]).
    by apply elem_of_nil in Hn.
  - split; [exact H1|]. rewrite H2. reflexivity.
Defined.

(** X11: how the rerun filter fails.  With no results file in the output
    directory the process exits with -1, and so it does when the newest
    results file does not parse, whatever older files there are.  When the
    newest file parses but a record of it has no name or no result, while
    the first record of its kind has children, the filter raises
    [AttributeError]. *)
Theorem rerun_filter_failures (dir : gmap string file) :
  (glob_results dir = [] → load_previously_successful_tests dir = Exit (-1)) ∧
  (∀ latest f,
     dir !! latest = Some f →
     ends_with "-results.xml" latest = true →
     starts_with "." latest = false →
     (∀ n, n ∈ glob_results dir → str_ge latest n) →
     etree f = None →
     load_previously_successful_tests dir = Exit (-1)) ∧
  (∀ root test_type,
     latest_report dir = Some root →
     test_type = "Test" ∨ test_type = "Example" →
     truthy (find root test_type) = true →
     Exists (λ x, name_and_result x = None) (findall root test_type) →
     load_previously_successful_tests dir = Raise AttributeError).
Proof.
  split_and!.
  - intros Hnil. unfold load_previously_successful_tests, load_from.
    by rewrite Hnil.
  - intros latest f Hf He Hs Hmax Hparse.
    destruct (load_newest dir latest f Hf He Hs Hmax) as [_ ->].
    unfold load_previously_successful_tests, load_from, glob_results.
    rewrite map_to_list_singleton. simpl. rewrite filter_cons_True by done. simpl.
    by rewrite lookup_singleton_eq, Hparse.
  - intros root test_type Hroot Hkind Htr Hbad.
    rewrite (load_latest_report dir root Hroot).
    assert (previously_successful root test_type = None) as Hnone.
    { unfold previously_successful. rewrite Htr.
      apply mapM_None_2 in Hbad. by rewrite Hbad. }
    destruct Hkind as [-> | ->].
    + by rewrite Hnone.
    + rewrite Hnone. by destruct (previously_successful root "Test").
Qed.

Lemma rerun_filter_failures_witness :
  load_previously_successful_tests dir_two = Exit (-1).
Proof.
  destruct (rerun_filter_failures dir_two) as (_ & H & _).
  apply (H "2010-01-13-08-00-00-CUT-results.xml" (mkFile (Some "<Results>") None));
    try reflexivity.
  intros n Hn. vm_compute in Hn.
  repeat (apply elem_of_cons in Hn as [-> | Hn]; [reflexivity|]).
  by apply elem_of_nil in Hn.
Defined.

(** ** What is dispatched *)

Lemma fullness_gate_kind (args : Args) (fullness : string) (job : Job) :
  is_example (fullness_gate args fullness job) = is_example job ∧
  is_pyexample (fullness_gate args fullness job) = is_pyexample job ∧
  tmp_file_name (fullness_gate args fullness job) = tmp_file_name job.
Proof. unfold fullness_gate. repeat case_match; done. Qed.

Lemma suite_job_kind (args : Args) (env : Env) (prev : skip_lists) (test : string) :
  is_example (suite_job args env prev test) = false ∧
  is_pyexample (suite_job args env prev test) = false ∧
  display_name (suite_job args env prev test) = test ∧
  tmp_file_name (suite_job args env prev test) =
    os_path_join (testpy_output_dir env) (test +:+ ".xml").
Proof. unfold suite_job. repeat case_match; done. Qed.

Lemma example_job_kind (args : Args) (env : Env) (prev : skip_lists) (x : example_test) :
  is_example (example_job args env prev x) = true ∧
  is_pyexample (example_job args env prev x) = false.
Proof.
  unfold example_job. cbv zeta.
  match goal with
  | |- context [fullness_gate ?a ?f ?j] =>
      destruct (fullness_gate_kind a f j) as (-> & -> & _)
  end.
  repeat case_match; done.
Qed.

Lemma pyexample_job_kind (args : Args) (env : Env) (x : python_test) :
  is_example (pyexample_job args env x) = false ∧
  is_pyexample (pyexample_job args env x) = true.
Proof.
  unfold pyexample_job. cbv zeta.
  match goal with
  | |- context [fullness_gate ?a ?f ?j] =>
      destruct (fullness_gate_kind a f j) as (-> & -> & _)
  end.
  repeat case_match; done.
Qed.

(** X12: what the options select (the table of lines 1711-1718 and
    1830-1831).  With [--suite] and without [--pyexample] only suites are
    dispatched, one job for each name of the list and in its order.  With
    a [--constrain] other
    than [example] no C++ example is dispatched, and with one other than
    [pyexample], or with [--example], no Python example is, unless
    [--pyexample] names one.  With none of these options every suite, every
    runnable C++ example whose condition holds and every runnable Python
    example whose condition holds gets one job. *)
Theorem dispatch_selection (args : Args) (env : Env) (prev : skip_lists) (c : catalog) :
  (nonempty (args_suite args) = true → nonempty (args_pyexample args) = false →
   dispatch args env prev c = suite_job args env prev <$> suite_list c) ∧
  (nonempty (args_constrain args) = true → args_constrain args ≠ "example" →
   Forall (λ job, is_example job = false) (dispatch args env prev c)) ∧
  (nonempty (args_pyexample args) = false →
   (nonempty (args_constrain args) = true ∧ args_constrain args ≠ "pyexample")
   ∨ nonempty (args_example args) = true →
   Forall (λ job, is_pyexample job = false) (dispatch args env prev c)) ∧
  (nonempty (args_suite args) = false → nonempty (args_example args) = false →
   nonempty (args_pyexample args) = false → nonempty (args_constrain args) = false →
   ENABLE_EXAMPLES env = true →
   length (dispatch args env prev c) =
     (length (suite_list c)
      + length (filter (λ x, ex_runnable x = true ∧ ex_do_run x = true) (example_tests c))
      + length (filter (λ x, py_runnable x = true ∧ py_do_run x = true) (python_tests c)))%nat).
Proof.
  assert (Forall (λ job, is_example job = false ∧ is_pyexample job = false)
            (map (suite_job args env prev) (suite_list c))) as Hsuites.
  { apply Forall_fmap, Forall_forall. intros test _. simpl.
    by destruct (suite_job_kind args env prev test) as (? & ? & _). }
  unfold dispatch. split_and!.
  - intros -> ->. simpl. by rewrite app_nil_r.
  - intros Hc Hne. rewrite Hc. simpl.
    rewrite (bool_decide_false (_ = "example")) by done.
    rewrite andb_false_r. simpl.
    rewrite Forall_app. split.
    + eapply Forall_impl; [exact Hsuites|]. by intros job [? _].
    + repeat case_match; repeat constructor.
      apply Forall_fmap, Forall_forall. intros x _. simpl.
      by destruct (pyexample_job_kind args env x).
  - intros Hpy Hor. rewrite Hpy. rewrite !Forall_app. split_and!.
    + eapply Forall_impl; [exact Hsuites|]. by intros job [_ ?].
    + case_match; [|constructor].
      apply Forall_fmap, Forall_forall. intros x _. simpl.
      by destruct (example_job_kind args env prev x).
    + destruct Hor as [[Hc Hne] | He].
      * rewrite Hc. simpl. rewrite (bool_decide_false (_ = "pyexample")) by done.
        repeat case_match; constructor.
      * rewrite He. simpl. rewrite andb_false_r. simpl. constructor.
  - intros -> -> -> -> ->. simpl.
    rewrite !length_app, !length_map. lia.
Qed.

Lemma dispatch_selection_witness :
  dispatch args_one_suite env_sample no_previous catalog_sample =
    suite_job args_one_suite env_sample no_previous <$> ["wifi-phy"; "routing-click"] ∧
  length (dispatch args_default env_sample no_previous catalog_sample) = 4%nat.
Proof.
  destruct (dispatch_selection args_one_suite env_sample no_previous catalog_sample)
    as (H1 & _).
  destruct (dispatch_selection args_default env_sample no_previous catalog_sample)
    as (_ & _ & _ & H4).
  split.
  - apply H1; reflexivity.
  - rewrite H4 by reflexivity. reflexivity.
Defined.

Lemma string_app_length (a b : string) :
  String.length (a +:+ b) = (String.length a + String.length b)%nat.
Proof. induction a as [|c a IH]; simpl; [done | by rewrite IH]. Qed.

Lemma string_app_inv_head (p a b : string) : p +:+ a = p +:+ b → a = b.
Proof. induction p as [|c p IH]; simpl; [done|]. intros [= H]. by apply IH. Qed.

Lemma string_app_inv_tail (a b s : string) : a +:+ s = b +:+ s → a = b.
Proof.
  revert b. induction a as [|c a IH]; intros [|d b]; simpl; try done.
  - intros H. apply (f_equal String.length) in H.
    rewrite !string_app_length in H. simpl in H. lia.
  - intros H. apply (f_equal String.length) in H.
    rewrite !string_app_length in H. simpl in H. lia.
  - intros [= -> H]. f_equal. by apply IH.
Qed.

Lemma starts_with_slash_app (t s : string) :
  starts_with "/" t = false → starts_with "/" s = false →
  starts_with "/" (t +:+ s) = false.
Proof.
  unfold starts_with. destruct t as [|c t]; [done|].
  change (String c t +:+ s) with (String c (t +:+ s)).
  cbn [String.prefix]. intros H _.
  destruct (ascii_dec "/" c); [|done]. by destruct t.
Qed.

(** X13: two test suites with different names write their documents to
    different files, so one cannot overwrite the other's: the temporary
    file of a suite job is the name of the suite with [.xml] in the output
    directory of the run, for any name that is not an absolute path. *)
Theorem suite_documents_distinct (args args' : Args) (env : Env)
    (prev prev' : skip_lists) (test test' : string) :
  starts_with "/" test = false →
  starts_with "/" test' = false →
  test ≠ test' →
  tmp_file_name (suite_job args env prev test)
  ≠ tmp_file_name (suite_job args' env prev' test').
Proof.
  intros H1 H2 Hne Heq. apply Hne. revert Heq.
  destruct (suite_job_kind args env prev test) as (_ & _ & _ & ->).
  destruct (suite_job_kind args' env prev' test') as (_ & _ & _ & ->).
  unfold os_path_join.
  rewrite !starts_with_slash_app by done.
  destruct (negb (nonempty (testpy_output_dir env)) || ends_with "/" (testpy_output_dir env)).
  - intros H%string_app_inv_head. by apply string_app_inv_tail in H.
  - intros H%string_app_inv_head%string_app_inv_head. by apply string_app_inv_tail in H.
Qed.

Lemma suite_documents_distinct_witness :
  tmp_file_name (suite_job args_default env_sample no_previous "wifi-phy")
  ≠ tmp_file_name (suite_job args_default env_sample no_previous "routing-click").
Proof.
  apply (suite_documents_distinct args_default args_default env_sample
           no_previous no_previous "wifi-phy" "routing-click");
    [reflexivity | reflexivity | discriminate].
Defined.

(** ** The environment and the catalog *)

Lemma string_app_cons (x : ascii) (a b : string) :
  String x a +:+ b = String x (a +:+ b).
Proof. reflexivity. Qed.

Lemma string_app_assoc (a b c : string) : (a +:+ b) +:+ c = a +:+ (b +:+ c).
Proof.
  induction a as [|x a IH]; [reflexivity|].
  rewrite !string_app_cons. by rewrite IH.
Qed.

Lemma string_app_nil_r (a : string) : a +:+ "" = a.
Proof.
  induction a as [|x a IH]; [reflexivity|].
  rewrite string_app_cons. by rewrite IH.
Qed.

Lemma str_join_cons (sep a : string) (b : string) (l : list string) :
  str_join sep (a :: b :: l) = a +:+ sep +:+ str_join sep (b :: l).
Proof. reflexivity. Qed.

Lemma str_join_merge (sep a b : string) (l : list string) :
  str_join sep ((a +:+ sep +:+ b) :: l) = str_join sep (a :: b :: l).
Proof.
  destruct l as [|c l]; [reflexivity|].
  rewrite !str_join_cons, !string_app_assoc. reflexivity.
Qed.

Lemma environ_append_paths (key old : string) (paths : list string)
    (environ : gmap string string) :
  environ !! key = Some old →
  ∃ environ',
    foldl (λ environ path, environ ← environ; environ_append key (":" +:+ path) environ)
      (Some environ) paths = Some environ'
    ∧ environ' !! key = Some (str_join ":" (old :: paths))
    ∧ ∀ k, k ≠ key → environ' !! k = environ !! k.
Proof.
  revert old environ. induction paths as [|path paths IH]; intros old environ Hold.
  - exists environ. done.
  - simpl foldl. unfold environ_append at 2. rewrite Hold. simpl mbind.
    destruct (IH (old +:+ ":" +:+ path) (<[key := old +:+ ":" +:+ path]> environ))
      as (environ' & Hf & Hk & Hother).
    { apply lookup_insert_eq. }
    exists environ'. split; [exact Hf|]. split.
    + rewrite Hk, str_join_merge. reflexivity.
    + intros k Hne. rewrite Hother by done. by apply lookup_insert_ne.
Qed.

Lemma extend_library_path_spec (key : string) (paths : list string)
    (environ : gmap string string) :
  ∃ environ',
    extend_library_path key (bool_decide (is_Some (environ !! key))) paths environ
      = Some environ'
    ∧ environ' !! key = Some (str_join ":" (default "" (environ !! key) :: paths))
    ∧ ∀ k, k ≠ key → environ' !! k = environ !! k.
Proof.
  unfold extend_library_path. destruct (environ !! key) as [old|] eqn:Hold.
  - rewrite bool_decide_true by eauto. simpl negb. cbv iota.
    apply environ_append_paths. exact Hold.
  - rewrite bool_decide_false by (intros [? ?]; done). simpl negb. cbv iota.
    destruct (environ_append_paths key "" paths (<[key := ""]> environ))
      as (environ' & Hf & Hk & Hother).
    { apply lookup_insert_eq. }
    exists environ'. split; [exact Hf|]. split; [exact Hk|].
    intros k Hne. rewrite Hother by done. by apply lookup_insert_ne.
Qed.

(** X14: [make_paths] never fails on a variable that is not set.  Afterwards
    [PYTHONPATH] is the bindings directory of the build, once when the
    variable was not set and twice, joined by a colon, when it was: the value
    it had is lost.  The library search path of the platform keeps what it
    held, followed by every module path in order, each after a colon, and no
    other variable changes. *)
Theorem make_paths_environment (env : Env) (NS3_MODULE_PATH : list string)
    (p : platform) (environ : gmap string string) :
  let pypath := os_path_join (os_path_join (NS3_BUILDDIR env) "bindings") "python" in
  ∃ environ',
    make_paths env NS3_MODULE_PATH p environ = Some environ'
    ∧ environ' !! "PYTHONPATH"
      = Some (if decide (is_Some (environ !! "PYTHONPATH"))
              then pypath +:+ ":" +:+ pypath else pypath)
    ∧ environ' !! library_variable p
      = Some (str_join ":"
                (default "" (environ !! library_variable p) :: NS3_MODULE_PATH))
    ∧ ∀ k, k ≠ "PYTHONPATH" → k ≠ library_variable p →
           environ' !! k = environ !! k.
Proof.
  intros pypath. unfold make_paths. fold pypath.
  set (e1 := if negb (bool_decide (is_Some (environ !! "PYTHONPATH")))
             then Some (<["PYTHONPATH" := pypath]> (<["PYTHONPATH" := pypath]> environ))
             else environ_append "PYTHONPATH" (":" +:+ pypath)
                    (<["PYTHONPATH" := pypath]> environ)).
  assert (∃ environ1, e1 = Some environ1
            ∧ environ1 !! "PYTHONPATH"
              = Some (if decide (is_Some (environ !! "PYTHONPATH"))
                      then pypath +:+ ":" +:+ pypath else pypath)
            ∧ ∀ k, k ≠ "PYTHONPATH" → environ1 !! k = environ !! k)
    as (environ1 & -> & Hpy & Hrest).
  { subst e1. destruct (decide (is_Some (environ !! "PYTHONPATH"))) as [Hs|Hs].
    - rewrite bool_decide_true by done. simpl negb. cbv iota.
      unfold environ_append. rewrite lookup_insert_eq. simpl mbind.
      eexists. split; [reflexivity|]. split; [apply lookup_insert_eq|].
      intros k Hk. by rewrite !lookup_insert_ne.
    - rewrite bool_decide_false by done. simpl negb. cbv iota.
      eexists. split; [reflexivity|]. split; [apply lookup_insert_eq|].
      intros k Hk. by rewrite !lookup_insert_ne. }
  simpl mbind.
  assert (∀ key, key ≠ "PYTHONPATH" →
            ∃ environ',
              extend_library_path key (bool_decide (is_Some (environ !! key)))
                NS3_MODULE_PATH environ1 = Some environ'
              ∧ environ' !! "PYTHONPATH"
                = Some (if decide (is_Some (environ !! "PYTHONPATH"))
                        then pypath +:+ ":" +:+ pypath else pypath)
              ∧ environ' !! key
                = Some (str_join ":" (default "" (environ !! key) :: NS3_MODULE_PATH))
              ∧ ∀ k, k ≠ "PYTHONPATH" → k ≠ key → environ' !! k = environ !! k)
    as Hlib.
  { intros key Hkey.
    destruct (extend_library_path_spec key NS3_MODULE_PATH environ1)
      as (environ' & Hf & Hk & Hother).
    rewrite (Hrest key Hkey) in Hf, Hk.
    exists environ'. split; [exact Hf|]. split.
    { rewrite Hother by done. exact Hpy. }
    split; [exact Hk|].
    intros k Hk1 Hk2. rewrite Hother by done. by apply Hrest. }
  destruct p; simpl library_variable; apply Hlib; done.
Qed.

Lemma make_paths_environment_witness :
  ∃ environ',
    make_paths env_sample ["/ns-3-dev/build/lib"] other_platform environ_sample
    = Some environ'
    ∧ environ' !! "PYTHONPATH"
      = Some "/ns-3-dev/build/bindings/python:/ns-3-dev/build/bindings/python"
    ∧ environ' !! "LD_LIBRARY_PATH" = Some ":/ns-3-dev/build/lib"
    ∧ environ' !! "HOME" = Some "/home/user".
Proof.
  destruct (make_paths_environment env_sample ["/ns-3-dev/build/lib"]
              other_platform environ_sample) as (environ' & H1 & H2 & H3 & H4).
  exists environ'. split; [exact H1|]. split; [exact H2|]. split; [exact H3|].
  rewrite (H4 "HOME") by discriminate. reflexivity.
Defined.

Lemma dictionary_snoc (programs : list string) (program : string) :
  ns3_runnable_programs_dictionary (programs ++ [program])
  = <[basename program := program]> (ns3_runnable_programs_dictionary programs).
Proof. unfold ns3_runnable_programs_dictionary. by rewrite foldl_snoc. Qed.

(** X15: the dictionary of runnable programs maps a name to the last program
    of the list with that base name; earlier programs of the same base name
    are shadowed.  Every path stored is one of the programs and has its key
    as base name. *)
Theorem dictionary_last_program_wins (ns3_runnable_programs : list string)
    (program_name : string) :
  ns3_runnable_programs_dictionary ns3_runnable_programs !! program_name
  = last (filter (λ program, basename program = program_name) ns3_runnable_programs)
  ∧ ∀ program,
      ns3_runnable_programs_dictionary ns3_runnable_programs !! program_name
      = Some program →
      program ∈ ns3_runnable_programs ∧ basename program = program_name.
Proof.
  assert (ns3_runnable_programs_dictionary ns3_runnable_programs !! program_name
          = last (filter (λ program, basename program = program_name)
                    ns3_runnable_programs)) as Hlast.
  { induction ns3_runnable_programs as [|program programs IH] using rev_ind.
    - reflexivity.
    - rewrite dictionary_snoc, filter_app, last_app.
      destruct (decide (basename program = program_name)) as [<-|Hne].
      + rewrite lookup_insert_eq, (filter_singleton_True _ _) by done. reflexivity.
      + rewrite lookup_insert_ne by done.
        rewrite filter_cons_False by done. simpl. exact IH. }
  split; [exact Hlast|].
  intros program Hprogram. rewrite Hlast in Hprogram.
  apply last_Some in Hprogram as [l Hl].
  assert (program ∈ filter (λ program, basename program = program_name)
                      ns3_runnable_programs) as Hin.
  { rewrite Hl. apply elem_of_app. right. by apply list_elem_of_singleton. }
  apply list_elem_of_filter in Hin as [? ?]. done.
Qed.

Lemma dictionary_last_program_wins_witness :
  "/ns-3-dev/build/examples/tutorial/ns3-dev-second-debug" ∈ programs_sample
  ∧ basename "/ns-3-dev/build/examples/tutorial/ns3-dev-second-debug"
    = "ns3-dev-second-debug".
Proof.
  apply (dictionary_last_program_wins programs_sample "ns3-dev-second-debug").
  vm_compute. reflexivity.
Defined.

(** ** Splitting and joining *)

Lemma split_on_not_nil (sep : ascii) (s : string) : split_on sep s ≠ [].
Proof.
  destruct s as [|c s]; simpl; [done|].
  destruct (Ascii.eqb c sep); [done|]. by destruct (split_on sep s).
Qed.

Lemma split_on_no_sep (sep : ascii) (s : string) :
  Forall (λ part, has_char sep part = false) (split_on sep s).
Proof.
  induction s as [|c s IH]; simpl.
  - by constructor.
  - destruct (Ascii.eqb c sep) eqn:Hc.
    + by constructor.
    + destruct (split_on sep s) as [|part parts].
      * constructor; [|done]. simpl. by rewrite Hc.
      * inversion IH as [|? ? Hpart Hparts]; subst.
        constructor; [|done]. simpl. by rewrite Hc.
Qed.

Lemma split_on_sep (sep : ascii) (s : string) :
  split_on sep (String sep s) = "" :: split_on sep s.
Proof. simpl. by rewrite Ascii.eqb_refl. Qed.

Lemma split_on_id (sep : ascii) (s : string) :
  has_char sep s = false → split_on sep s = [s].
Proof.
  induction s as [|c s IH]; [done|]. simpl.
  intros [Hc Hs]%orb_false_iff. by rewrite Hc, (IH Hs).
Qed.

Lemma split_on_app (sep : ascii) (a b : string) :
  has_char sep a = false →
  split_on sep (a +:+ String sep b) = a :: split_on sep b.
Proof.
  induction a as [|c a IH].
  - intros _. apply split_on_sep.
  - simpl has_char. intros [Hc Ha]%orb_false_iff.
    rewrite string_app_cons. simpl split_on. by rewrite Hc, (IH Ha).
Qed.

Lemma split_on_join (sep : ascii) (parts : list string) :
  parts ≠ [] →
  Forall (λ part, has_char sep part = false) parts →
  split_on sep (str_join (String sep "") parts) = parts.
Proof.
  intros Hne Hall. induction Hall as [|part parts Hpart Hparts IH]; [done|].
  clear Hne. destruct parts as [|part' parts].
  - by apply split_on_id.
  - rewrite str_join_cons.
    change (String sep "" +:+ ?r) with (String sep r).
    rewrite split_on_app by done. by rewrite IH.
Qed.

Lemma join_split_on (sep : ascii) (s : string) :
  str_join (String sep "") (split_on sep s) = s.
Proof.
  induction s as [|c s IH]; [done|]. simpl split_on.
  destruct (Ascii.eqb c sep) eqn:Hc.
  - apply Ascii.eqb_eq in Hc as ->.
    pose proof (split_on_not_nil sep s) as Hne.
    destruct (split_on sep s) as [|part parts]; [done|].
    rewrite str_join_cons, IH. reflexivity.
  - pose proof (split_on_not_nil sep s) as Hne.
    destruct (split_on sep s) as [|part parts]; [done|].
    destruct parts as [|part' parts].
    + simpl in *. by rewrite IH.
    + rewrite str_join_cons in *. rewrite string_app_cons, IH. done.
Qed.

(** ** The list of suites *)

Lemma list_remove_sublist (x : string) (l : list string) :
  list_remove x l `sublist_of` l.
Proof.
  induction l as [|y l IH]; simpl; [done|].
  destruct (decide (x = y)); [by apply sublist_cons | by apply sublist_skip].
Qed.

Lemma list_remove_filter (P : string → Prop) `{!∀ x, Decision (P x)}
    (x : string) (l : list string) :
  ¬ P x → filter P (list_remove x l) = filter P l.
Proof.
  intros Hx. induction l as [|y l IH]; simpl; [done|].
  destruct (decide (x = y)) as [<-|Hne].
  - by rewrite filter_cons_False.
  - rewrite !filter_cons. by rewrite IH.
Qed.

Lemma list_remove_NoDup (x : string) (l : list string) :
  NoDup l → list_remove x l = filter (λ y, y ≠ x) l.
Proof.
  induction 1 as [|y l Hy Hl IH]; simpl; [done|].
  destruct (decide (x = y)) as [<-|Hne].
  - rewrite filter_cons_False by (intros H; by apply H).
    symmetry. clear IH Hl. induction l as [|z l IH]; [done|].
    rewrite filter_cons_True.
    + f_equal. apply IH. intros ?. apply Hy. by right.
    + intros ->. apply Hy. by left.
  - rewrite filter_cons_True by done. by rewrite IH.
Qed.

Lemma filter_not_elem (x : string) (l : list string) :
  x ∉ l → filter (λ y, y ≠ x) l = l.
Proof.
  induction l as [|z l IH]; [done|]. intros Hx.
  rewrite filter_cons_True.
  - f_equal. apply IH. intros ?. apply Hx. by right.
  - intros ->. apply Hx. by left.
Qed.

Lemma remove_performance_tests_sublist (suite_list performance_test_list : list string) :
  remove_performance_tests suite_list performance_test_list `sublist_of` suite_list.
Proof.
  unfold remove_performance_tests. revert suite_list.
  induction performance_test_list as [|p perf IH]; intros suite_list; [done|].
  simpl foldl. etrans; [apply IH|].
  case_bool_decide; [apply list_remove_sublist | done].
Qed.

(** X17: removing the performance tests only takes names away and keeps the
    order of what is left; the names that are not performance tests are
    untouched; and when no name is listed twice, what is left is exactly the
    names that are not performance tests.  (A performance test listed twice
    is removed once for each time the runner names it as one.) *)
Theorem performance_tests_removed (suite_list performance_test_list : list string) :
  let kept := remove_performance_tests suite_list performance_test_list in
  kept `sublist_of` suite_list
  ∧ filter (λ name, name ∉ performance_test_list) kept
    = filter (λ name, name ∉ performance_test_list) suite_list
  ∧ (NoDup suite_list →
     kept = filter (λ name, name ∉ performance_test_list) suite_list).
Proof.
  unfold remove_performance_tests.
  revert suite_list.
  induction performance_test_list as [|p perf IH]; intros suite_list.
  - simpl. split; [done|]. split; [done|]. intros _.
    symmetry. induction suite_list as [|x l IHl]; [done|].
    rewrite filter_cons_True by apply not_elem_of_nil. by f_equal.
  - simpl foldl.
    set (l1 := if bool_decide (p ∈ suite_list) then list_remove p suite_list
               else suite_list).
    destruct (IH l1) as (Hsub & Hfilter & Hnodup).
    assert (l1 `sublist_of` suite_list) as Hsub1.
    { subst l1. case_bool_decide; [apply list_remove_sublist | done]. }
    assert (filter (λ name, name ∉ p :: perf) l1
            = filter (λ name, name ∉ p :: perf) suite_list) as Hfilter1.
    { subst l1. case_bool_decide; [|done].
      apply (list_remove_filter (λ name, name ∉ p :: perf)).
      rewrite not_elem_of_cons. intros [? _]. done. }
    split; [by etrans|]. split.
    + set (kept := foldl _ l1 perf) in *.
      assert (∀ l : list string,
                filter (λ name, name ∉ p :: perf) l
                = filter (λ name, name ≠ p) (filter (λ name, name ∉ perf) l)) as Hsplit.
      { intros l. rewrite list_filter_filter. apply list_filter_iff.
        intros x. rewrite not_elem_of_cons. tauto. }
      rewrite <- Hfilter1. rewrite !Hsplit, Hfilter. reflexivity.
    + intros Hnd.
      assert (l1 = filter (λ y, y ≠ p) suite_list) as Hl1.
      { subst l1. case_bool_decide.
        - by apply list_remove_NoDup.
        - symmetry. by apply filter_not_elem. }
      rewrite Hnodup by (by eapply sublist_NoDup; [exact Hnd|]).
      rewrite Hl1, list_filter_filter. apply list_filter_iff.
      intros x. rewrite not_elem_of_cons. tauto.
Qed.

Lemma split_on_suites_found (args : Args) (env : Env)
    (fnmatch : string → string → bool) (stdout_of : string → string) :
  suites_found args env fnmatch stdout_of ≠ [] →
  split_on "010" (str_join NL (suites_found args env fnmatch stdout_of))
  = suites_found args env fnmatch stdout_of.
Proof.
  intros Hne. apply (split_on_join "010"); [done|].
  unfold suites_found. apply Forall_forall. intros name Hin.
  apply list_elem_of_filter in Hin as [_ Hin].
  revert name Hin. apply Forall_forall, split_on_no_sep.
Qed.

(** X16: with [--suite] the run ends with exit code 2 exactly when no name
    in the runner's list matches the pattern.  When exactly one name
    matches, that suite is what is run, also when it is a performance test.
    When several match, the suites run are among the matching names, in
    the runner's order, and never a name that does not match. *)
Theorem requested_suites (args : Args) (env : Env) (ENABLE_TESTS : bool)
    (fnmatch : string → string → bool) (stdout_of : string → string) :
  nonempty (args_suite args) = true →
  let found := suites_found args env fnmatch stdout_of in
  let result := list_suites args env ENABLE_TESTS fnmatch stdout_of in
  (result = Exit 2 ↔ found = [])
  ∧ (∀ name, found = [name] → result = Return [name])
  ∧ (∀ suite_list, result = Return suite_list →
       suite_list `sublist_of` found
       ∧ Forall (λ name, fnmatch name (args_suite args) = true) suite_list).
Proof.
  intros Hsuite found result.
  assert (∀ name, name ∈ found → fnmatch name (args_suite args) = true) as Hmatch.
  { intros name Hin. subst found. unfold suites_found in Hin.
    by apply list_elem_of_filter in Hin as [? _]. }
  pose proof (split_on_suites_found args env fnmatch stdout_of) as Hsplit.
  fold found in Hsplit.
  subst result. unfold list_suites. rewrite Hsuite. fold found.
  destruct found as [|name [|name' found']] eqn:Hfound.
  - split; [done|]. split; [done|]. intros ? [=].
  - simpl negb. cbv iota beta. simpl andb. cbv iota.
    rewrite Hsplit by done.
    split; [split; intros [=]|]. split; [by intros ? [= <-]|].
    intros ? [= <-]. split; [done|].
    apply Forall_forall. intros x Hx. by apply Hmatch.
  - cbv iota beta. rewrite Hsplit by done.
    destruct (negb false && negb (bool_decide (args_constrain args = "performance"))).
    + split; [split; intros [=]|]. split; [intros ? [=]|].
      intros ? [= <-].
      pose proof (remove_performance_tests_sublist (name :: name' :: found')
                    (split_on "010"
                       (print_test_name_list env stdout_of " --test-type=performance")))
        as Hsub.
      split; [exact Hsub|].
      apply Forall_forall. intros x Hx. apply Hmatch.
      by eapply elem_of_sublist.
    + split; [split; intros [=]|]. split; [intros ? [=]|].
      intros ? [= <-]. split; [done|].
      apply Forall_forall. intros x Hx. by apply Hmatch.
Qed.

Lemma requested_suites_witness :
  list_suites args_one_suite env_sample true fnmatch_exact stdout_sample
  = Return ["wifi-phy"].
Proof.
  destruct (requested_suites args_one_suite env_sample true fnmatch_exact
              stdout_sample eq_refl) as (_ & H & _).
  apply H. vm_compute. reflexivity.
Defined.

Lemma performance_tests_removed_witness :
  remove_performance_tests ["wifi-phy"; "perf-suite"; ""] ["perf-suite"; ""]
  = filter (λ name, name ∉ ["perf-suite"; ""]) ["wifi-phy"; "perf-suite"; ""].
Proof.
  apply (performance_tests_removed ["wifi-phy"; "perf-suite"; ""] ["perf-suite"; ""]).
  apply (bool_decide_unpack (NoDup _)). vm_compute. exact I.
Defined.

(** ** The examples-to-run files *)

Lemma for_each_invariant {S X : Type} (P : S → Prop)
    (body : S → X → parse_exception + S) (xs : list X) (s s' : S) :
  (∀ s x s', P s → body s x = inr s' → P s') →
  P s → for_each body s xs = inr s' → P s'.
Proof.
  intros Hstep. revert s. induction xs as [|x xs IH]; simpl; intros s HP H.
  - by injection H as <-.
  - destruct (body s x) as [e|s1] eqn:Hb; [done|].
    eapply IH; [|exact H]. by eapply Hstep.
Qed.

Lemma for_each_raises {S X : Type} (bad : X → Prop)
    (body : S → X → parse_exception + S) (xs : list X) (s : S) :
  (∀ s x, (∃ e, body s x = inl e) ↔ bad x) →
  (∃ e, for_each body s xs = inl e) ↔ Exists bad xs.
Proof.
  intros Hbody. revert s. induction xs as [|x xs IH]; simpl; intros s.
  - rewrite Exists_nil. split; [intros [? [=]] | done].
  - rewrite Exists_cons, <- (Hbody s x).
    destruct (body s x) as [e|s1] eqn:Hb.
    + split; [intros _; left; by eexists | intros _; by eexists].
    + rewrite (IH s1). split; [by right | intros [[? [=]] | ?]; done].
Qed.

Lemma split1_spec (sep : ascii) (s : string) :
  has_char sep (split1 sep s).1 = false
  ∧ match (split1 sep s).2 with
    | Some rest => s = (split1 sep s).1 +:+ String sep rest
    | None => s = (split1 sep s).1
    end.
Proof.
  induction s as [|c s [IH1 IH2]]; simpl; [done|].
  destruct (Ascii.eqb c sep) eqn:Hc.
  - apply Ascii.eqb_eq in Hc as ->. done.
  - destruct (split1 sep s) as [part rest]. simpl in *. rewrite Hc, IH1.
    split; [done|]. destruct rest; rewrite ?string_app_cons; by f_equal.
Qed.

Lemma str_prefix_nil (s : string) : String.prefix "" s = true.
Proof. by destruct s. Qed.

Lemma starts_with_slash_arguments (program arguments : string) :
  starts_with "/" (program +:+ " " +:+ arguments) = starts_with "/" program.
Proof.
  destruct program as [|c program]; [done|]. unfold starts_with.
  rewrite string_app_cons. cbn [String.prefix].
  destruct (ascii_dec "/" c); [|done]. by rewrite !str_prefix_nil.
Qed.

Lemma os_path_join_arguments (directory program arguments : string) :
  os_path_join directory (program +:+ " " +:+ arguments)
  = os_path_join directory program +:+ " " +:+ arguments.
Proof.
  unfold os_path_join. rewrite starts_with_slash_arguments.
  destruct (starts_with "/" program); [done|].
  destruct (negb (nonempty directory) || ends_with "/" directory);
    by rewrite !string_app_assoc.
Qed.

Lemma str_prefix_app (p s : string) : String.prefix p (p +:+ s) = true.
Proof.
  induction p as [|c p IH]; [apply str_prefix_nil|].
  rewrite string_app_cons. cbn [String.prefix]. destruct (ascii_dec c c); done.
Qed.

Lemma str_prefix_refl (p : string) : String.prefix p p = true.
Proof. rewrite <- (string_app_nil_r p) at 2. apply str_prefix_app. Qed.

Lemma cpp_example_fields_inr (b : Build) (cpp_example : list string)
    (example_name do_run do_valgrind_run fullness : string) :
  cpp_example_fields b cpp_example
  = inr (example_name, do_run, do_valgrind_run, fullness) →
  ∃ t : tier, fullness = tier_name t.
Proof.
  unfold cpp_example_fields.
  destruct cpp_example as [|a [|b' [|c [|d [|? ?]]]]]; try done.
  - intros [= _ _ _ <-]. by exists Quick.
  - repeat case_bool_decide; simpl; try done; intros [= _ _ _ <-];
      first [by exists Quick | by exists Extensive | by exists TakesForever].
Qed.


Lemma parse_cpp_example_catalogued (b : Build) (env : Env)
    (cpp_executable_dir : string) (ls ls' : example_lists) (cpp_example : list string) :
  catalogued b ls →
  parse_cpp_example b env cpp_executable_dir ls cpp_example = inr ls' →
  catalogued b ls'.
Proof.
  intros [Hc Hp]. unfold parse_cpp_example.
  destruct (cpp_example_fields b cpp_example)
    as [e|[[[name do_run] do_valgrind_run] fullness]] eqn:Hf; [done|].
  destruct (cpp_example_fields_inr _ _ _ _ _ _ Hf) as [t Ht].
  destruct (split1_spec " " name) as [_ Hsplit].
  destruct (split1 " " name) as [program rest]. cbn [fst snd] in *.
  case_bool_decide; [done|].
  destruct (path_exists b _) eqn:Hex; [|by intros [= <-]].
  intros [= <-]. split; [|exact Hp]. cbn [l_example_tests l_example_names_original].
  apply Forall2_app; [exact Hc|]. constructor; [|constructor].
  cbn [ee_name ee_fullness ee_path]. split; [|split].
  - exists (relpath b cpp_executable_dir (NS3_BUILDDIR env)).
    destruct rest as [arguments|]; subst name.
    + rewrite bool_decide_true by eauto. cbn [default].
      symmetry. apply os_path_join_arguments.
    + rewrite bool_decide_false by (intros [? ?]; done). reflexivity.
  - by exists t.
  - eexists. split; [exact Hex|].
    destruct rest as [arguments|].
    + rewrite bool_decide_true by eauto. apply str_prefix_app.
    + rewrite bool_decide_false by (intros [? ?]; done). apply str_prefix_refl.
Qed.

Lemma parse_python_example_catalogued (b : Build) (python_script_dir : string)
    (ls ls' : example_lists) (python_example : list string) :
  catalogued b ls →
  parse_python_example b python_script_dir ls python_example = inr ls' →
  catalogued b ls'.
Proof.
  intros [Hc Hp]. unfold parse_python_example.
  destruct (python_example_fields python_example)
    as [e|[[name do_run] fullness]] eqn:Hf; [done|].
  destruct (split1 " " name) as [program rest]. cbn [fst snd] in *.
  destruct (path_exists b _) eqn:Hex; [|by intros [= <-]].
  intros [= <-]. split; [exact Hc|]. cbn [l_python_tests].
  apply Forall_app. split; [exact Hp|]. constructor; [|constructor].
  cbn [pe_path]. eexists. split; [exact Hex|].
  destruct rest as [arguments|].
  - rewrite bool_decide_true by eauto. apply str_prefix_app.
  - rewrite bool_decide_false by (intros [? ?]; done). apply str_prefix_refl.
Qed.

Lemma parse_examples_to_run_file_catalogued (b : Build) (env : Env)
    (examples_to_run_path cpp_executable_dir python_script_dir : string)
    (ls ls' : example_lists) :
  catalogued b ls →
  parse_examples_to_run_file b env examples_to_run_path cpp_executable_dir
    python_script_dir ls = inr ls' →
  catalogued b ls'.
Proof.
  intros Hls. unfold parse_examples_to_run_file.
  destruct (find_examples_to_run b examples_to_run_path) as [file|];
    [|by intros [= <-]].
  destruct (for_each (parse_cpp_example b env cpp_executable_dir) ls _)
    as [e|ls1] eqn:Hcpp; [done|].
  intros Hpy.
  eapply (for_each_invariant (catalogued b)); [| |exact Hpy].
  - intros s x s'. apply parse_python_example_catalogued.
  - eapply (for_each_invariant (catalogued b)); [| |exact Hcpp]; [|exact Hls].
    intros s x s'. apply parse_cpp_example_catalogued.
Qed.

(** X18: the catalog of examples that [run_tests] builds from the
    examples-to-run files.  The list of C++ entries and the list of original
    names grow in step: they have the same length, and the name of the i-th
    entry is its original name, arguments included, joined to a directory.
    Every C++ entry carries one of the three tier names as fullness, also
    when the file gave it in lower case or gave none.  The command of every
    entry, C++ or Python, starts with the path of a file that exists. *)
Theorem examples_catalog_well_formed (b : Build) (env : Env) (ls : example_lists) :
  collect_examples b env = inr ls →
  Forall2 (λ x original,
             (∃ directory, ee_name x = os_path_join directory original)
             ∧ (∃ t : tier, ee_fullness x = tier_name t)
             ∧ ∃ program, path_exists b program = true
                          ∧ String.prefix program (ee_path x) = true)
    (l_example_tests ls) (l_example_names_original ls)
  ∧ Forall (λ x, ∃ program, path_exists b program = true
                            ∧ String.prefix program (pe_path x) = true)
      (l_python_tests ls).
Proof.
  change (collect_examples b env = inr ls → catalogued b ls).
  unfold collect_examples.
  destruct (for_each (parse_example_directory b env) _ _) as [e|ls1] eqn:H1; [done|].
  destruct (for_each (parse_module "src" b env) _ _) as [e|ls2] eqn:H2; [done|].
  intros H3.
  assert (catalogued b (mkLists [] [] [])) as H0 by (split; constructor).
  assert (catalogued b ls1) as Hls1.
  { eapply (for_each_invariant (catalogued b)); [|exact H0|exact H1].
    intros s x s'. apply parse_examples_to_run_file_catalogued. }
  assert (catalogued b ls2) as Hls2.
  { eapply (for_each_invariant (catalogued b)); [|exact Hls1|exact H2].
    intros s x s'. apply parse_examples_to_run_file_catalogued. }
  eapply (for_each_invariant (catalogued b)); [|exact Hls2|exact H3].
  intros s x s'. apply parse_examples_to_run_file_catalogued.
Qed.

Lemma examples_catalog_well_formed_witness :
  Forall2 (λ x original,
             (∃ directory, ee_name x = os_path_join directory original)
             ∧ (∃ t : tier, ee_fullness x = tier_name t)
             ∧ ∃ program, path_exists build_sample program = true
                          ∧ String.prefix program (ee_path x) = true)
    (l_example_tests lists_sample) (l_example_names_original lists_sample)
  ∧ Forall (λ x, ∃ program, path_exists build_sample program = true
                            ∧ String.prefix program (pe_path x) = true)
      (l_python_tests lists_sample).
Proof.
  apply (examples_catalog_well_formed build_sample env_sample lists_sample).
  vm_compute. reflexivity.
Defined.

Lemma cpp_example_fields_inl (b : Build) (cpp_example : list string) :
  (∃ e, cpp_example_fields b cpp_example = inl e) ↔ ¬ cpp_tuple_ok b cpp_example.
Proof.
  unfold cpp_example_fields, cpp_tuple_ok.
  destruct cpp_example as [|a [|b' [|c [|d [|? ?]]]]]; simpl.
  - split; [intros _ [[=]|[[=] _]] | by eexists].
  - split; [intros _ [[=]|[[=] _]] | by eexists].
  - split; [intros _ [[=]|[[=] _]] | by eexists].
  - split; [intros [? [=]] | intros H; destruct H; by left].
  - split.
    + intros [e He] [[=]|[_ [t [= Ht]]]]. rewrite Ht in He.
      by destruct t.
    + intros Hno. repeat case_bool_decide; simpl; try (by eexists);
        destruct Hno; right; (split; [done|]);
        first [ by (exists Quick; f_equal)
              | by (exists Extensive; f_equal)
              | by (exists TakesForever; f_equal) ].
  - split; [intros _ [[=]|[[=] _]] | by eexists].
Qed.

Lemma parse_cpp_example_inl (b : Build) (env : Env) (cpp_executable_dir : string)
    (ls : example_lists) (cpp_example : list string) :
  (∃ e, parse_cpp_example b env cpp_executable_dir ls cpp_example = inl e)
  ↔ ¬ cpp_tuple_ok b cpp_example ∨ cpp_executable_dir = "".
Proof.
  rewrite <- cpp_example_fields_inl. unfold parse_cpp_example.
  destruct (cpp_example_fields b cpp_example) as [e|[[[? ?] ?] ?]];
    [split; intros _; [left|]; by eexists|].
  cbv zeta. case_bool_decide as Hdir.
  - split; [by right | by eexists].
  - destruct (path_exists b _); split;
      (intros [? [=]] || (intros [[? [=]] | ?]; done)).
Qed.

Lemma parse_python_example_inl (b : Build) (python_script_dir : string)
    (ls : example_lists) (python_example : list string) :
  (∃ e, parse_python_example b python_script_dir ls python_example = inl e)
  ↔ ¬ python_tuple_ok python_example.
Proof.
  unfold parse_python_example, python_example_fields, python_tuple_ok.
  destruct python_example as [|a [|b' [|c [|? ?]]]]; simpl.
  - split; [intros _ [[=]|[=]] | by eexists].
  - split; [intros _ [[=]|[=]] | by eexists].
  - split; [|intros H; destruct H; by left].
    destruct (path_exists b _); intros [? [=]].
  - split; [|intros H; destruct H; by right].
    destruct (path_exists b _); intros [? [=]].
  - split; [intros _ [[=]|[=]] | by eexists].
Qed.

(** X19: when [parse_examples_to_run_file] raises.  Without an
    examples-to-run file, in the tree or among the external contributions,
    it returns with the lists as they were.  With one, it raises exactly
    when some tuple is malformed: a C++ tuple that has not three or four
    fields or whose fourth is not a tier name once [str.upper] has been
    applied to it, or a Python tuple that has not two or three fields; or
    when there is a C++ tuple and the directory of the executables is the
    empty path, which [os.path.relpath] refuses.  Whether the example was
    built plays no part: a malformed tuple of an example that does not
    exist raises too, and the fullness of a Python tuple is not checked. *)
Theorem parse_raises_on_malformed_tuple (b : Build) (env : Env)
    (examples_to_run_path cpp_executable_dir python_script_dir : string)
    (ls : example_lists) :
  (find_examples_to_run b examples_to_run_path = None →
   parse_examples_to_run_file b env examples_to_run_path cpp_executable_dir
     python_script_dir ls = inr ls)
  ∧ ∀ file, find_examples_to_run b examples_to_run_path = Some file →
      ((∃ e, parse_examples_to_run_file b env examples_to_run_path
               cpp_executable_dir python_script_dir ls = inl e)
       ↔ Exists (λ t, ¬ cpp_tuple_ok b t ∨ cpp_executable_dir = "")
           (get_list_from_file b file "cpp_examples")
         ∨ Exists (λ t, ¬ python_tuple_ok t)
             (get_list_from_file b file "python_examples")).
Proof.
  unfold parse_examples_to_run_file. split.
  - by intros ->.
  - intros file ->.
    pose proof (for_each_raises (λ t, ¬ cpp_tuple_ok b t ∨ cpp_executable_dir = "")
                  (parse_cpp_example b env cpp_executable_dir)
                  (get_list_from_file b file "cpp_examples") ls
                  (parse_cpp_example_inl b env cpp_executable_dir)) as Hcpp.
    destruct (for_each (parse_cpp_example b env cpp_executable_dir) ls _)
      as [e|ls1] eqn:H1.
    + split; [intros _; left; apply Hcpp; by eexists | intros _; by eexists].
    + rewrite (for_each_raises (λ t, ¬ python_tuple_ok t)
                 (parse_python_example b python_script_dir) _ ls1
                 (parse_python_example_inl b python_script_dir)).
      split; [by right|]. intros [Hbad|Hbad]; [|done].
      apply Hcpp in Hbad as [? [=]].
Qed.

Lemma parse_raises_on_malformed_tuple_witness :
  ∃ e, parse_examples_to_run_file build_malformed env_sample
         "examples/tutorial/examples-to-run.py"
         "/ns-3-dev/build/examples/tutorial" "examples/tutorial"
         (mkLists [] [] []) = inl e.
Proof.
  pose proof (parse_raises_on_malformed_tuple build_malformed env_sample
                "examples/tutorial/examples-to-run.py"
                "/ns-3-dev/build/examples/tutorial" "examples/tutorial"
                (mkLists [] [] [])) as [_ H].
  apply (H "examples/tutorial/examples-to-run.py"); [vm_compute; reflexivity|].
  left. apply Exists_cons_hd. left. intros [[=]|[[=] _]].
Defined.

(** ** Selecting and listing examples *)

(** X20: with [--example], every example that is dispatched is either one of
    the catalog or the one entry made up for a program that the catalog does
    not list.  The made-up entry is named as the option says and its command
    is the path the dictionary of runnable programs holds, always run, in
    the QUICK tier: the arguments given after the program name on the
    command line are not part of it. *)
Theorem example_arguments_dropped (b : Build) (example : string)
    (example_args : list string) (dictionary : gmap string string)
    (example_tests : list example_entry) (x : example_entry) :
  nonempty example = true →
  x ∈ select_examples b example example_args dictionary example_tests →
  x ∈ example_tests
  ∨ (ee_name x = example
     ∧ dictionary !! (APPNAME b +:+ VERSION b +:+ "-" +:+ example
                      +:+ BUILD_PROFILE_SUFFIX b) = Some (ee_path x)
     ∧ ee_do_run x = "True" ∧ ee_do_valgrind_run x = "True"
     ∧ ee_fullness x = "QUICK").
Proof.
  intros Hexample. unfold select_examples. rewrite Hexample.
  set (selected := if ends_with "*" example then _ else _).
  assert (∀ y, y ∈ selected → y ∈ example_tests) as Hsub.
  { intros y. subst selected. destruct (ends_with "*" example);
      intros Hy; by apply list_elem_of_filter in Hy as [_ ?]. }
  cbv zeta. rewrite (bool_decide_true (length (@nil string) = 0%nat)) by done.
  simpl negb. rewrite orb_false_r.
  case_bool_decide as Hlen.
  - destruct (dictionary !! _) as [program|] eqn:Hprogram.
    + intros ->%list_elem_of_singleton. right.
      split; [reflexivity|]. split; [reflexivity|]. done.
    + intros []%elem_of_nil.
  - intros Hx. left. by apply Hsub.
Qed.

Lemma example_arguments_dropped_witness :
  requested_second ∈ l_example_tests lists_sample
  ∨ (ee_name requested_second = "second"
     ∧ ns3_runnable_programs_dictionary programs_sample
         !! (APPNAME build_sample +:+ VERSION build_sample +:+ "-" +:+ "second"
             +:+ BUILD_PROFILE_SUFFIX build_sample)
       = Some (ee_path requested_second)
     ∧ ee_do_run requested_second = "True"
     ∧ ee_do_valgrind_run requested_second = "True"
     ∧ ee_fullness requested_second = "QUICK").
Proof.
  apply (example_arguments_dropped build_sample "second" ["--verbose"]
           (ns3_runnable_programs_dictionary programs_sample)
           (l_example_tests lists_sample) requested_second).
  - reflexivity.
  - assert (select_examples build_sample "second" ["--verbose"]
              (ns3_runnable_programs_dictionary programs_sample)
              (l_example_tests lists_sample) = [requested_second]) as ->
      by (vm_compute; reflexivity).
    apply list_elem_of_singleton. reflexivity.
Defined.

(** X21: what [--list] shows of the examples.  When the tests are enabled
    and the runner asked for the suites fails, [run_tests] returns before
    it looks at the examples.  Otherwise the loop over the Python examples
    unpacks each entry, a tuple of three fields, into two names: as soon as
    there is one Python example and the Python bindings are enabled, the
    listing raises [ValueError].  If it does not, the examples listed are
    the original names of the C++ examples in sorted order, or none when
    examples are disabled; a Python example is never listed. *)
Theorem list_raises_with_python_examples (env : Env) (ENABLE_TESTS : bool) (rc : Z)
    (ls : example_lists) :
  ((∃ e, listed_examples env ENABLE_TESTS rc ls = inl e)
   ↔ (ENABLE_TESTS = false ∨ rc = 0)
     ∧ ENABLE_PYTHON_BINDINGS env = true ∧ l_python_tests ls ≠ [])
  ∧ (∀ e, listed_examples env ENABLE_TESTS rc ls = inl e → e = ValueError_unpack)
  ∧ (listed_examples env ENABLE_TESTS rc ls = inr None
     ↔ ENABLE_TESTS = true ∧ rc ≠ 0)
  ∧ (∀ examples, listed_examples env ENABLE_TESTS rc ls = inr (Some examples) →
       examples = if ENABLE_EXAMPLES env
                  then merge_sort String.le (l_example_names_original ls)
                  else []).
Proof.
  unfold listed_examples.
  destruct (decide (ENABLE_TESTS = true ∧ rc ≠ 0)) as [[-> Hrc]|Hgo].
  - rewrite (proj2 (Z.eqb_neq rc 0) Hrc). simpl.
    split; [split; [intros [? [=]] | intros [[[=]|?] _]; done]|].
    split; [intros ? [=]|]. split; [done | intros ? [=]].
  - assert (ENABLE_TESTS && negb (rc =? 0) = false) as ->.
    { destruct ENABLE_TESTS; [|done]. simpl.
      destruct (Z.eqb_spec rc 0); [done|]. destruct Hgo. done. }
    assert (ENABLE_TESTS = false ∨ rc = 0) as Hor.
    { destruct ENABLE_TESTS; [|by left]. right.
      destruct (decide (rc = 0)); [done|]. destruct Hgo. done. }
    destruct (ENABLE_PYTHON_BINDINGS env).
    + destruct (l_python_tests ls) as [|x tests].
      * simpl. rewrite app_nil_r.
        split; [split; [intros [? [=]] | intros (_ & _ & []); done]|].
        split; [intros ? [=]|]. split; [split; [intros [=] | done]|].
        by intros ? [= <-].
      * simpl. split; [split; [done | by eexists]|].
        split; [by intros ? [= <-]|]. split; [split; [intros [=] | done]|].
        intros ? [=].
    + split; [split; [intros [? [=]] | intros (_ & [=] & _)]|].
      split; [intros ? [=]|]. split; [split; [intros [=] | done]|].
      by intros ? [= <-].
Qed.

Lemma list_raises_with_python_examples_witness :
  listed_examples env_sample true 0 lists_sample = inl ValueError_unpack.
Proof.
  destruct (list_raises_with_python_examples env_sample true 0 lists_sample)
    as (Hraise & Hvalue & _).
  destruct (proj2 Hraise) as [e He];
    [split; [by right | split; [reflexivity | discriminate]]|].
  rewrite He. f_equal. by apply Hvalue.
Defined.

(** ** The program of a command line *)

Lemma has_char_app (c : ascii) (a b : string) :
  has_char c (a +:+ b) = has_char c a || has_char c b.
Proof.
  induction a as [|x a IH]; [done|].
  rewrite string_app_cons. simpl. by rewrite IH, orb_assoc.
Qed.

Lemma split_on_app_sep (sep : ascii) (a b : string) :
  split_on sep (a +:+ String sep b) = split_on sep a ++ split_on sep b.
Proof.
  induction a as [|c a IH].
  - apply split_on_sep.
  - rewrite string_app_cons. simpl split_on. rewrite IH.
    destruct (Ascii.eqb c sep); [done|].
    pose proof (split_on_not_nil sep a).
    by destruct (split_on sep a).
Qed.

Lemma basename_app_slash (a b : string) :
  basename (a +:+ String "/" b) = basename b.
Proof.
  unfold basename. rewrite split_on_app_sep, last_app.
  pose proof (split_on_not_nil "/" b) as Hne.
  destruct (last (split_on "/" b)) eqn:Hlast; [done|].
  by apply last_None in Hlast.
Qed.

Lemma basename_id (s : string) : has_char "/" s = false → basename s = s.
Proof. intros H. unfold basename. by rewrite split_on_id. Qed.

Lemma ends_with_slash (s : string) :
  ends_with "/" s = true → ∃ d, s = d +:+ "/".
Proof.
  unfold ends_with. intros [H _]%andb_true_iff.
  apply bool_decide_eq_true in H. simpl String.length in H.
  induction s as [|c s IH]; [done|].
  destruct s as [|c' s].
  - simpl in H. injection H as ->. by exists "".
  - destruct IH as [d ->].
    { simpl in H |- *. by rewrite Nat.sub_0_r in *. }
    by exists (String c d).
Qed.

Lemma basename_os_path_join (directory file : string) :
  has_char "/" file = false → basename (os_path_join directory file) = file.
Proof.
  intros Hfile. unfold os_path_join.
  destruct (starts_with "/" file); [by apply basename_id|].
  destruct (nonempty directory) eqn:Hne; simpl negb; cbv iota.
  - destruct (ends_with "/" directory) eqn:Hends; simpl orb; cbv iota.
    + apply ends_with_slash in Hends as [d ->].
      rewrite string_app_assoc.
      change ("/" +:+ file) with (String "/" file).
      rewrite basename_app_slash. by apply basename_id.
    + change ("/" +:+ file) with (String "/" file).
      rewrite basename_app_slash. by apply basename_id.
  - destruct directory; [|done]. by apply basename_id.
Qed.

Lemma has_char_os_path_join (c : ascii) (directory file : string) :
  c ≠ "/"%char →
  has_char c directory = false → has_char c file = false →
  has_char c (os_path_join directory file) = false.
Proof.
  intros Hc Hd Hf. unfold os_path_join.
  destruct (starts_with "/" file); [done|].
  apply Ascii.eqb_neq in Hc. rewrite Ascii.eqb_sym in Hc.
  destruct (negb (nonempty directory) || ends_with "/" directory);
    rewrite !has_char_app, Hd, Hf; [done|].
  change (has_char c "/") with (Ascii.eqb "/" c || false).
  by rewrite Hc.
Qed.

Lemma split1_id (sep : ascii) (s : string) :
  has_char sep s = false → split1 sep s = (s, None).
Proof.
  induction s as [|c s IH]; [done|]. simpl.
  intros [Hc Hs]%orb_false_iff. by rewrite Hc, (IH Hs).
Qed.

Lemma split1_app (sep : ascii) (a b : string) :
  has_char sep a = false → split1 sep (a +:+ String sep b) = (a, Some b).
Proof.
  induction a as [|c a IH].
  - intros _. simpl. by rewrite Ascii.eqb_refl.
  - simpl has_char. intros [Hc Ha]%orb_false_iff.
    rewrite string_app_cons. simpl split1. by rewrite Hc, (IH Ha).
Qed.

Lemma cpp_example_fields_name (b : Build) (name : string) (rest : list string)
    (example_name do_run do_valgrind_run fullness : string) :
  cpp_example_fields b (name :: rest)
  = inr (example_name, do_run, do_valgrind_run, fullness) →
  example_name = name.
Proof.
  unfold cpp_example_fields.
  destruct rest as [|b' [|c [|d [|? ?]]]]; try done.
  - by intros [= <- _ _ _].
  - destruct (_ && _); [done|]. by intros [= <- _ _ _].
Qed.

(** X22: the example loop finds again the program that the parser looked for.
    For an entry that the parser appends, the command without its arguments
    and directories is the file name built from the example's name, which is
    the key looked up in the dictionary of runnable programs, and that file
    exists in the directory of the executables.  This needs the directory
    and the file name to be free of spaces, because the command is cut at
    its first space, and the file name to be free of slashes. *)
Theorem example_program_recovered (b : Build) (env : Env)
    (cpp_executable_dir : string) (ls ls' : example_lists)
    (name : string) (rest : list string) (x : example_entry) :
  let file :=
    APPNAME b +:+ VERSION b +:+ "-" +:+ (split1 " " name).1
    +:+ BUILD_PROFILE_SUFFIX b in
  has_char " " cpp_executable_dir = false →
  has_char " " file = false →
  has_char "/" file = false →
  parse_cpp_example b env cpp_executable_dir ls (name :: rest) = inr ls' →
  l_example_tests ls' = l_example_tests ls ++ [x] →
  test_name (ee_path x) = file
  ∧ path_exists b (os_path_join cpp_executable_dir file) = true.
Proof.
  intros file Hdir Hspace Hslash. unfold parse_cpp_example.
  destruct (cpp_example_fields b (name :: rest))
    as [e|[[[name' do_run] do_valgrind_run] fullness]] eqn:Hf; [done|].
  apply cpp_example_fields_name in Hf as ->.
  cbv zeta. fold file. case_bool_decide; [done|].
  destruct (path_exists b (os_path_join cpp_executable_dir file)) eqn:Hex.
  - intros [= <-]. cbn [l_example_tests].
    intros [= <-]%app_inv_head. cbn [ee_path]. split; [|done].
    assert (has_char " " (os_path_join cpp_executable_dir file) = false) as Hjoin
      by (by apply has_char_os_path_join).
    unfold test_name.
    destruct (split1 " " name).2 as [arguments|].
    + rewrite bool_decide_true by eauto.
      change (" " +:+ ?r) with (String " " r).
      rewrite split1_app by done. by apply basename_os_path_join.
    + rewrite bool_decide_false by (intros [? ?]; done).
      rewrite split1_id by done. by apply basename_os_path_join.
  - intros [= <-] Heq. exfalso.
    apply (f_equal length) in Heq. rewrite length_app in Heq. simpl in Heq. lia.
Qed.

Lemma example_program_recovered_witness :
  test_name "/ns-3-dev/build/examples/tutorial/ns3-dev-first-debug --verbose"
  = "ns3-dev-first-debug"
  ∧ path_exists build_sample
      (os_path_join "/ns-3-dev/build/examples/tutorial" "ns3-dev-first-debug") = true.
Proof.
  apply (example_program_recovered build_sample env_sample
           "/ns-3-dev/build/examples/tutorial" (mkLists [] [] [])
           (mkLists (l_example_tests lists_sample)
              (l_example_names_original lists_sample) [])
           "first --verbose" ["True"; "True"; "extensive"]
           (mkExample "examples/tutorial/first --verbose"
              "/ns-3-dev/build/examples/tutorial/ns3-dev-first-debug --verbose"
              "True" "True" "EXTENSIVE"));
    vm_compute; reflexivity.
Defined.

(** ** The commands that are run *)

Lemma str_prefix_app_l (p q r : string) :
  String.prefix p q = true → String.prefix p (q +:+ r) = true.
Proof.
  revert q. induction p as [|c p IH]; intros q; [intros _; apply str_prefix_nil|].
  destruct q as [|d q]; [done|].
  rewrite string_app_cons. cbn [String.prefix].
  destruct (ascii_dec c d); [apply IH | done].
Qed.

Lemma launch_command_valgrind (args : Args) (env : Env) (job : Job) :
  args_valgrind args = true →
  starts_with "valgrind " (launch_command args env job) = true.
Proof.
  intros Hv. unfold launch_command, run_job_command, starts_with. rewrite Hv.
  destruct (is_example job || is_pyexample job);
    destruct (VALGRIND_SUPPRESSIONS_FILE env) as [f|]; try destruct (nonempty f);
    by apply str_prefix_app_l.
Qed.

(** X23: every subprocess runs the command line of the job it belongs to, a
    job that was dispatched and is not to be skipped.  In a run with
    [--valgrind] each of these command lines starts with [valgrind]: this
    holds of the Python example named by [--pyexample] too, which is not
    skipped as the Python examples of the catalog are. *)
Theorem valgrind_wraps_every_command (args : Args) (env : Env) (jobs : list Job)
    (processors : nat) (es : list event) (s : sys) (ref : nat) (cmd : string) :
  Forall (λ job, is_break job = false) jobs →
  run args env es (start jobs processors) = Some s →
  (ref, cmd) ∈ launched s →
  (∃ job, jobs !! ref = Some job ∧ is_skip job = false
          ∧ cmd = launch_command args env job)
  ∧ (args_valgrind args = true → starts_with "valgrind " cmd = true)
  ∧ (args_valgrind args = true →
     is_skip (single_pyexample_job args env) = false
     ∧ ∀ x, is_skip (pyexample_job args env x) = true).
Proof.
  intros Hjobs Hrun Hin.
  pose proof (inv_launched _ _ _ _ _
                (invariant_run args env jobs processors Hjobs es _ s Hrun
                   (invariant_start args env jobs processors))) as Hl.
  eapply Forall_forall in Hl; [|exact Hin].
  destruct Hl as (job & Hjob & Hskip & Hcmd). simpl in *.
  split; [by exists job|]. split.
  - intros Hv. rewrite Hcmd. by apply launch_command_valgrind.
  - intros Hv. split; [reflexivity|]. intros x.
    unfold pyexample_job. rewrite Hv. cbv zeta.
    match goal with
    | |- context [fullness_gate ?a ?f ?j] =>
        assert (is_skip j = true) as Hj
          by (destruct (negb (ENABLE_PYTHON_BINDINGS env)); reflexivity);
        unfold fullness_gate;
        destruct (_ && _); [reflexivity|];
        destruct (_ && _); [reflexivity | exact Hj]
    end.
Qed.

Lemma valgrind_wraps_every_command_witness :
  ∃ s cmd,
    run args_valgrind_pyexample env_sample launch_one
      (start [single_pyexample_job args_valgrind_pyexample env_sample] 1) = Some s
    ∧ launched s = [(0%nat, cmd)]
    ∧ starts_with "valgrind " cmd = true.
Proof.
  destruct (run args_valgrind_pyexample env_sample launch_one
              (start [single_pyexample_job args_valgrind_pyexample env_sample] 1))
    as [s|] eqn:Hrun; [|vm_compute in Hrun; discriminate Hrun].
  exists s, (launch_command args_valgrind_pyexample env_sample
               (single_pyexample_job args_valgrind_pyexample env_sample)).
  split; [reflexivity|].
  assert (launched s
          = [(0%nat, launch_command args_valgrind_pyexample env_sample
                       (single_pyexample_job args_valgrind_pyexample env_sample))])
    as Hl by (vm_compute in Hrun; injection Hrun as <-; reflexivity).
  split; [exact Hl|].
  apply (valgrind_wraps_every_command args_valgrind_pyexample env_sample
           [single_pyexample_job args_valgrind_pyexample env_sample] 1
           launch_one s 0%nat).
  - repeat constructor.
  - exact Hrun.
  - rewrite Hl. apply list_elem_of_singleton. reflexivity.
  - reflexivity.
Defined.

(** ** The examples-to-run file that is read *)

Lemma str_in_cons (sub : string) (c : ascii) (s : string) :
  str_in sub (String c s) = false →
  String.prefix sub (String c s) = false ∧ str_in sub s = false.
Proof.
  unfold str_in. cbn [String.index].
  destruct (String.prefix sub (String c s)); [done|].
  by destruct (String.index 0 sub s).
Qed.

Lemma str_replace_absent (old new s : string) :
  str_in old s = false → str_replace old new s = s.
Proof.
  unfold str_replace. induction s as [|c s IH]; [done|].
  intros [Hp Hs]%str_in_cons. cbn [replace_from]. rewrite Hp.
  by rewrite (IH Hs).
Qed.

(** X24: the examples-to-run file that the parser reads exists.  It is the
    file of the source tree when that exists; a file among the external
    contributions is read only when the file of the tree is missing and its
    path mentions [contrib].  For any other path nothing outside the tree is
    looked at: a missing file means no examples. *)
Theorem examples_to_run_file_found (b : Build) (examples_to_run_path : string) :
  (∀ file, find_examples_to_run b examples_to_run_path = Some file →
     path_exists b file = true
     ∧ (file = examples_to_run_path
        ∨ (path_exists b examples_to_run_path = false
           ∧ str_in "contrib" examples_to_run_path = true)))
  ∧ (path_exists b examples_to_run_path = false →
     str_in "contrib" examples_to_run_path = false →
     find_examples_to_run b examples_to_run_path = None).
Proof.
  unfold find_examples_to_run. split.
  - intros file.
    destruct (path_exists b examples_to_run_path) eqn:Hex; simpl negb; cbv iota.
    + intros [= <-]. split; [done | by left].
    + destruct (path_exists b (str_replace _ _ _)) eqn:Hext; [|done].
      intros [= <-]. split; [done|].
      destruct (str_in "contrib" examples_to_run_path) eqn:Hin; [by right|].
      rewrite str_replace_absent in Hext by done. congruence.
  - intros Hex Hin. rewrite Hex. simpl negb. cbv iota.
    rewrite str_replace_absent by done. by rewrite Hex.
Qed.

Lemma examples_to_run_file_found_witness :
  find_examples_to_run build_sample "examples/udp/examples-to-run.py" = None.
Proof.
  apply (examples_to_run_file_found build_sample "examples/udp/examples-to-run.py");
    vm_compute; reflexivity.
Defined.
